(** * Response normalisation engine of the brand-research page

    A shallow embedding of the helper functions of [src/app/page.tsx]
    ([parseBrandText], [tryParseString], [resolveValue], [mapChatGPTResult],
    [findBrandsInObject], [parseAgentResponse], [parseResponseMeta],
    [exportCSV]) together with the pieces of the JavaScript runtime they
    call, followed by the properties the specification states about them.

    Conventions.
    - A JavaScript string is kept as the sequence of bytes of its UTF-8
      encoding ([string]); the program only ever asks whether a length is
      positive, so the difference between counting bytes and counting
      UTF-16 units is not observable.
    - A Number is a binary64 value, [spec_float] of the Standard Library.
    - Types are erased at run time: every datum the functions receive is a
      [value], whatever the TypeScript annotation says.
    - A thrown exception is an explicit outcome ([Throw]) of type [completion]. *)

From Stdlib Require Import String Ascii List ZArith Lia Bool Arith DecimalString.
From Stdlib Require Import SpecFloat.
From Equations Require Import Equations.
Import ListNotations.
Open Scope string_scope.

(* ------------------------------------------------------------------ *)
(** ** Characters and strings of the runtime *)

Module Str.

Local Open Scope nat_scope.

Definition dquote : ascii := "034"%char.
Definition squote : ascii := "039"%char.
Definition LF : ascii := "010"%char.
Definition backslash : ascii := "092"%char.

Definition code (c : ascii) : nat := nat_of_ascii c.

(** One-byte white space of ECMAScript: TAB, LF, VT, FF, CR, SP. *)
Definition ws1 (c : ascii) : bool :=
  let n := code c in ((9 <=? n) && (n <=? 13)) || (n =? 32).

(** Two-byte white space: U+00A0. *)
Definition ws2 (c1 c2 : ascii) : bool :=
  (code c1 =? 194) && (code c2 =? 160).

(** Three-byte white space: U+1680, U+2000..U+200A, U+2028, U+2029,
    U+202F, U+205F, U+3000, U+FEFF. *)
Definition ws3 (c1 c2 c3 : ascii) : bool :=
  let a := code c1 in let b := code c2 in let c := code c3 in
  ((a =? 225) && (b =? 154) && (c =? 128))
  || ((a =? 226) && (b =? 128)
      && (((128 <=? c) && (c <=? 138)) || (c =? 168) || (c =? 169) || (c =? 175)))
  || ((a =? 226) && (b =? 129) && (c =? 159))
  || ((a =? 227) && (b =? 128) && (c =? 128))
  || ((a =? 239) && (b =? 187) && (c =? 191)).

(** [String.prototype.trimStart]; also what the regular expression [\s*]
    consumes at the head of a string. *)
Fixpoint trimStart (s : string) : string :=
  match s with
  | EmptyString => s
  | String c1 r1 =>
      if ws1 c1 then trimStart r1 else
      match r1 with
      | EmptyString => s
      | String c2 r2 =>
          if ws2 c1 c2 then trimStart r2 else
          match r2 with
          | EmptyString => s
          | String c3 r3 => if ws3 c1 c2 c3 then trimStart r3 else s
          end
      end
  end.

Fixpoint rev_append (s acc : string) : string :=
  match s with
  | EmptyString => acc
  | String c r => rev_append r (String c acc)
  end.

Definition rev (s : string) : string := rev_append s EmptyString.

(** The same scan over the reversed string: multi-byte characters arrive
    last byte first. *)
Fixpoint trimStart_rev (s : string) : string :=
  match s with
  | EmptyString => s
  | String c1 r1 =>
      if ws1 c1 then trimStart_rev r1 else
      match r1 with
      | EmptyString => s
      | String c2 r2 =>
          if ws2 c2 c1 then trimStart_rev r2 else
          match r2 with
          | EmptyString => s
          | String c3 r3 => if ws3 c3 c2 c1 then trimStart_rev r3 else s
          end
      end
  end.

Definition trimEnd (s : string) : string := rev (trimStart_rev (rev s)).

(** [String.prototype.trim]. *)
Definition trim (s : string) : string := trimEnd (trimStart s).

Definition lower_char (c : ascii) : ascii :=
  let n := code c in
  if (65 <=? n) && (n <=? 90) then ascii_of_nat (n + 32) else c.

(** [String.prototype.toLowerCase], on the letters A to Z. Every use in the
    program compares the outcome with a constant made of ASCII letters,
    none of which is the lower case of a character outside ASCII. *)
Fixpoint toLowerCase (s : string) : string :=
  match s with
  | EmptyString => EmptyString
  | String c r => String (lower_char c) (toLowerCase r)
  end.

Definition is_quote (c : ascii) : bool :=
  Ascii.eqb c dquote || Ascii.eqb c squote.

Fixpoint remove_chars (p : ascii -> bool) (s : string) : string :=
  match s with
  | EmptyString => EmptyString
  | String c r => if p c then remove_chars p r else String c (remove_chars p r)
  end.

(** [s.split(re)] for a regular expression [re] that matches exactly one
    character, the ones satisfying [p]. *)
Fixpoint split (p : ascii -> bool) (s : string) : list string :=
  match s with
  | EmptyString => [EmptyString]
  | String c r =>
      if p c then EmptyString :: split p r
      else match split p r with
           | piece :: rest => String c piece :: rest
           | [] => [String c EmptyString]
           end
  end.

Definition drop_first_if (p : ascii -> bool) (s : string) : string :=
  match s with
  | String c r => if p c then r else s
  | EmptyString => s
  end.

(** [s.replace(/^[QUOTES]|[QUOTES]$/g, '')]: one quote character is removed
    at the start when there is one, then one at the end of what is left. *)
Definition strip_quote_ends (s : string) : string :=
  rev (drop_first_if is_quote (rev (drop_first_if is_quote s))).

(** [s.replace(/DQ/g, DQ DQ)]: every double quote is written twice. *)
Fixpoint double_dquotes (s : string) : string :=
  match s with
  | EmptyString => EmptyString
  | String c r =>
      if Ascii.eqb c dquote then String dquote (String dquote (double_dquotes r))
      else String c (double_dquotes r)
  end.

Definition nonEmpty (s : string) : bool :=
  match s with EmptyString => false | _ => true end.

(** [xs.join(sep)] on strings. *)
Fixpoint join (sep : string) (xs : list string) : string :=
  match xs with
  | [] => EmptyString
  | [x] => x
  | x :: rest => x ++ sep ++ join sep rest
  end.

(** When [p] is a prefix of [s], what follows it. *)
Fixpoint strip_prefix (p s : string) : option string :=
  match p, s with
  | EmptyString, _ => Some s
  | String a p', String b s' => if Ascii.eqb a b then strip_prefix p' s' else None
  | String _ _, EmptyString => None
  end.

(** The text before and after the first occurrence of [pat] in [s]. *)
Fixpoint cut (pat s : string) : option (string * string) :=
  match strip_prefix pat s with
  | Some after => Some (EmptyString, after)
  | None =>
      match s with
      | EmptyString => None
      | String c r =>
          match cut pat r with
          | Some (before, after) => Some (String c before, after)
          | None => None
          end
      end
  end.

(** [s.slice(s.search(re))] for a one-character class [p], when there is
    such a character: the suffix that starts at its first occurrence. *)
Fixpoint from_first (p : ascii -> bool) (s : string) : option string :=
  match s with
  | EmptyString => None
  | String c r => if p c then Some s else from_first p r
  end.

End Str.

(* ------------------------------------------------------------------ *)
(** ** Values of the runtime *)

(** A Number is a binary64 value: [spec_float] of the Standard Library,
    read at precision 53 and exponent bound 1024. No function of the engine
    computes with numbers; they are read from decimal literals, tested and
    written back as text. *)
Definition number : Type := spec_float.

Module Number.

Local Open Scope Z_scope.

Definition prec : Z := 53.
Definition emax : Z := 1024.

(** The Number nearest to [m * 10 ^ e] for [m >= 0], ties going to the even
    significand, with the sign [negative]: what reading a decimal literal
    gives (StringToNumber, RoundMVResult). A literal too large in magnitude
    gives an infinity, one too small a zero. For a negative exponent the
    quotient [m / 10 ^ (- e)] is taken with the bits the format keeps and
    the position of the remainder. The standard lets a literal of more
    than twenty significant digits be cut there before it is rounded; the
    engines round the literal as it stands, and so does this definition. *)
Definition ofDecimal (negative : bool) (m e : Z) : number :=
  if 0 <=? e
  then binary_normalize prec emax (cond_Zopp negative (m * 10 ^ e)) 0 negative
  else let '(q, e', l) := SFdiv_core_binary prec emax m 0 (10 ^ (- e)) 0 in
       binary_round_aux prec emax negative q e' l.

(** The value [m * 2 ^ e] of a finite Number as a fraction. *)
Definition exact (m : positive) (e : Z) : Z * Z :=
  if 0 <=? e then (Zpos m * 2 ^ e, 1) else (Zpos m, 2 ^ (- e)).

(** The fraction [v] times [10 ^ p]. *)
Definition scaled (v : Z * Z) (p : Z) : Z * Z :=
  let '(num, den) := v in
  if 0 <=? p then (num * 10 ^ p, den) else (num, den * 10 ^ (- p)).

(** The least [n], from [n] upwards, with [v < 10 ^ n]. *)
Fixpoint magnitude (fuel : nat) (v : Z * Z) (n : Z) : Z :=
  match fuel with
  | O => n
  | S fuel' =>
      let '(num, den) := scaled v (- n) in
      if num <? den then n else magnitude fuel' v (n + 1)
  end.

(** The integer [s] next to [v / 10 ^ (n - k)] for which [s * 10 ^ (n - k)]
    reads back as [x], when there is one: of the integers below and above,
    the nearer one, the even one when both are as near. *)
Definition candidate (x : number) (v : Z * Z) (n k : Z) : option Z :=
  let '(num, den) := scaled v (k - n) in
  let lo := num / den in
  let r := num mod den in
  let hi := lo + 1 in
  match SFeqb (ofDecimal false lo (n - k)) x, SFeqb (ofDecimal false hi (n - k)) x with
  | true, true =>
      Some (match 2 * r ?= den with
            | Lt => lo
            | Gt => hi
            | Eq => if Z.even lo then lo else hi
            end)
  | true, false => Some lo
  | false, true => Some hi
  | false, false => None
  end.

Fixpoint shortest (ks : list Z) (x : number) (v : Z * Z) (n : Z) : Z * Z :=
  match ks with
  | [] => (fst (scaled v (17 - n)) / snd (scaled v (17 - n)), n - 17)
  | k :: more =>
      match candidate x v n k with
      | Some s => (s, n - k)
      | None => shortest more x v n
      end
  end.

(** The digits of Number::toString for the positive Number [m * 2 ^ e]:
    the pair [(s, p)] with the fewest digits in [s] such that
    [s * 10 ^ p] reads back as that Number, and the nearest to it among
    those. Seventeen digits always do. The search for the magnitude starts
    from the count of bits times [log 2 / log 10], rounded down. *)
Definition digits (m : positive) (e : Z) : Z * Z :=
  let v := exact m e in
  let bits := Zpos (digits2_pos m) + e in
  shortest [1; 2; 3; 4; 5; 6; 7; 8; 9; 10; 11; 12; 13; 14; 15; 16; 17]
    (binary_normalize prec emax (Zpos m) e false) v
    (magnitude 4 v ((bits - 1) * 30103 / 100000)).

End Number.

(** The Number written [mantissa * 10 ^ exponent] in decimal. *)
Definition mkNumber (mantissa exponent : Z) : number :=
  Number.ofDecimal (mantissa <? 0)%Z (Z.abs mantissa) exponent.

#[warnings="-register-all"]
Inductive value : Type :=
| VUndefined
| VNull
| VBool (b : bool)
| VNum (n : number)
| VStr (s : string)
| VArr (items : list value)
| VObj (fields : list (string * value)).

(** The exceptions the engine can meet. A [SyntaxError] of [JSON.parse] is
    always caught where it arises and is the [None] of [JSON_parse]. *)
Inductive exn : Type := TypeError.

Inductive completion (A : Type) : Type :=
| Ok (a : A)
| Throw (e : exn).
Arguments Ok {A} a.
Arguments Throw {A} e.

Definition bind {A B : Type} (m : completion A) (k : A -> completion B) : completion B :=
  match m with
  | Ok a => k a
  | Throw e => Throw e
  end.

Declare Scope js_scope.
Delimit Scope js_scope with js.
Notation "'let*' x ':=' m 'in' k" := (bind m (fun x => k))
  (at level 10, x name, m at level 100, k at level 200) : js_scope.
Open Scope js_scope.

Module Js.

(** [typeof v === 'object' && v !== null]. *)
Definition isObject (v : value) : bool :=
  match v with VArr _ | VObj _ => true | _ => false end.

Definition isString (v : value) : bool :=
  match v with VStr _ => true | _ => false end.

Definition isNumber (v : value) : bool :=
  match v with VNum _ => true | _ => false end.

(** ToBoolean. *)
Definition truthy (v : value) : bool :=
  match v with
  | VUndefined | VNull => false
  | VBool b => b
  | VNum n => match n with S754_zero _ | S754_nan => false | _ => true end
  | VStr s => Str.nonEmpty s
  | VArr _ | VObj _ => true
  end.

Fixpoint lookup (k : string) (fs : list (string * value)) : option value :=
  match fs with
  | [] => None
  | (k', v) :: rest => if String.eqb k k' then Some v else lookup k rest
  end.

(** [v.k] and [v?.k] for the property names the engine uses. None of them
    is [length], an index or a name found on a prototype, so only an object
    literal can hold them; on [null] and [undefined] the program always
    uses the optional form, which gives [undefined]. *)
Definition get (v : value) (k : string) : value :=
  match v with
  | VObj fs => match lookup k fs with Some x => x | None => VUndefined end
  | _ => VUndefined
  end.

(** [k in v], asked by the program of objects and arrays only and for
    the same property names. *)
Definition has (k : string) (v : value) : bool :=
  match v with
  | VObj fs => match lookup k fs with Some _ => true | None => false end
  | _ => false
  end.

(** [a ?? b]. *)
Definition nullish_or (a b : value) : value :=
  match a with VUndefined | VNull => b | _ => a end.

(** [a || b]. *)
Definition or_else (a b : value) : value := if truthy a then a else b.

(** CreateDataProperty on an ordinary object: a key already present keeps
    its place and takes the new value. *)
Fixpoint set_field (k : string) (v : value) (fs : list (string * value))
  : list (string * value) :=
  match fs with
  | [] => [(k, v)]
  | (k', v') :: rest =>
      if String.eqb k k' then (k, v) :: rest else (k', v') :: set_field k v rest
  end.

End Js.

(* ------------------------------------------------------------------ *)
(** ** [JSON.parse]

    The grammar of ECMA-404, read by recursive descent. The descent is
    driven by a counter, which [JSON_parse] sets high enough for the text
    at hand (lemma [JSON_parse_fuel] below). *)

Module Json.

Inductive outcome (A : Type) : Type :=
| Parsed (a : A) (rest : string)
| SyntaxError
| OutOfFuel.
Arguments Parsed {A} a rest.
Arguments SyntaxError {A}.
Arguments OutOfFuel {A}.

Definition json_ws (c : ascii) : bool :=
  let n := Str.code c in
  (n =? 9)%nat || (n =? 10)%nat || (n =? 13)%nat || (n =? 32)%nat.

Fixpoint skip_ws (s : string) : string :=
  match s with
  | String c r => if json_ws c then skip_ws r else s
  | EmptyString => s
  end.

Definition digit_val (c : ascii) : option Z :=
  let n := Str.code c in
  if (48 <=? n)%nat && (n <=? 57)%nat then Some (Z.of_nat (n - 48)) else None.

Definition hex_val (c : ascii) : option N :=
  let n := Str.code c in
  if (48 <=? n)%nat && (n <=? 57)%nat then Some (N.of_nat (n - 48))
  else if (65 <=? n)%nat && (n <=? 70)%nat then Some (N.of_nat (n - 55))
  else if (97 <=? n)%nat && (n <=? 102)%nat then Some (N.of_nat (n - 87))
  else None.

Definition hex4 (a b c d : ascii) : option N :=
  match hex_val a, hex_val b, hex_val c, hex_val d with
  | Some x, Some y, Some z, Some w => Some (((x * 16 + y) * 16 + z) * 16 + w)%N
  | _, _, _, _ => None
  end.

(** What a string literal holds: bytes copied from the text, and UTF-16
    code units written as escapes. *)
Inductive item : Type :=
| Raw (c : ascii)
| Unit16 (n : N).

Definition simple_escape (e : ascii) : option N :=
  let n := Str.code e in
  if (n =? 34)%nat then Some 34%N          (* quotation mark *)
  else if (n =? 92)%nat then Some 92%N     (* reverse solidus *)
  else if (n =? 47)%nat then Some 47%N     (* solidus *)
  else if (n =? 98)%nat then Some 8%N      (* b *)
  else if (n =? 102)%nat then Some 12%N    (* f *)
  else if (n =? 110)%nat then Some 10%N    (* n *)
  else if (n =? 114)%nat then Some 13%N    (* r *)
  else if (n =? 116)%nat then Some 9%N     (* t *)
  else None.

(** The characters of a string literal after its opening quote, up to and
    including the closing one. *)
Fixpoint string_items (s : string) (acc : list item) : option (list item * string) :=
  match s with
  | EmptyString => None
  | String c r =>
      if Ascii.eqb c Str.dquote then Some (List.rev acc, r)
      else if Ascii.eqb c Str.backslash then
        match r with
        | EmptyString => None
        | String e r1 =>
            match simple_escape e with
            | Some n => string_items r1 (Unit16 n :: acc)
            | None =>
                if Ascii.eqb e "u"%char then
                  match r1 with
                  | String h1 (String h2 (String h3 (String h4 r2))) =>
                      match hex4 h1 h2 h3 h4 with
                      | Some n => string_items r2 (Unit16 n :: acc)
                      | None => None
                      end
                  | _ => None
                  end
                else None
            end
        end
      else if (Str.code c <? 32)%nat then None
      else string_items r (Raw c :: acc)
  end.

Definition byte (n : N) : ascii := ascii_of_N n.

(** UTF-8 of a code point; a surrogate that stands alone takes the
    three-byte form as well. *)
Definition utf8 (n : N) : string :=
  (if n <? 128 then String (byte n) EmptyString
   else if n <? 2048 then
     String (byte (192 + n / 64)) (String (byte (128 + n mod 64)) EmptyString)
   else if n <? 65536 then
     String (byte (224 + n / 4096))
       (String (byte (128 + (n / 64) mod 64))
          (String (byte (128 + n mod 64)) EmptyString))
   else
     String (byte (240 + n / 262144))
       (String (byte (128 + (n / 4096) mod 64))
          (String (byte (128 + (n / 64) mod 64))
             (String (byte (128 + n mod 64)) EmptyString))))%N.

Definition is_high (n : N) : bool := ((55296 <=? n) && (n <=? 56319))%N.
Definition is_low (n : N) : bool := ((56320 <=? n) && (n <=? 57343))%N.

Fixpoint encode (items : list item) : string :=
  match items with
  | [] => EmptyString
  | Raw c :: r => String c (encode r)
  | Unit16 hi :: r =>
      match r with
      | Unit16 lo :: r' =>
          if is_high hi && is_low lo
          then utf8 (65536 + (hi - 55296) * 1024 + (lo - 56320))%N ++ encode r'
          else utf8 hi ++ encode r
      | _ => utf8 hi ++ encode r
      end
  end.

Definition string_lit (s : string) : option (string * string) :=
  match string_items s [] with
  | Some (items, rest) => Some (encode items, rest)
  | None => None
  end.

(** A run of digits, folded into [acc]; [cnt] counts them. *)
Fixpoint digits (s : string) (acc cnt : Z) : Z * Z * string :=
  match s with
  | EmptyString => (acc, cnt, s)
  | String c r =>
      match digit_val c with
      | Some d => digits r (acc * 10 + d)%Z (cnt + 1)%Z
      | None => (acc, cnt, s)
      end
  end.

Definition fraction (s : string) (int_part : Z) : option (Z * Z * string) :=
  match Str.strip_prefix "." s with
  | None => Some (int_part, 0%Z, s)
  | Some r =>
      let '(m, cnt, r') := digits r int_part 0%Z in
      if (cnt =? 0)%Z then None else Some (m, cnt, r')
  end.

Definition exponent_part (s : string) : option (Z * string) :=
  match s with
  | String c r =>
      if Ascii.eqb c "e"%char || Ascii.eqb c "E"%char then
        let '(neg, r1) :=
          match r with
          | String sg r' =>
              if Ascii.eqb sg "-"%char then (true, r')
              else if Ascii.eqb sg "+"%char then (false, r')
              else (false, r)
          | EmptyString => (false, r)
          end in
        let '(e, cnt, r2) := digits r1 0%Z 0%Z in
        if (cnt =? 0)%Z then None else Some (if neg then (- e)%Z else e, r2)
      else Some (0%Z, s)
  | EmptyString => Some (0%Z, s)
  end.

Definition parse_number (s : string) : option (number * string) :=
  let '(neg, s1) :=
    match Str.strip_prefix "-" s with
    | Some r => (true, r)
    | None => (false, s)
    end in
  match s1 with
  | EmptyString => None
  | String c r =>
      match digit_val c with
      | None => None
      | Some d =>
          let '(int_part, _, s2) :=
            if (d =? 0)%Z then (0%Z, 1%Z, r) else digits r d 1%Z in
          match fraction s2 int_part with
          | None => None
          | Some (m, frac_len, s3) =>
              match exponent_part s3 with
              | None => None
              | Some (e, s4) =>
                  Some (Number.ofDecimal neg m (e - frac_len)%Z, s4)
              end
          end
      end
  end.

Definition literal (word : string) (v : value) (s : string) : outcome value :=
  match Str.strip_prefix word s with
  | Some r => Parsed v r
  | None => SyntaxError
  end.

Fixpoint parse_value (fuel : nat) (s : string) : outcome value :=
  match fuel with
  | O => OutOfFuel
  | S fuel' =>
      match skip_ws s with
      | EmptyString => SyntaxError
      | String c r =>
          if Ascii.eqb c Str.dquote then
            match string_lit r with
            | Some (str, r') => Parsed (VStr str) r'
            | None => SyntaxError
            end
          else if Ascii.eqb c "["%char then
            match Str.strip_prefix "]" (skip_ws r) with
            | Some r' => Parsed (VArr []) r'
            | None => parse_elements fuel' r []
            end
          else if Ascii.eqb c "{"%char then
            match Str.strip_prefix "}" (skip_ws r) with
            | Some r' => Parsed (VObj []) r'
            | None => parse_members fuel' r []
            end
          else if Ascii.eqb c "n"%char then literal "ull" VNull r
          else if Ascii.eqb c "t"%char then literal "rue" (VBool true) r
          else if Ascii.eqb c "f"%char then literal "alse" (VBool false) r
          else
            match parse_number (String c r) with
            | Some (n, r') => Parsed (VNum n) r'
            | None => SyntaxError
            end
      end
  end

with parse_elements (fuel : nat) (s : string) (acc : list value) : outcome value :=
  match fuel with
  | O => OutOfFuel
  | S fuel' =>
      match parse_value fuel' s with
      | Parsed v r =>
          match Str.strip_prefix "," (skip_ws r) with
          | Some r' => parse_elements fuel' r' (v :: acc)
          | None =>
              match Str.strip_prefix "]" (skip_ws r) with
              | Some r' => Parsed (VArr (List.rev (v :: acc))) r'
              | None => SyntaxError
              end
          end
      | SyntaxError => SyntaxError
      | OutOfFuel => OutOfFuel
      end
  end

with parse_members (fuel : nat) (s : string) (acc : list (string * value))
  : outcome value :=
  match fuel with
  | O => OutOfFuel
  | S fuel' =>
      match Str.strip_prefix (String Str.dquote EmptyString) (skip_ws s) with
      | None => SyntaxError
      | Some r =>
          match string_lit r with
          | None => SyntaxError
          | Some (k, r1) =>
              match Str.strip_prefix ":" (skip_ws r1) with
              | None => SyntaxError
              | Some r2 =>
                  match parse_value fuel' r2 with
                  | Parsed v r3 =>
                      match Str.strip_prefix "," (skip_ws r3) with
                      | Some r4 => parse_members fuel' r4 (Js.set_field k v acc)
                      | None =>
                          match Str.strip_prefix "}" (skip_ws r3) with
                          | Some r4 => Parsed (VObj (Js.set_field k v acc)) r4
                          | None => SyntaxError
                          end
                      end
                  | SyntaxError => SyntaxError
                  | OutOfFuel => OutOfFuel
                  end
              end
          end
      end
  end.

Definition fuel_for (s : string) : nat := 2 * String.length s + 1.

(** A value followed by white space only. *)
Definition parse_text (s : string) : outcome value :=
  match parse_value (fuel_for s) s with
  | Parsed v r =>
      match skip_ws r with
      | EmptyString => Parsed v EmptyString
      | String _ _ => SyntaxError
      end
  | other => other
  end.

End Json.

(** [JSON.parse(text)] in a [try]: [None] stands for the [SyntaxError]. *)
Definition JSON_parse (text : string) : option value :=
  match Json.parse_text text with
  | Json.Parsed v _ => Some v
  | _ => None
  end.

(* ------------------------------------------------------------------ *)
(** ** Conversion to string and [Array.prototype.join] *)

Module Conv.

Fixpoint zeros (n : nat) : string :=
  match n with
  | O => EmptyString
  | S n' => String "0"%char (zeros n')
  end.

Fixpoint drop_zeros (s : string) : string :=
  match s with
  | String c r => if Ascii.eqb c "0"%char then drop_zeros r else s
  | EmptyString => s
  end.

Definition decimal (z : Z) : string := NilZero.string_of_uint (N.to_uint (Z.to_N z)).

Definition head_tail (s : string) : string * string :=
  match s with
  | String c r => (String c EmptyString, r)
  | EmptyString => (EmptyString, EmptyString)
  end.

(** The text of the positive decimal [s * 10 ^ p] as Number::toString
    lays it out: [k] digits [ds] with no zero at the end, and [n] the
    position of the decimal point. *)
Definition decimal_text (s p : Z) : string :=
  let all := decimal s in
  let ds := Str.rev (drop_zeros (Str.rev all)) in
  let k := Z.of_nat (String.length ds) in
  let n := (Z.of_nat (String.length all) + p)%Z in
  (if ((k <=? n) && (n <=? 21))%Z then ds ++ zeros (Z.to_nat (n - k))
   else if ((0 <? n) && (n <=? 21))%Z then
     substring 0 (Z.to_nat n) ds ++ "." ++ substring (Z.to_nat n) (Z.to_nat (k - n)) ds
   else if ((-6 <? n) && (n <=? 0))%Z then "0." ++ zeros (Z.to_nat (- n)) ++ ds
   else
     let e := (n - 1)%Z in
     let es := (if (e <? 0)%Z then "-" else "+") ++ decimal (Z.abs e) in
     let '(d, more) := head_tail ds in
     match more with
     | EmptyString => d ++ "e" ++ es
     | _ => d ++ "." ++ more ++ "e" ++ es
     end).

(** Number::toString in radix 10. *)
Definition Number_toString (x : number) : string :=
  match x with
  | S754_nan => "NaN"
  | S754_zero _ => "0"
  | S754_infinity negative => if negative then "-Infinity" else "Infinity"
  | S754_finite negative m e =>
      let '(s, p) := Number.digits m e in
      (if negative then "-" else "") ++ decimal_text s p
  end.

(** ToString. An array is joined with a comma; an object literal gives the
    text of [Object.prototype.toString] unless it has a [toString] entry of
    its own, which data cannot make callable: then no primitive can be
    obtained and a [TypeError] is thrown. *)
Fixpoint toString (v : value) : completion string :=
  match v with
  | VUndefined => Ok "undefined"
  | VNull => Ok "null"
  | VBool b => Ok (if b then "true" else "false")
  | VNum n => Ok (Number_toString n)
  | VStr s => Ok s
  | VArr items =>
      let* parts :=
        (fix each (xs : list value) : completion (list string) :=
           match xs with
           | [] => Ok []
           | x :: rest =>
               let* sx := match x with
                          | VUndefined | VNull => Ok EmptyString
                          | _ => toString x
                          end in
               let* srest := each rest in
               Ok (sx :: srest)
           end) items in
      Ok (Str.join "," parts)
  | VObj fs =>
      match Js.lookup "toString" fs with
      | Some _ => Throw TypeError
      | None => Ok "[object Object]"
      end
  end.

Fixpoint map_result {A B : Type} (f : A -> completion B) (xs : list A) : completion (list B) :=
  match xs with
  | [] => Ok []
  | x :: rest =>
      let* y := f x in
      let* ys := map_result f rest in
      Ok (y :: ys)
  end.

(** [items.join(sep)]: [undefined] and [null] count as the empty string. *)
Definition Array_join (sep : string) (items : list value) : completion string :=
  let* parts :=
    map_result (fun x => match x with
                         | VUndefined | VNull => Ok EmptyString
                         | _ => toString x
                         end) items in
  Ok (Str.join sep parts).

End Conv.

(* ------------------------------------------------------------------ *)
(** ** Helpers of the page *)

Import Js.

(** [isNotFound] (lines 87-90), applied by the page to fields read from
    brand records. A truthy value that is not a string has no [trim] method. *)
Definition isNotFound (val : value) : completion bool :=
  if negb (truthy val) then Ok true
  else match val with
       | VStr s =>
           Ok (String.eqb (Str.toLowerCase (Str.trim s)) "not found"
               || String.eqb (Str.trim s) "")
       | _ => Throw TypeError
       end.

(** The class of the expression [parseBrandText] splits on: line feed and
    comma. *)
Definition is_separator (c : ascii) : bool :=
  Ascii.eqb c Str.LF || Ascii.eqb c ","%char.

(** The negation of the predicate of the second [filter]. *)
Definition is_header (line : string) : bool :=
  let lower := Str.remove_chars Str.is_quote (Str.toLowerCase line) in
  negb (negb (String.eqb lower "brand")
        && negb (String.eqb lower "name")
        && negb (String.eqb lower "brand_name")
        && negb (String.eqb lower "brand name")
        && negb (String.eqb lower "company")
        && negb (String.eqb lower "company name")).

(** [parseBrandText] (lines 92-110). *)
Definition parseBrandText (text : string) : list string :=
  let lines := filter Str.nonEmpty (map Str.trim (Str.split is_separator text)) in
  let filtered := filter (fun line => negb (is_header line)) lines in
  filter Str.nonEmpty (map (fun l => Str.trim (Str.strip_quote_ends l)) filtered).

(* ------------------------------------------------------------------ *)
(** ** Deep extraction helpers *)

Definition drop_last_LF (s : string) : string :=
  match Str.rev s with
  | String c r => if Ascii.eqb c Str.LF then Str.rev r else s
  | EmptyString => s
  end.

(** Group 1 of the first match of the fence expression of [tryParseString]:
    three backquotes, the word json when it is there, white space, then the
    shortest text up to the next three backquotes, a line feed right before
    them left out. *)
Definition codeBlockMatch (trimmed : string) : option string :=
  match Str.cut "```" trimmed with
  | None => None
  | Some (_, after) =>
      let after_tag :=
        match Str.strip_prefix "json" after with
        | Some r => r
        | None => after
        end in
      match Str.cut "```" (Str.trimStart after_tag) with
      | None => None
      | Some (inner, _) => Some (drop_last_LF inner)
      end
  end.

Definition is_open (c : ascii) : bool :=
  Ascii.eqb c "{"%char || Ascii.eqb c "["%char.

(** [tryParseString] (lines 115-131): try to parse a string as JSON,
    including markdown code block extraction. [VNull] is both the failure and
    what the text null parses to. *)
Definition tryParseString (s : string) : value :=
  if negb (Str.nonEmpty s) then VNull else
  let trimmed := Str.trim s in
  match JSON_parse trimmed with
  | Some v => v
  | None =>
      match
        match codeBlockMatch trimmed with
        | Some inner => if Str.nonEmpty inner then JSON_parse (Str.trim inner) else None
        | None => None
        end
      with
      | Some v => v
      | None =>
          match Str.from_first is_open trimmed with
          | Some tail =>
              match JSON_parse tail with
              | Some v => v
              | None => VNull
              end
          | None => VNull
          end
      end
  end.

Definition isNull (v : value) : bool :=
  match v with VNull => true | _ => false end.

(** [resolveValue] (lines 134-141): recursively resolve a value: if it is a
    string, try to parse it as JSON. The recursion is on [6 - depth]. *)
Equations? resolveValue (val : value) (depth : nat) : value by wf (6 - depth) lt :=
  resolveValue val depth with lt_dec 5 depth => {
    | left _ => val
    | right within with val => {
        | VStr s with isNull (tryParseString s) => {
            | true => val
            | false => resolveValue (tryParseString s) (depth + 1) }
        | _ => val } }.
Proof. clear resolveValue. change (6 - (depth + 1) < 6 - depth). lia. Qed.

Definition empty : value := VStr EmptyString.

(** The [status] of a mapped record: [confidence?.toLowerCase()] compared
    with the word verified. The optional call stops at [null] and
    [undefined] only; any other value without that method cannot be called. *)
Definition status_of (confidence : value) : completion value :=
  match confidence with
  | VUndefined | VNull => Ok (VStr "Partial")
  | VStr c =>
      Ok (VStr (if String.eqb (Str.toLowerCase c) "verified" then "Complete" else "Partial"))
  | _ => Throw TypeError
  end.

(** [mapChatGPTResult] (lines 144-176): map a ChatGPT-schema result object
    to our Brand interface. *)
Definition mapChatGPTResult (r : value) : completion value :=
  let wd := get r "website_details" in
  let sm := get wd "social_media" in
  let* product_category :=
    match get wd "product_categories" with
    | VArr items => let* joined := Conv.Array_join ", " items in Ok (VStr joined)
    | other => Ok (nullish_or other empty)
    end in
  let* status := status_of (get r "confidence") in
  Ok (VObj
        [ ("brand_name", nullish_or (get r "brand_name") empty);
          ("website_url",
            nullish_or (get r "selected_official_website")
              (nullish_or (get r "official_website_turkey") empty));
          ("website_scope", nullish_or (get r "website_scope") empty);
          ("confidence", nullish_or (get r "confidence") empty);
          ("verification_notes", nullish_or (get r "verification_notes") empty);
          ("logo_url", nullish_or (get wd "logo_url") empty);
          ("founded_year", nullish_or (get wd "founded_year") empty);
          ("about_summary", empty);
          ("about_page_link", nullish_or (get wd "about_page_link") empty);
          ("product_category", product_category);
          ("social_media",
            VObj [ ("twitter", nullish_or (get sm "twitter") empty);
                   ("linkedin", nullish_or (get sm "linkedin") empty);
                   ("instagram", nullish_or (get sm "instagram") empty);
                   ("facebook", nullish_or (get sm "facebook") empty);
                   ("youtube", nullish_or (get sm "youtube") empty);
                   ("tiktok", nullish_or (get sm "tiktok") empty);
                   ("pinterest", nullish_or (get sm "pinterest") empty) ]);
          ("contact_info",
            VObj [ ("email", nullish_or (get wd "contact_email") empty);
                   ("phone", nullish_or (get wd "contact_phone") empty);
                   ("hq_address", empty) ]);
          ("status", status) ]).

(** [xs.length > 0 && typeof xs[0] === 'object' && xs[0] !== null &&
    'brand_name' in xs[0]]. *)
Definition startsWithBrand (items : list value) : bool :=
  match items with
  | first :: _ => isObject first && has "brand_name" first
  | [] => false
  end.

(** One round of the loop over the standard keys: [Some] is a [return]. *)
Definition checkStandardKey (record : value) (key : string)
  : completion (option (list value)) :=
  match resolveValue (get record key) 0 with
  | VArr (first :: rest) =>
      if isObject first then
        if has "brand_name" first then Ok (Some (first :: rest))
        else if has "website_details" first || has "selected_official_website" first
        then let* mapped := Conv.map_result mapChatGPTResult (first :: rest) in
             Ok (Some mapped)
        else Ok None
      else Ok None
  | _ => Ok None
  end.

Fixpoint checkStandardKeys (record : value) (keys : list string)
  : completion (option (list value)) :=
  match keys with
  | [] => Ok None
  | key :: more =>
      let* hit := checkStandardKey record key in
      match hit with
      | Some brands => Ok (Some brands)
      | None => checkStandardKeys record more
      end
  end.

(** [findBrandsInObject] (lines 182-244): search an object for a brands
    array: known keys first, then a shallow recursive search through the
    values of text, result, response, data. The recursion is on [5 - depth]. *)
Equations? findBrandsInObject (obj : value) (depth : nat)
  : completion (option (list value)) by wf (5 - depth) lt :=
  findBrandsInObject obj depth with lt_dec 4 depth => {
    | left _ => Ok None
    | right within with obj => {
        | VArr items => Ok (if startsWithBrand items then Some items else None)
        | VObj fields =>
            let record := VObj fields in
            let* standard := checkStandardKeys record ["brands"; "results"] in
            match standard with
            | Some brands => Ok (Some brands)
            | None =>
                let* fromText :=
                  match get record "text" with
                  | VStr text =>
                      if truthy (tryParseString text)
                      then findBrandsInObject (tryParseString text) (depth + 1)
                      else Ok None
                  | _ => Ok None
                  end in
                match fromText with
                | Some found => Ok (Some found)
                | None =>
                    let* fromResult :=
                      if has "result" record
                      then findBrandsInObject (resolveValue (get record "result") 0) (depth + 1)
                      else Ok None in
                    match fromResult with
                    | Some found => Ok (Some found)
                    | None =>
                        let* fromResponse :=
                          if has "response" record
                          then findBrandsInObject
                                 (resolveValue (get record "response") 0) (depth + 1)
                          else Ok None in
                        match fromResponse with
                        | Some found => Ok (Some found)
                        | None =>
                            if has "data" record
                            then findBrandsInObject
                                   (resolveValue (get record "data") 0) (depth + 1)
                            else Ok None
                        end
                    end
                end
            end
        | _ => Ok None } }.
Proof.
  all: clear findBrandsInObject; change (5 - (depth + 1) < 5 - depth); lia.
Qed.

Definition nonEmptyList (found : option (list value)) : bool :=
  match found with
  | Some (_ :: _) => true
  | _ => false
  end.

Definition brandsOf (found : option (list value)) : list value :=
  match found with
  | Some brands => brands
  | None => []
  end.

(** The body of the [try] block of [parseAgentResponse] (lines 248-276). *)
Definition parseAgentResponse_try (result : value) : completion (list value) :=
  (* Strategy 1: response.result *)
  let resultData := resolveValue (get (get result "response") "result") 0 in
  let* fromResult := findBrandsInObject resultData 0 in
  if nonEmptyList fromResult then Ok (brandsOf fromResult) else
  (* Strategy 2: the full response object *)
  let* fromResponse := findBrandsInObject (get result "response") 0 in
  if nonEmptyList fromResponse then Ok (brandsOf fromResponse) else
  (* Strategy 3: the entire API response *)
  let* fromTopLevel := findBrandsInObject result 0 in
  if nonEmptyList fromTopLevel then Ok (brandsOf fromTopLevel) else
  (* Strategy 4: the raw_response string *)
  let* fromRaw :=
    if truthy (get result "raw_response")
    then findBrandsInObject (resolveValue (get result "raw_response") 0) 0
    else Ok None in
  if nonEmptyList fromRaw then Ok (brandsOf fromRaw) else
  (* Strategy 5: response.result itself is the brands array *)
  match resultData with
  | VArr items => if startsWithBrand items then Ok items else Ok []
  | _ => Ok []
  end.

(** [parseAgentResponse] (lines 246-280): whatever is thrown inside is
    caught and answered with the empty list. *)
Definition parseAgentResponse (result : value) : list value :=
  match parseAgentResponse_try result with
  | Ok brands => brands
  | Throw _ => []
  end.

(* ------------------------------------------------------------------ *)
(** ** Aggregate counts *)

Record ResponseMeta : Type := mkMeta { total : value; complete : value; partial : value }.

Definition zero : value := VNum (mkNumber 0 0).

Definition noMeta : ResponseMeta := mkMeta zero zero zero.

(** [typeof v === 'object'], [v] truthy and not an array. *)
Definition isRecord (v : value) : bool :=
  match v with VObj _ => true | _ => false end.

(** The record returned for [p] once [typeof p.total_brands === 'number']. *)
Definition metaFrom (p : value) : option ResponseMeta :=
  if isNumber (get p "total_brands")
  then Some (mkMeta (get p "total_brands")
                    (nullish_or (get p "complete_count") zero)
                    (nullish_or (get p "partial_count") zero))
  else None.

Definition orElse {A : Type} (a b : option A) : option A :=
  match a with Some _ => a | None => b end.

(** The body of the loop over the candidates: [Some] is a [return], [None]
    goes on with the next candidate. *)
Definition probeCandidate (candidate : value) : option ResponseMeta :=
  if negb (isRecord candidate) then None else
  let obj := candidate in
  orElse
    match get obj "text" with
    | VStr text =>
        let parsed := tryParseString text in
        if isRecord parsed then metaFrom parsed else None
    | _ => None
    end
    (orElse
       (metaFrom obj)
       (if has "result" obj
        then let inner := resolveValue (get obj "result") 0 in
             if isRecord inner then metaFrom inner else None
        else None)).

Fixpoint firstMeta (candidates : list value) : ResponseMeta :=
  match candidates with
  | [] => noMeta
  | candidate :: more =>
      match probeCandidate candidate with
      | Some meta => meta
      | None => firstMeta more
      end
  end.

Definition metaCandidates (result : value) : list value :=
  [ resolveValue (get (get result "response") "result") 0;
    get result "response";
    result ]
  ++ (if truthy (get result "raw_response")
      then [resolveValue (get result "raw_response") 0]
      else [])%list.

(** [parseResponseMeta] (lines 282-341). No step of its [try] block can
    throw, so the [catch] is never entered. *)
Definition parseResponseMeta (result : value) : ResponseMeta :=
  firstMeta (metaCandidates result).

(* ------------------------------------------------------------------ *)
(** ** CSV export *)

Definition headers : list string :=
  [ "Brand Name"; "Category"; "Website"; "Website Scope"; "Confidence";
    "Verification Notes"; "Logo URL"; "Founded Year"; "About Summary";
    "About Page"; "Twitter"; "LinkedIn"; "Instagram"; "Facebook"; "YouTube";
    "TikTok"; "Pinterest"; "Email"; "Phone"; "HQ Address"; "Status" ].

Definition csvFields (b : value) : list value :=
  [ get b "brand_name"; get b "product_category"; get b "website_url";
    get b "website_scope"; get b "confidence"; get b "verification_notes";
    get b "logo_url"; get b "founded_year"; get b "about_summary";
    get b "about_page_link";
    get (get b "social_media") "twitter"; get (get b "social_media") "linkedin";
    get (get b "social_media") "instagram"; get (get b "social_media") "facebook";
    get (get b "social_media") "youtube"; get (get b "social_media") "tiktok";
    get (get b "social_media") "pinterest";
    get (get b "contact_info") "email"; get (get b "contact_info") "phone";
    get (get b "contact_info") "hq_address";
    get b "status" ].

Definition quoted (s : string) : string :=
  String Str.dquote (Str.double_dquotes s ++ String Str.dquote EmptyString).

(** One cell: [(v || '')] with its double quotes doubled, between double
    quotes. Only a string has the [replace] method the page calls. *)
Definition csvCell (v : value) : completion string :=
  match or_else v empty with
  | VStr s => Ok (quoted s)
  | _ => Throw TypeError
  end.

Definition csvRow (b : value) : completion string :=
  let* cells := Conv.map_result csvCell (csvFields b) in
  Ok (Str.join "," cells).

(** [exportCSV] (lines 343-401): the text it hands to the browser as the
    file brand_intelligence.csv; the download itself is not modelled. *)
Definition exportCSV (brands : list value) : completion string :=
  let* rows := Conv.map_result csvRow brands in
  Ok (Str.join (String Str.LF EmptyString) (Str.join "," headers :: rows)).

(* ------------------------------------------------------------------ *)
(** ** Notions the specification speaks in *)

(** One layer of encoding taken off: the parse [resolveValue] recurses on,
    when there is one. *)
Definition unwrap (v : value) : option value :=
  match v with
  | VStr s => if isNull (tryParseString s) then None else Some (tryParseString s)
  | _ => None
  end.

(** At most [n] layers taken off, stopping early at a value with none. *)
Fixpoint peel (n : nat) (v : value) : value :=
  match n with
  | O => v
  | S n' =>
      match unwrap v with
      | Some inner => peel n' inner
      | None => v
      end
  end.

(** [v] carries at most [n] layers of encoding. *)
Fixpoint layersWithin (n : nat) (v : value) : bool :=
  match unwrap v with
  | None => true
  | Some inner =>
      match n with
      | O => false
      | S n' => layersWithin n' inner
      end
  end.

Module Json_text.

Definition hex_digit (n : nat) : ascii :=
  if (n <? 10)%nat then ascii_of_nat (48 + n) else ascii_of_nat (87 + n).

Definition escape_char (c : ascii) : string :=
  let n := Str.code c in
  if Ascii.eqb c Str.dquote then String Str.backslash (String Str.dquote EmptyString)
  else if Ascii.eqb c Str.backslash then String Str.backslash (String Str.backslash EmptyString)
  else if (n =? 8)%nat then String Str.backslash "b"
  else if (n =? 9)%nat then String Str.backslash "t"
  else if (n =? 10)%nat then String Str.backslash "n"
  else if (n =? 12)%nat then String Str.backslash "f"
  else if (n =? 13)%nat then String Str.backslash "r"
  else if (n <? 32)%nat then
    String Str.backslash
      (String "u"%char (String "0"%char (String "0"%char
         (String (hex_digit (n / 16)) (String (hex_digit (n mod 16)) EmptyString)))))
  else String c EmptyString.

Fixpoint escape (s : string) : string :=
  match s with
  | EmptyString => EmptyString
  | String c r => escape_char c ++ escape r
  end.

(** The string literal [JSON.stringify] writes for [s]. *)
Definition quote (s : string) : string :=
  String Str.dquote (escape s ++ String Str.dquote EmptyString).

(** [s] encoded [n] times over. *)
Definition nested (n : nat) (s : string) : string := Nat.iter n quote s.

End Json_text.

(** The brand-list shape in the words of the specification: a list that is
    not empty and whose first element is an object with a key brand_name. *)
Definition firstIsBrand (items : list value) : Prop :=
  exists fields rest,
    items = VObj fields :: rest /\ In "brand_name" (map fst fields).

(** The five strategies of the orchestrator, each run on its own. *)
Definition strategy1 (result : value) : completion (option (list value)) :=
  findBrandsInObject (resolveValue (get (get result "response") "result") 0) 0.

Definition strategy2 (result : value) : completion (option (list value)) :=
  findBrandsInObject (get result "response") 0.

Definition strategy3 (result : value) : completion (option (list value)) :=
  findBrandsInObject result 0.

Definition strategy4 (result : value) : completion (option (list value)) :=
  if truthy (get result "raw_response")
  then findBrandsInObject (resolveValue (get result "raw_response") 0) 0
  else Ok None.

Definition strategy5 (result : value) : completion (option (list value)) :=
  match resolveValue (get (get result "response") "result") 0 with
  | VArr items => Ok (if startsWithBrand items then Some items else None)
  | _ => Ok None
  end.

Definition strategies (result : value)
  : list (completion (option (list value))) :=
  [ strategy1 result; strategy2 result; strategy3 result;
    strategy4 result; strategy5 result ].

(** The orchestrator in the words of the specification: the first list that
    is not empty, a strategy that fails in any way being passed over. *)
Fixpoint firstNonEmpty (outcomes : list (completion (option (list value))))
  : list value :=
  match outcomes with
  | [] => []
  | Ok (Some (b :: bs)) :: _ => b :: bs
  | _ :: more => firstNonEmpty more
  end.

(** The same search, given up with the empty list at the first strategy
    that raises: what the [try] block around the strategies makes of it. *)
Fixpoint firstNonEmptyOrRaise (outcomes : list (completion (option (list value))))
  : list value :=
  match outcomes with
  | [] => []
  | Ok (Some (b :: bs)) :: _ => b :: bs
  | Ok _ :: more => firstNonEmptyOrRaise more
  | Throw _ :: _ => []
  end.

Definition completes {A : Type} (r : completion A) : Prop :=
  exists a, r = Ok a.

(** [parseAgentResponse] with its fifth strategy taken out. *)
Definition parseAgentResponse_no5_try (result : value) : completion (list value) :=
  let resultData := resolveValue (get (get result "response") "result") 0 in
  let* fromResult := findBrandsInObject resultData 0 in
  if nonEmptyList fromResult then Ok (brandsOf fromResult) else
  let* fromResponse := findBrandsInObject (get result "response") 0 in
  if nonEmptyList fromResponse then Ok (brandsOf fromResponse) else
  let* fromTopLevel := findBrandsInObject result 0 in
  if nonEmptyList fromTopLevel then Ok (brandsOf fromTopLevel) else
  let* fromRaw :=
    if truthy (get result "raw_response")
    then findBrandsInObject (resolveValue (get result "raw_response") 0) 0
    else Ok None in
  if nonEmptyList fromRaw then Ok (brandsOf fromRaw) else
  Ok [].

Definition parseAgentResponse_no5 (result : value) : list value :=
  match parseAgentResponse_no5_try result with
  | Ok brands => brands
  | Throw _ => []
  end.

(** A record of type Brand as the export meets it: each of the exported
    fields is a string or is missing. *)
Definition stringOrMissing (v : value) : Prop :=
  match v with
  | VStr _ | VUndefined | VNull => True
  | _ => False
  end.

Definition isBrandRecord (b : value) : Prop :=
  Forall stringOrMissing (csvFields b).

(** The text of a field, a missing one counting as empty. *)
Definition textOf (v : value) : string :=
  match v with
  | VStr s => s
  | _ => EmptyString
  end.

(** The export in the words of the specification: a field the page takes
    for absent ([isNotFound]) is written as the empty string. *)
Definition specCell (v : value) : string :=
  match isNotFound v with
  | Ok true => quoted EmptyString
  | _ => quoted (textOf v)
  end.

Definition specCSV (brands : list value) : string :=
  Str.join (String Str.LF EmptyString)
    (Str.join "," headers
       :: map (fun b => Str.join "," (map specCell (csvFields b))) brands).

(** Reading a quoted CSV field back (RFC 4180): the text between the outer
    double quotes, each doubled quote standing for one. *)
Fixpoint unquote_body (s : string) : option string :=
  match s with
  | EmptyString => None
  | String c r =>
      if Ascii.eqb c Str.dquote then
        match r with
        | EmptyString => Some EmptyString
        | String c' r' =>
            if Ascii.eqb c' Str.dquote
            then option_map (String Str.dquote) (unquote_body r')
            else None
        end
      else option_map (String c) (unquote_body r)
  end.

Definition unquote (cell : string) : option string :=
  match cell with
  | String c r => if Ascii.eqb c Str.dquote then unquote_body r else None
  | EmptyString => None
  end.

(** A strategy that completed without a list, or with the empty one. *)
Definition emptyHanded (o : completion (option (list value))) : Prop :=
  o = Ok None \/ o = Ok (Some []).

(** What one piece of the brand-name input contributes: nothing when it is
    blank or a header, else its text without the outer quotes, unless
    nothing is left of it. *)
Definition entryOf (piece : string) : list string :=
  let line := Str.trim piece in
  if negb (Str.nonEmpty line) then []
  else if is_header line then []
  else
    let name := Str.trim (Str.strip_quote_ends line) in
    if Str.nonEmpty name then [name] else [].

Definition headerTokens : list string :=
  [ "brand"; "name"; "brand_name"; "brand name"; "company"; "company name" ].

(** A quote character: the double quote (U+0022) or the apostrophe
    (U+0027). *)
Definition isQuoteMark (c : ascii) : bool :=
  (nat_of_ascii c =? 34)%nat || (nat_of_ascii c =? 39)%nat.

(** A character the brand-name input is cut at: the line feed (U+000A) or
    the comma (U+002C). *)
Definition isBreak (c : ascii) : bool :=
  (nat_of_ascii c =? 10)%nat || (nat_of_ascii c =? 44)%nat.

(** A text with no line feed and no comma in it. *)
Definition oneLine (s : string) : bool :=
  forallb (fun c => negb (isBreak c)) (list_ascii_of_string s).

(** The text without any of its quote characters, wherever they stand. *)
Definition withoutQuoteMarks (s : string) : string :=
  string_of_list_ascii
    (filter (fun c => negb (isQuoteMark c)) (list_ascii_of_string s)).

(** The text without its first character when that is a quote character. *)
Definition dropLeadingQuote (s : string) : string :=
  match s with
  | String c r => if isQuoteMark c then r else s
  | EmptyString => s
  end.

(** The text without its last character when that is a quote character. *)
Fixpoint dropTrailingQuote (s : string) : string :=
  match s with
  | EmptyString => EmptyString
  | String c r =>
      match r with
      | EmptyString => if isQuoteMark c then EmptyString else s
      | String _ _ => String c (dropTrailingQuote r)
      end
  end.

(** The name a trimmed line of the brand-name input gives, if any: none
    when the line is empty; none when the line, without any quote character
    and in lower case, is a header token; else the line without one quote
    character at its start and one at its end, trimmed, unless that is
    empty. *)
Definition nameOf (line : string) : option string :=
  if String.eqb line "" then None
  else if existsb (String.eqb (Str.toLowerCase (withoutQuoteMarks line))) headerTokens
  then None
  else
    let name := Str.trim (dropTrailingQuote (dropLeadingQuote line)) in
    if String.eqb name "" then None else Some name.

Definition namesOf (line : string) : list string :=
  match nameOf line with
  | Some name => [name]
  | None => []
  end.

Fixpoint noSeparator (s : string) : bool :=
  match s with
  | EmptyString => true
  | String c r => negb (is_separator c) && noSeparator r
  end.

(** A confidence that reads verified, whatever the case of its letters. *)
Definition isVerified (confidence : value) : bool :=
  match confidence with
  | VStr c => String.eqb (Str.toLowerCase c) "verified"
  | _ => false
  end.

(** Present, and not a string. *)
Definition otherThanString (v : value) : bool :=
  match v with
  | VBool _ | VNum _ | VArr _ | VObj _ => true
  | _ => false
  end.

(** The descent did not stop for want of fuel, and what it parsed was taken
    off the front of the text. *)
Definition progresses (o : Json.outcome value) (s : string) : Prop :=
  o <> Json.OutOfFuel
  /\ forall v r, o = Json.Parsed v r -> String.length r < String.length s.

(** A run of [resolveValue val depth], read off its source: the value it
    ends with and the number of recursive calls it makes on the way. *)
Inductive Resolves : value -> nat -> value -> nat -> Prop :=
| Resolves_guard (val : value) (depth : nat) :
    depth > 5 -> Resolves val depth val 0
| Resolves_other (val : value) (depth : nat) :
    depth <= 5 -> isString val = false -> Resolves val depth val 0
| Resolves_unparsed (s : string) (depth : nat) :
    depth <= 5 -> tryParseString s = VNull -> Resolves (VStr s) depth (VStr s) 0
| Resolves_parsed (s : string) (depth : nat) (out : value) (calls : nat) :
    depth <= 5 -> tryParseString s <> VNull ->
    Resolves (tryParseString s) (depth + 1) out calls ->
    Resolves (VStr s) depth out (S calls).

(* ------------------------------------------------------------------ *)
(** ** Sample data *)

(** Seven layers of encoding: the text of the empty array, written as a
    JSON string literal six times over. *)
Definition sevenLayers : value := VStr (Json_text.nested 6 "[]").

(** The text null with white space around it. *)
Definition paddedNull : string := " null" ++ String Str.LF EmptyString.

(** A response whose [raw_response] holds the brands in a fenced block. *)
Definition fencedRaw : value :=
  VObj [ ("success", VBool true);
         ("raw_response",
          VStr ("```json" ++ String Str.LF
                  ("[{" ++ Json_text.quote "brand_name" ++ ":" ++ Json_text.quote "Spotify"
                   ++ "}]" ++ String Str.LF "```"))) ].

Definition five : value := VNum (mkNumber 5 0).

(** A record of the alternate schema whose confidence is a number. *)
Definition numericConfidence : value :=
  VObj [ ("website_details", VObj []); ("confidence", five) ].

(** A response with such a record under [response.result.brands] and a
    well-formed brand list as the text of [raw_response]. *)
Definition raisingFirst : value :=
  VObj [ ("success", VBool true);
         ("response",
          VObj [ ("result", VObj [ ("brands", VArr [numericConfidence]) ]) ]);
         ("raw_response",
          VStr ("[{" ++ Json_text.quote "brand_name" ++ ":" ++ Json_text.quote "x" ++ "}]")) ].

(** Counts of which one was sent as text. *)
Definition textCount : value :=
  VObj [ ("success", VBool true);
         ("response",
          VObj [ ("result",
                  VObj [ ("total_brands", VNum (mkNumber 3 0));
                         ("complete_count", VStr "2");
                         ("partial_count", VNum (mkNumber 1 0)) ]) ]) ].

(** The second of the page's own sample brands (lines 433-460): the agent
    is told to answer Not Found for what it could not confirm. *)
Definition sampleBrand : value :=
  VObj [ ("brand_name", VStr "Abdullah Kigilil");
         ("website_url", VStr "https://www.kigilil.com.tr");
         ("website_scope", VStr "Turkey");
         ("confidence", VStr "Verified");
         ("verification_notes",
          VStr "Turkish brand. Official .com.tr domain confirmed with brand logo and Turkish commerce info in footer.");
         ("logo_url", VStr "Not Found");
         ("founded_year", VStr "1938");
         ("about_summary",
          VStr "Kigilil is one of Turkey's oldest and most established menswear brands, known for suits, shirts, and formal wear.");
         ("about_page_link", VStr "https://www.kigilil.com.tr/kurumsal");
         ("product_category", VStr "Menswear, Formal Wear, Accessories");
         ("social_media",
          VObj [ ("twitter", VStr "Not Found");
                 ("linkedin", VStr "https://linkedin.com/company/kigilil");
                 ("instagram", VStr "https://instagram.com/kigilil");
                 ("facebook", VStr "https://facebook.com/kigilil");
                 ("youtube", VStr "Not Found");
                 ("tiktok", VStr "Not Found");
                 ("pinterest", VStr "Not Found") ]);
         ("contact_info",
          VObj [ ("email", VStr "info@kigilil.com.tr");
                 ("phone", VStr "+90 212 XXX XXXX");
                 ("hq_address", VStr "Istanbul, Turkey") ]);
         ("status", VStr "Partial") ].

(** A response whose [response.result] is the brand list as JSON text. *)
Definition stringified : value :=
  VObj [ ("success", VBool true);
         ("response",
          VObj [ ("result",
                  VStr ("{" ++ Json_text.quote "brands" ++ ":[{"
                        ++ Json_text.quote "brand_name" ++ ":" ++ Json_text.quote "Tesla"
                        ++ "}]}")) ]) ].

(** The brand-name input of the specification's example. *)
Definition sampleInput : string :=
  "Brand Name" ++ String Str.LF ("Nike" ++ String Str.LF (", Apple," ++ String Str.LF "")).

(** The word brand with a blank on either side, in double quotes. *)
Definition quotedHeader : string :=
  String Str.dquote (" brand " ++ String Str.dquote "").

(** A name with a double quote in the middle: B, double quote, rand. *)
Definition innerQuote : string := "B" ++ String Str.dquote "rand".

(** Nike between two double quotes on either side. *)
Definition doublyQuoted : string :=
  String Str.dquote
    (String Str.dquote ("Nike" ++ String Str.dquote (String Str.dquote ""))).

(** Nike in double quotes, with blanks around. *)
Definition quotedNike : string :=
  " " ++ String Str.dquote ("Nike" ++ String Str.dquote "  ").

(** A header line in double quotes, in capitals. *)
Definition quotedHeaderLine : string :=
  String Str.dquote ("BRAND NAME" ++ String Str.dquote "").

(* ------------------------------------------------------------------ *)
(** ** Further notions *)

(** The keys under which [findBrandsInObject] descends after resolving. *)
Definition isContainerKey (key : string) : bool :=
  String.eqb key "result" || String.eqb key "response" || String.eqb key "data".

(** The keys [findBrandsInObject] reads from an object. *)
Definition probedKeys : list string :=
  ["brands"; "results"; "text"; "result"; "response"; "data"].

(** What lies [n] envelopes inside [v]. An envelope is an object that
    holds exactly one of the keys the extractor reads, that one being
    result, response or data, beside any number of keys it does not read;
    inside it lies the value under that key. *)
Fixpoint inside (n : nat) (v : value) : option value :=
  match n with
  | O => Some v
  | S n' =>
      match filter (fun key => has key v) probedKeys with
      | [key] => if isContainerKey key then inside n' (get v key) else None
      | _ => None
      end
  end.

(** A list of records of the alternate schema under the key results. *)
Definition alternateResults : value :=
  VObj [ ("results",
          VArr [ VObj [ ("selected_official_website", VStr "https://www.lcw.com");
                        ("confidence", VStr "VERIFIED") ];
                 VObj [ ("official_website_turkey", VStr "https://www.mavi.com");
                        ("website_details", VObj [ ("founded_year", VStr "1991") ]) ] ]) ].

Definition nikeList : list value := [VObj [ ("brand_name", VStr "Nike") ]].

(** The list of Nike four envelopes deep, with other keys beside it. *)
Definition envelopedNike : value :=
  VObj [ ("success", VBool true);
         ("response",
          VObj [ ("status", VStr "ok");
                 ("result",
                  VObj [ ("data", VObj [ ("data", VArr nikeList); ("count", VStr "1") ]);
                         ("message", VStr "done") ]) ]) ].

(** The objects one candidate of [parseResponseMeta] puts to the test, in
    the order of the tests: the JSON of its text field, the candidate
    itself, its resolved result field. *)
Definition probed (candidate : value) : list value :=
  if isRecord candidate then
    filter isRecord
      (match get candidate "text" with
       | VStr text => [tryParseString text]
       | _ => []
       end
       ++ [candidate]
       ++ (if has "result" candidate
           then [resolveValue (get candidate "result") 0]
           else []))%list
  else [].

(** [typeof p.total_brands === 'number']. *)
Definition hasTotal (p : value) : bool := isNumber (get p "total_brands").

(** The counts read from [p], a missing or [null] one replaced by 0. *)
Definition countsOf (p : value) : ResponseMeta :=
  mkMeta (get p "total_brands")
         (nullish_or (get p "complete_count") zero)
         (nullish_or (get p "partial_count") zero).

(** Neither [undefined] nor [null]. *)
Definition present (v : value) : Prop :=
  match v with
  | VUndefined | VNull => False
  | _ => True
  end.

(** A string, number, boolean, [null] or [undefined]: what converts to a
    string without a method call on data. *)
Definition isScalar (v : value) : bool := negb (isObject v).

(** A record the mapper is written for: its confidence is a string or
    missing, and its product categories, when a list, hold scalars. *)
Definition mappable (r : value) : Prop :=
  otherThanString (get r "confidence") = false
  /\ forall items,
       get (get r "website_details") "product_categories" = VArr items ->
       forallb isScalar items = true.

(** None of [keys] is a key of [v]. *)
Definition lacks (keys : list string) (v : value) : bool :=
  forallb (fun key => negb (has key v)) keys.

(** A record of the alternate schema that is mappable. *)
Definition lcw : value :=
  VObj [ ("selected_official_website", VStr "https://www.lcw.com");
         ("confidence", VStr "VERIFIED");
         ("website_details",
          VObj [ ("product_categories", VArr [VStr "Women"; VStr "Men"; VNull]) ]) ].

(** An answer in prose: nothing in it is a brand list. *)
Definition proseAnswer : value :=
  VObj [ ("success", VBool true);
         ("response",
          VObj [ ("result", VStr "I could not verify any of these brands.");
                 ("message", VStr "done") ]) ].

(** What a cell of the export can be made of: a falsy value, or a string. *)
Definition exportable (v : value) : bool := negb (truthy v) || isString v.

(** A reader of CSV text after RFC 4180, with the line feed as the record
    separator: fields between commas, a field in double quotes holding any
    character, a doubled quote standing for one. The field and the row being
    read are kept backwards, as are the rows read so far. *)
Inductive mode : Type := AtStart | Plain | InQuotes | AfterQuote.

Definition endRow (field : string) (row : list string) (rows : list (list string))
  : list (list string) :=
  List.rev (Str.rev field :: row) :: rows.

Fixpoint readCSV_from (s : string) (m : mode) (field : string) (row : list string)
  (rows : list (list string)) : option (list (list string)) :=
  match s with
  | EmptyString =>
      match m with
      | InQuotes => None
      | _ => Some (List.rev (endRow field row rows))
      end
  | String c r =>
      match m with
      | AtStart | Plain =>
          if Ascii.eqb c Str.dquote then
            match m with
            | AtStart => readCSV_from r InQuotes field row rows
            | _ => None
            end
          else if Ascii.eqb c ","%char
          then readCSV_from r AtStart EmptyString (Str.rev field :: row) rows
          else if Ascii.eqb c Str.LF
          then readCSV_from r AtStart EmptyString [] (endRow field row rows)
          else readCSV_from r Plain (String c field) row rows
      | InQuotes =>
          if Ascii.eqb c Str.dquote
          then readCSV_from r AfterQuote field row rows
          else readCSV_from r InQuotes (String c field) row rows
      | AfterQuote =>
          if Ascii.eqb c Str.dquote
          then readCSV_from r InQuotes (String Str.dquote field) row rows
          else if Ascii.eqb c ","%char
          then readCSV_from r AtStart EmptyString (Str.rev field :: row) rows
          else if Ascii.eqb c Str.LF
          then readCSV_from r AtStart EmptyString [] (endRow field row rows)
          else None
      end
  end.

Definition readCSV (s : string) : option (list (list string)) :=
  readCSV_from s AtStart EmptyString [] [].

(** A brand whose fields hold commas, quotes and a line feed. *)
Definition awkwardBrand : value :=
  VObj [ ("brand_name", VStr ("Marks " ++ String Str.dquote ("&" ++ String Str.dquote " Spencer, plc")));
         ("about_summary", VStr ("Clothing," ++ String Str.LF "food"));
         ("contact_info", VObj [ ("email", VNull) ]) ].

(** A brand list taken as it came, the year as a number. *)
Definition numericYear : value :=
  VObj [ ("brand_name", VStr "Nike"); ("founded_year", VNum (mkNumber 1964 0)) ].

(** Every character of [s] satisfies [p]. *)
Fixpoint every (p : ascii -> bool) (s : string) : bool :=
  match s with
  | EmptyString => true
  | String c r => p c && every p r
  end.

(** [s] begins with a white-space character (of one, two or three bytes). *)
Definition startsBlank (s : string) : bool :=
  match s with
  | EmptyString => false
  | String c1 r1 =>
      Str.ws1 c1
      || match r1 with
         | EmptyString => false
         | String c2 r2 =>
             Str.ws2 c1 c2
             || match r2 with
                | EmptyString => false
                | String c3 _ => Str.ws3 c1 c2 c3
                end
         end
  end.

(** The same of a string read backwards. *)
Definition startsBlank_rev (s : string) : bool :=
  match s with
  | EmptyString => false
  | String c1 r1 =>
      Str.ws1 c1
      || match r1 with
         | EmptyString => false
         | String c2 r2 =>
             Str.ws2 c2 c1
             || match r2 with
                | EmptyString => false
                | String c3 _ => Str.ws3 c3 c2 c1
                end
         end
  end.

(** The text of a CSV file of brand names, with a header and quoted names. *)
Definition sampleCsv : string :=
  "company name" ++ String Str.LF
    (String Str.dquote ("Zara" ++ String Str.dquote
       (", 'H&M' ," ++ String Str.LF "   "))).

(** The codes from A to z: none is the code of a byte of white space. *)
Definition isLetterCode (n : nat) : Prop := 65 <= n <= 122.

Definition notBackquote (c : ascii) : bool := negb (Ascii.eqb c "`"%char).

(** [payload] in a markdown fence, with the tag json or without. *)
Definition fenced (tagged : bool) (payload : string) : string :=
  "```" ++ (if tagged then "json" else "")
  ++ String Str.LF (payload ++ String Str.LF "```").

(* ------------------------------------------------------------------ *)
(** ** State and badges of the results table *)

(** The types [SortField] and [SortDirection] (lines 80-81). *)
Inductive SortField : Type :=
| by_brand_name | by_product_category | by_website_url
| by_founded_year | by_status | by_confidence.

Inductive SortDirection : Type := asc | desc.

Definition SortField_eqb (a b : SortField) : bool :=
  match a, b with
  | by_brand_name, by_brand_name | by_product_category, by_product_category
  | by_website_url, by_website_url | by_founded_year, by_founded_year
  | by_status, by_status | by_confidence, by_confidence => true
  | _, _ => false
  end.

(** The two pieces of state [handleSort] reads and sets. *)
Record TableSort : Type := mkSort { sortField : SortField; sortDirection : SortDirection }.

(** [handleSort] (lines 1164-1171): the state after a click on the header of
    [field]. *)
Definition handleSort (field : SortField) (st : TableSort) : TableSort :=
  if SortField_eqb (sortField st) field
  then mkSort (sortField st)
              (match sortDirection st with asc => desc | desc => asc end)
  else mkSort field asc.

(** A [Set] of row numbers, in the order of insertion. *)
Definition Set_has (x : nat) (s : list nat) : bool := existsb (Nat.eqb x) s.

Definition Set_add (x : nat) (s : list nat) : list nat :=
  if Set_has x s then s else (s ++ [x])%list.

Definition Set_delete (x : nat) (s : list nat) : list nat :=
  filter (fun y => negb (Nat.eqb y x)) s.

(** The updater [toggleRow] hands to [setExpandedRows] (lines 1152-1162). *)
Definition toggleRow (idx : nat) (prev : list nat) : list nat :=
  let next := prev in
  if Set_has idx next then Set_delete idx next else Set_add idx next.

(** What varies in a badge: the class names, the icon and the text. *)
Record Badge : Type := mkBadge { className : string; icon : string; label : value }.

(** [StatusBadge] (lines 581-591). *)
Definition StatusBadge (status : value) : completion Badge :=
  let* isComplete :=
    match status with
    | VUndefined | VNull => Ok false
    | VStr s => Ok (String.eqb (Str.toLowerCase s) "complete")
    | _ => Throw TypeError
    end in
  Ok (mkBadge
        ("inline-flex items-center gap-1 px-2.5 py-0.5 rounded-full text-xs font-semibold "
         ++ (if isComplete then "bg-emerald-100 text-emerald-700"
             else "bg-amber-100 text-amber-700"))
        (if isComplete then "FiCheck" else "FiAlertCircle")
        (VStr (if isComplete then "Complete" else "Partial"))).

(** [ConfidenceBadge] (lines 595-609). *)
Definition ConfidenceBadge (confidence : value) : completion Badge :=
  let* level :=
    match confidence with
    | VUndefined | VNull => Ok EmptyString
    | VStr s => Ok (Str.toLowerCase s)
    | _ => Throw TypeError
    end in
  let classes :=
    if String.eqb level "verified" then "bg-emerald-100 text-emerald-700"
    else if String.eqb level "partially verified" then "bg-amber-100 text-amber-700"
    else if String.eqb level "not found" then "bg-red-100 text-red-600"
    else "bg-gray-100 text-gray-600" in
  Ok (mkBadge
        ("inline-flex items-center gap-1 px-2 py-0.5 rounded-full text-xs font-medium "
         ++ classes)
        "FiShield"
        (or_else confidence (VStr "Unknown"))).

(** Spaces, line feeds, a tab and a no-break space. *)
Definition blankText : string :=
  "  " ++ String Str.LF (String "009"%char
    (String Str.LF (String "194"%char (String "160"%char " ")))).

(* ================================================================== *)
(** * Properties *)

(** ** The value resolver *)

Lemma resolveValue_guard (val : value) (depth : nat) :
  depth > 5 -> resolveValue val depth = val.
Proof.
  intros Hd. simp resolveValue.
  destruct (lt_dec 5 depth) as [Hlt | Hn]; [reflexivity | lia].
Qed.

Lemma resolveValue_step (val : value) (depth : nat) :
  depth <= 5 ->
  resolveValue val depth =
    match unwrap val with
    | Some inner => resolveValue inner (depth + 1)
    | None => val
    end.
Proof.
  intros Hd. simp resolveValue.
  destruct (lt_dec 5 depth) as [Hlt | Hge]; [lia |].
  destruct val; cbn; try reflexivity.
  destruct (isNull (tryParseString s)); reflexivity.
Qed.

Lemma resolveValue_peel (val : value) (depth : nat) :
  resolveValue val depth = peel (6 - depth) val.
Proof.
  remember (6 - depth) as n eqn:Hn.
  revert val depth Hn.
  induction n as [| n IH]; intros val depth Hn.
  - apply resolveValue_guard. lia.
  - rewrite resolveValue_step by lia. cbn [peel].
    destruct (unwrap val) as [inner |]; [| reflexivity].
    apply IH. lia.
Qed.

Lemma peel_settled (n : nat) (v : value) :
  layersWithin n v = true -> unwrap (peel n v) = None.
Proof.
  revert v. induction n as [| n IH]; intros v Hv.
  - cbn in *. destruct (unwrap v); [discriminate | reflexivity].
  - cbn in *. destruct (unwrap v) as [inner |] eqn:Hu.
    + apply IH, Hv.
    + exact Hu.
Qed.

Lemma peel_fixed (n : nat) (v : value) :
  unwrap v = None -> peel n v = v.
Proof.
  intros Hu. destruct n; cbn; [reflexivity |]. now rewrite Hu.
Qed.

(** C2, as the specification states it, fails: the resolver stops after six
    parses, so on a string encoded seven times over it returns a string
    that a second call resolves further. *)
Lemma resolveValue_not_idempotent :
  resolveValue (resolveValue sevenLayers 0) 0 <> resolveValue sevenLayers 0.
Proof.
  vm_compute. discriminate.
Qed.

(** C2, amended: resolving twice gives what resolving once gives, for every
    value that carries at most six layers of encoding, that is, whenever the
    first call is not cut short by the depth guard. *)
Theorem resolveValue_idempotent_within_guard (x : value) :
  layersWithin 6 x = true ->
  resolveValue (resolveValue x 0) 0 = resolveValue x 0.
Proof.
  intros Hx.
  rewrite (resolveValue_peel x 0). cbn [Nat.sub].
  rewrite resolveValue_peel.
  apply peel_fixed, peel_settled, Hx.
Qed.

Lemma resolveValue_idempotent_within_guard_witness :
  layersWithin 6 (VStr (Json_text.nested 2 "[1, 2]")) = true
  /\ resolveValue (resolveValue (VStr (Json_text.nested 2 "[1, 2]")) 0) 0
     = resolveValue (VStr (Json_text.nested 2 "[1, 2]")) 0.
Proof.
  split.
  - vm_compute. reflexivity.
  - apply (resolveValue_idempotent_within_guard (VStr (Json_text.nested 2 "[1, 2]"))).
    vm_compute. reflexivity.
Defined.

Lemma isNull_spec (v : value) : isNull v = true <-> v = VNull.
Proof. destruct v; cbn; split; intros H; try discriminate; reflexivity. Qed.

(** Every call has a run, of at most [6 - depth] recursive calls. *)
Lemma resolveValue_runs (val : value) (depth : nat) :
  exists calls,
    Resolves val depth (resolveValue val depth) calls /\ calls <= 6 - depth.
Proof.
  remember (6 - depth) as n eqn:Hn.
  revert val depth Hn.
  induction n as [| n IH]; intros val depth Hn.
  - exists 0. rewrite resolveValue_guard by lia.
    split; [apply Resolves_guard; lia | lia].
  - rewrite resolveValue_step by lia.
    destruct val as [| | b | x | s | items | fields];
      try (exists 0; split; [apply Resolves_other; [lia | reflexivity] | lia]).
    cbn [unwrap]. destruct (isNull (tryParseString s)) eqn:E.
    + exists 0. split; [| lia].
      apply Resolves_unparsed; [lia | now apply isNull_spec].
    + destruct (IH (tryParseString s) (depth + 1) ltac:(lia)) as (calls & Hrun & Hle).
      exists (S calls). split; [| lia].
      apply Resolves_parsed; [lia | | exact Hrun].
      intros Hnull. apply isNull_spec in Hnull. congruence.
Qed.

(** C5: the resolver terminates on every input, its recursion bounded by
    the depth parameter: every call has a run, of at most [6 - depth]
    recursive calls; past the guard ([depth > 5]) the value comes back
    unchanged; and a string encoded ten times over comes back as a string
    that is still encoded, four times over. *)
Theorem resolveValue_depth_bound :
  (forall val depth,
      exists calls,
        Resolves val depth (resolveValue val depth) calls /\ calls <= 6 - depth)
  /\ (forall val depth, depth > 5 -> resolveValue val depth = val)
  /\ resolveValue (VStr (Json_text.nested 10 "[]")) 0 = VStr (Json_text.nested 4 "[]")
  /\ unwrap (VStr (Json_text.nested 4 "[]")) = Some (VStr (Json_text.nested 3 "[]")).
Proof.
  split; [exact resolveValue_runs |].
  split; [exact resolveValue_guard |].
  split; vm_compute; reflexivity.
Qed.

Lemma resolveValue_depth_bound_witness :
  6 > 5 /\ resolveValue (VStr "[1]") 6 = VStr "[1]".
Proof.
  split.
  - lia.
  - apply (proj1 (proj2 resolveValue_depth_bound)). lia.
Defined.

(** ** Strings *)

Lemma append_nil_r (s : string) : s ++ "" = s.
Proof. induction s as [| c s IH]; cbn; [reflexivity | now rewrite IH]. Qed.

Lemma append_assoc (a b c : string) : (a ++ b) ++ c = a ++ (b ++ c).
Proof. induction a as [| x a IH]; cbn; [reflexivity | now rewrite IH]. Qed.

Lemma rev_append_spec (s acc : string) :
  Str.rev_append s acc = Str.rev s ++ acc.
Proof.
  unfold Str.rev. revert acc.
  induction s as [| c s IH]; intros acc; cbn; [reflexivity |].
  rewrite IH, (IH (String c "")), append_assoc. reflexivity.
Qed.

Lemma rev_cons (c : ascii) (s : string) :
  Str.rev (String c s) = Str.rev s ++ String c "".
Proof. unfold Str.rev at 1. cbn. apply rev_append_spec. Qed.

Lemma rev_app (a b : string) : Str.rev (a ++ b) = Str.rev b ++ Str.rev a.
Proof.
  induction a as [| c a IH]; cbn [append].
  - now rewrite append_nil_r.
  - rewrite !rev_cons, IH, append_assoc. reflexivity.
Qed.

Lemma rev_involutive_string (s : string) : Str.rev (Str.rev s) = s.
Proof.
  induction s as [| c s IH]; [reflexivity |].
  rewrite rev_cons, rev_app, IH. reflexivity.
Qed.

Lemma strip_prefix_app (p s r : string) :
  Str.strip_prefix p s = Some r -> s = p ++ r.
Proof.
  revert s. induction p as [| a p IH]; intros s H; cbn in *.
  - now injection H as ->.
  - destruct s as [| b s]; [discriminate |].
    destruct (Ascii.eqb a b) eqn:E; [| discriminate].
    apply Ascii.eqb_eq in E. subst b. f_equal. now apply IH.
Qed.

Lemma json_ws_ws1 (c : ascii) : Json.json_ws c = true -> Str.ws1 c = true.
Proof.
  unfold Json.json_ws, Str.ws1. cbv zeta.
  generalize (Str.code c). intros n H.
  repeat (apply orb_true_iff in H; destruct H as [H | H]);
    apply Nat.eqb_eq in H; subst n; reflexivity.
Qed.

Lemma trimStart_skip_ws (s : string) :
  Str.trimStart s = Str.trimStart (Json.skip_ws s).
Proof.
  induction s as [| c s IH]; [reflexivity |].
  cbn [Json.skip_ws]. destruct (Json.json_ws c) eqn:E; [| reflexivity].
  cbn [Str.trimStart]. rewrite (json_ws_ws1 c E). exact IH.
Qed.

Lemma trimStart_rev_blank (w t : string) :
  Json.skip_ws w = "" ->
  Str.trimStart_rev (Str.rev w ++ t) = Str.trimStart_rev t.
Proof.
  revert t. induction w as [| c w IH]; intros t Hw; [reflexivity |].
  cbn [Json.skip_ws] in Hw. destruct (Json.json_ws c) eqn:E; [| discriminate].
  rewrite rev_cons, append_assoc, (IH _ Hw). cbn [append Str.trimStart_rev].
  now rewrite (json_ws_ws1 c E).
Qed.

(** ** The text null *)

Lemma parse_elements_array (fuel : nat) :
  forall s acc v r,
    Json.parse_elements fuel s acc = Json.Parsed v r -> exists items, v = VArr items.
Proof.
  induction fuel as [| fuel IH]; intros s acc v r H; [discriminate |].
  cbn [Json.parse_elements] in H.
  destruct (Json.parse_value fuel s) as [v1 r1 | |]; try discriminate.
  destruct (Str.strip_prefix "," (Json.skip_ws r1)) as [r2 |].
  - exact (IH _ _ _ _ H).
  - destruct (Str.strip_prefix "]" (Json.skip_ws r1)); [| discriminate].
    injection H as <- _. eauto.
Qed.

Lemma parse_members_object (fuel : nat) :
  forall s acc v r,
    Json.parse_members fuel s acc = Json.Parsed v r -> exists fields, v = VObj fields.
Proof.
  induction fuel as [| fuel IH]; intros s acc v r H; [discriminate |].
  cbn [Json.parse_members] in H.
  destruct (Str.strip_prefix _ (Json.skip_ws s)) as [r0 |]; [| discriminate].
  destruct (Json.string_lit r0) as [[k r1] |]; [| discriminate].
  destruct (Str.strip_prefix ":" (Json.skip_ws r1)) as [r2 |]; [| discriminate].
  destruct (Json.parse_value fuel r2) as [v1 r3 | |]; try discriminate.
  destruct (Str.strip_prefix "," (Json.skip_ws r3)) as [r4 |].
  - exact (IH _ _ _ _ H).
  - destruct (Str.strip_prefix "}" (Json.skip_ws r3)); [| discriminate].
    injection H as <- _. eauto.
Qed.

Lemma parse_value_null (fuel : nat) (s r : string) :
  Json.parse_value fuel s = Json.Parsed VNull r ->
  Json.skip_ws s = "null" ++ r.
Proof.
  destruct fuel as [| fuel]; [discriminate |].
  cbn [Json.parse_value].
  destruct (Json.skip_ws s) as [| c r0]; [discriminate |].
  destruct (Ascii.eqb c Str.dquote).
  { destruct (Json.string_lit r0) as [[? ?] |]; discriminate. }
  destruct (Ascii.eqb c "[").
  { destruct (Str.strip_prefix "]" (Json.skip_ws r0)); [discriminate |].
    intros H. apply parse_elements_array in H. destruct H; discriminate. }
  destruct (Ascii.eqb c "{").
  { destruct (Str.strip_prefix "}" (Json.skip_ws r0)); [discriminate |].
    intros H. apply parse_members_object in H. destruct H; discriminate. }
  destruct (Ascii.eqb c "n") eqn:En.
  { apply Ascii.eqb_eq in En. subst c. unfold Json.literal.
    destruct (Str.strip_prefix "ull" r0) as [r1 |] eqn:E; [| discriminate].
    intros H. injection H as ->. apply strip_prefix_app in E. now subst r0. }
  destruct (Ascii.eqb c "t").
  { unfold Json.literal. destruct (Str.strip_prefix "rue" r0); discriminate. }
  destruct (Ascii.eqb c "f").
  { unfold Json.literal. destruct (Str.strip_prefix "alse" r0); discriminate. }
  destruct (Json.parse_number (String c r0)) as [[? ?] |]; discriminate.
Qed.

Lemma JSON_parse_null (s : string) :
  JSON_parse s = Some VNull ->
  exists r, Json.skip_ws s = "null" ++ r /\ Json.skip_ws r = "".
Proof.
  unfold JSON_parse, Json.parse_text.
  destruct (Json.parse_value (Json.fuel_for s) s) as [v r | |] eqn:E; try discriminate.
  destruct (Json.skip_ws r) eqn:Er; [| discriminate].
  intros H. injection H as ->.
  exists r. split; [exact (parse_value_null _ _ _ E) | exact Er].
Qed.

Lemma trim_null (s : string) :
  JSON_parse s = Some VNull -> Str.trim s = "null".
Proof.
  intros H. destruct (JSON_parse_null s H) as (r & Hs & Hr).
  unfold Str.trim. rewrite trimStart_skip_ws, Hs.
  change (Str.trimStart ("null" ++ r)) with ("null" ++ r).
  unfold Str.trimEnd. rewrite rev_app, (trimStart_rev_blank r _ Hr).
  reflexivity.
Qed.

Lemma tryParseString_null (s : string) :
  JSON_parse s = Some VNull -> tryParseString s = VNull.
Proof.
  intros H. unfold tryParseString.
  destruct (negb (Str.nonEmpty s)); [reflexivity |].
  rewrite (trim_null s H). reflexivity.
Qed.

(** C10: a string that [JSON.parse] accepts and reads as [null] (the text
    null, white space around it allowed) is returned by the resolver as it
    came, at every depth: the parse counts as a failure. *)
Theorem resolveValue_null_text (s : string) (depth : nat) :
  JSON_parse s = Some VNull ->
  tryParseString s = VNull /\ resolveValue (VStr s) depth = VStr s.
Proof.
  intros H. pose proof (tryParseString_null s H) as Ht.
  split; [exact Ht |].
  rewrite resolveValue_peel. apply peel_fixed.
  cbn [unwrap]. now rewrite Ht.
Qed.

Lemma resolveValue_null_text_witness :
  JSON_parse paddedNull = Some VNull
  /\ tryParseString paddedNull = VNull
  /\ resolveValue (VStr paddedNull) 0 = VStr paddedNull.
Proof.
  split.
  - vm_compute. reflexivity.
  - apply (resolveValue_null_text paddedNull 0). vm_compute. reflexivity.
Defined.

(** ** The descent of [JSON.parse] *)

Lemma skip_ws_length (s : string) :
  String.length (Json.skip_ws s) <= String.length s.
Proof.
  induction s as [| c s IH]; cbn; [lia |].
  destruct (Json.json_ws c); cbn; lia.
Qed.

Lemma strip_prefix_length (p s r : string) :
  Str.strip_prefix p s = Some r ->
  String.length s = String.length p + String.length r.
Proof.
  revert s. induction p as [| a p IH]; intros s H; cbn in *.
  - now injection H as ->.
  - destruct s as [| b s]; [discriminate |].
    destruct (Ascii.eqb a b); [| discriminate].
    cbn. now rewrite (IH s H).
Qed.

Lemma string_items_length (n : nat) :
  forall s acc items r,
    String.length s <= n ->
    Json.string_items s acc = Some (items, r) ->
    String.length r < String.length s.
Proof.
  induction n as [| n IH]; intros s acc items r Hn H.
  - destruct s; [discriminate | cbn in Hn; lia].
  - destruct s as [| c s]; [discriminate |].
    cbn [Json.string_items] in H. cbn [String.length] in *.
    destruct (Ascii.eqb c Str.dquote).
    { injection H as _ <-. lia. }
    destruct (Ascii.eqb c Str.backslash).
    + destruct s as [| e r1]; [discriminate |]. cbn [String.length] in *.
      destruct (Json.simple_escape e).
      { apply IH in H; lia. }
      destruct (Ascii.eqb e "u"); [| discriminate].
      destruct r1 as [| h1 [| h2 [| h3 [| h4 r2]]]]; try discriminate.
      destruct (Json.hex4 h1 h2 h3 h4); [| discriminate].
      cbn [String.length] in *. apply IH in H; lia.
    + destruct (Str.code c <? 32)%nat; [discriminate |].
      apply IH in H; lia.
Qed.

Lemma string_lit_length (s k r : string) :
  Json.string_lit s = Some (k, r) -> String.length r < String.length s.
Proof.
  unfold Json.string_lit.
  destruct (Json.string_items s []) as [[items rest] |] eqn:E; [| discriminate].
  intros H. injection H as _ <-.
  exact (string_items_length _ _ _ _ _ (le_n _) E).
Qed.

Lemma digits_length (s : string) :
  forall acc cnt a c r,
    Json.digits s acc cnt = (a, c, r) -> String.length r <= String.length s.
Proof.
  induction s as [| x s IH]; intros acc cnt a c r H; cbn in H.
  - injection H as _ _ <-. lia.
  - destruct (Json.digit_val x).
    + apply IH in H. cbn. lia.
    + injection H as _ _ <-. lia.
Qed.

Lemma fraction_length (s : string) (int_part m cnt : Z) (r : string) :
  Json.fraction s int_part = Some (m, cnt, r) ->
  String.length r <= String.length s.
Proof.
  unfold Json.fraction.
  destruct (Str.strip_prefix "." s) as [r0 |] eqn:E.
  - destruct (Json.digits r0 int_part 0) as [[m' cnt'] r'] eqn:Ed.
    destruct (cnt' =? 0)%Z; [discriminate |].
    intros H. injection H as _ _ <-.
    apply strip_prefix_length in E. apply digits_length in Ed. lia.
  - intros H. injection H as _ _ <-. lia.
Qed.

Lemma exponent_part_length (s : string) (e : Z) (r : string) :
  Json.exponent_part s = Some (e, r) ->
  String.length r <= String.length s.
Proof.
  unfold Json.exponent_part.
  destruct s as [| c s]; [intros H; injection H as _ <-; lia |].
  destruct (Ascii.eqb c "e" || Ascii.eqb c "E").
  - destruct (match s with
              | EmptyString => (false, s)
              | String sg r' => _
              end) as [neg r1] eqn:Es.
    assert (Hr1 : String.length r1 <= String.length s).
    { destruct s as [| sg r']; [injection Es as _ <-; lia |].
      destruct (Ascii.eqb sg "-"); [injection Es as _ <-; cbn; lia |].
      destruct (Ascii.eqb sg "+"); injection Es as _ <-; cbn; lia. }
    destruct (Json.digits r1 0 0) as [[e' cnt] r2] eqn:Ed.
    destruct (cnt =? 0)%Z; [discriminate |].
    intros H. injection H as _ <-. apply digits_length in Ed. cbn. lia.
  - intros H. injection H as _ <-. lia.
Qed.

Lemma parse_number_length (s : string) (n : number) (r : string) :
  Json.parse_number s = Some (n, r) -> String.length r < String.length s.
Proof.
  unfold Json.parse_number.
  destruct (match Str.strip_prefix "-" s with
            | Some r0 => (true, r0)
            | None => (false, s)
            end) as [neg s1] eqn:Es.
  assert (Hs1 : String.length s1 <= String.length s).
  { destruct (Str.strip_prefix "-" s) as [r0 |] eqn:E; injection Es as _ <-; [| lia].
    apply strip_prefix_length in E. lia. }
  destruct s1 as [| c r0]; [discriminate |].
  destruct (Json.digit_val c) as [d |]; [| discriminate].
  destruct (if (d =? 0)%Z then (0%Z, 1%Z, r0) else Json.digits r0 d 1)
    as [[int_part cnt] s2] eqn:Ei.
  assert (Hs2 : String.length s2 <= String.length r0).
  { destruct (d =? 0)%Z; [injection Ei as _ _ <-; lia |].
    exact (digits_length _ _ _ _ _ _ Ei). }
  destruct (Json.fraction s2 int_part) as [[[m frac_len] s3] |] eqn:Ef; [| discriminate].
  destruct (Json.exponent_part s3) as [[e s4] |] eqn:Ee; [| discriminate].
  intros H. injection H as _ <-.
  apply fraction_length in Ef. apply exponent_part_length in Ee.
  cbn [String.length] in Hs1. lia.
Qed.

Lemma progresses_syntax (s : string) : progresses Json.SyntaxError s.
Proof. split; [discriminate | intros v r H; discriminate]. Qed.

Lemma progresses_parsed (v : value) (r s : string) :
  String.length r < String.length s -> progresses (Json.Parsed v r) s.
Proof.
  intros Hr. split; [discriminate |].
  intros v' r' H. injection H as _ <-. exact Hr.
Qed.

Lemma progresses_weaken (o : Json.outcome value) (s s' : string) :
  progresses o s -> String.length s <= String.length s' -> progresses o s'.
Proof.
  intros [Hf Hp] Hs. split; [exact Hf |].
  intros v r H. specialize (Hp v r H). lia.
Qed.

Lemma progresses_literal (word : string) (v : value) (r s : string) :
  String.length r < String.length s -> progresses (Json.literal word v r) s.
Proof.
  intros Hr. unfold Json.literal.
  destruct (Str.strip_prefix word r) as [r' |] eqn:E.
  - apply progresses_parsed. apply strip_prefix_length in E. lia.
  - apply progresses_syntax.
Qed.

Lemma descent_progresses (fuel : nat) :
  (forall s, 2 * String.length s + 1 <= fuel ->
             progresses (Json.parse_value fuel s) s)
  /\ (forall s acc, 2 * String.length s + 2 <= fuel ->
                    progresses (Json.parse_elements fuel s acc) s)
  /\ (forall s acc, 2 * String.length s + 2 <= fuel ->
                    progresses (Json.parse_members fuel s acc) s).
Proof.
  induction fuel as [| fuel (IHv & IHe & IHm)].
  { repeat split; intros; lia. }
  split; [| split].
  - intros s Hf. cbn [Json.parse_value].
    pose proof (skip_ws_length s) as Hs.
    destruct (Json.skip_ws s) as [| c r0]; [apply progresses_syntax |].
    cbn [String.length] in Hs.
    destruct (Ascii.eqb c Str.dquote).
    { destruct (Json.string_lit r0) as [[str r'] |] eqn:E; [| apply progresses_syntax].
      apply progresses_parsed. apply string_lit_length in E. lia. }
    destruct (Ascii.eqb c "[").
    { pose proof (skip_ws_length r0) as Hr0.
      destruct (Str.strip_prefix "]" (Json.skip_ws r0)) as [r' |] eqn:E.
      - apply progresses_parsed. apply strip_prefix_length in E. lia.
      - apply (progresses_weaken _ r0); [apply IHe |]; lia. }
    destruct (Ascii.eqb c "{").
    { pose proof (skip_ws_length r0) as Hr0.
      destruct (Str.strip_prefix "}" (Json.skip_ws r0)) as [r' |] eqn:E.
      - apply progresses_parsed. apply strip_prefix_length in E. lia.
      - apply (progresses_weaken _ r0); [apply IHm |]; lia. }
    destruct (Ascii.eqb c "n"); [apply progresses_literal; lia |].
    destruct (Ascii.eqb c "t"); [apply progresses_literal; lia |].
    destruct (Ascii.eqb c "f"); [apply progresses_literal; lia |].
    destruct (Json.parse_number (String c r0)) as [[n r'] |] eqn:E;
      [| apply progresses_syntax].
    apply progresses_parsed. apply parse_number_length in E.
    cbn [String.length] in E. lia.
  - intros s acc Hf. cbn [Json.parse_elements].
    destruct (IHv s ltac:(lia)) as [Hfuel Hrest].
    destruct (Json.parse_value fuel s) as [v r | |];
      [| apply progresses_syntax | contradiction].
    specialize (Hrest v r eq_refl).
    pose proof (skip_ws_length r) as Hr.
    destruct (Str.strip_prefix "," (Json.skip_ws r)) as [r' |] eqn:E.
    + apply strip_prefix_length in E. cbn [String.length] in E.
      apply (progresses_weaken _ r'); [apply IHe |]; lia.
    + destruct (Str.strip_prefix "]" (Json.skip_ws r)) as [r' |] eqn:E';
        [| apply progresses_syntax].
      apply progresses_parsed. apply strip_prefix_length in E'. lia.
  - intros s acc Hf. cbn [Json.parse_members].
    pose proof (skip_ws_length s) as Hs.
    destruct (Str.strip_prefix _ (Json.skip_ws s)) as [r0 |] eqn:E0;
      [| apply progresses_syntax].
    apply strip_prefix_length in E0. cbn [String.length] in E0.
    destruct (Json.string_lit r0) as [[k r1] |] eqn:E1; [| apply progresses_syntax].
    apply string_lit_length in E1.
    pose proof (skip_ws_length r1) as Hr1.
    destruct (Str.strip_prefix ":" (Json.skip_ws r1)) as [r2 |] eqn:E2;
      [| apply progresses_syntax].
    apply strip_prefix_length in E2. cbn [String.length] in E2.
    destruct (IHv r2 ltac:(lia)) as [Hfuel Hrest].
    destruct (Json.parse_value fuel r2) as [v r3 | |];
      [| apply progresses_syntax | contradiction].
    specialize (Hrest v r3 eq_refl).
    pose proof (skip_ws_length r3) as Hr3.
    destruct (Str.strip_prefix "," (Json.skip_ws r3)) as [r4 |] eqn:E4.
    + apply strip_prefix_length in E4. cbn [String.length] in E4.
      apply (progresses_weaken _ r4); [apply IHm |]; lia.
    + destruct (Str.strip_prefix "}" (Json.skip_ws r3)) as [r4 |] eqn:E4';
        [| apply progresses_syntax].
      apply progresses_parsed. apply strip_prefix_length in E4'. lia.
Qed.

(** The counter [JSON_parse] starts from is enough for every text: a
    [None] is always a [SyntaxError]. *)
Lemma JSON_parse_fuel (text : string) :
  Json.parse_text text <> Json.OutOfFuel.
Proof.
  unfold Json.parse_text.
  destruct (proj1 (descent_progresses (Json.fuel_for text)) text (le_n _)) as [Hf _].
  destruct (Json.parse_value (Json.fuel_for text) text) as [v r | |];
    [| discriminate | contradiction].
  destruct (Json.skip_ws r); discriminate.
Qed.

(** ** The brand extractor *)

Lemma lookup_In (k : string) (fs : list (string * value)) :
  (exists v, lookup k fs = Some v) <-> In k (map fst fs).
Proof.
  induction fs as [| [k' v'] fs IH]; cbn.
  - split; [intros [v H]; discriminate | intros []].
  - destruct (String.eqb k k') eqn:E.
    + apply String.eqb_eq in E. subst k'. split; eauto.
    + apply String.eqb_neq in E. rewrite IH. split; [tauto |].
      intros [H | H]; [congruence | exact H].
Qed.

Lemma startsWithBrand_spec (items : list value) :
  startsWithBrand items = true <-> firstIsBrand items.
Proof.
  unfold firstIsBrand. split.
  - destruct items as [| first rest]; [discriminate |]. cbn.
    intros H. apply andb_true_iff in H. destruct H as [_ H].
    destruct first; try discriminate. cbn in H.
    destruct (lookup "brand_name" fields) as [v |] eqn:E; [| discriminate].
    exists fields, rest. split; [reflexivity |]. apply lookup_In. eauto.
  - intros (fields & rest & -> & Hin). cbn.
    apply lookup_In in Hin. destruct Hin as [v ->]. reflexivity.
Qed.

Lemma findBrandsInObject_guard (obj : value) (depth : nat) :
  depth > 4 -> findBrandsInObject obj depth = Ok None.
Proof.
  intros Hd. simp findBrandsInObject.
  destruct (lt_dec 4 depth) as [Hlt | Hge]; [reflexivity | lia].
Qed.

Lemma findBrandsInObject_list (items : list value) (depth : nat) :
  depth <= 4 ->
  findBrandsInObject (VArr items) depth
  = Ok (if startsWithBrand items then Some items else None).
Proof.
  intros Hd. simp findBrandsInObject.
  destruct (lt_dec 4 depth) as [Hlt | Hge]; [lia | reflexivity].
Qed.

(** C6: on an array, at any depth within the guard, the extractor returns
    the array itself exactly when it is not empty and its first element is
    an object with a key brand_name, and null for every other array. *)
Theorem findBrandsInObject_array (items : list value) (depth : nat) :
  depth <= 4 ->
  (firstIsBrand items -> findBrandsInObject (VArr items) depth = Ok (Some items))
  /\ (~ firstIsBrand items -> findBrandsInObject (VArr items) depth = Ok None).
Proof.
  intros Hd. rewrite (findBrandsInObject_list items depth Hd).
  split; intros H.
  - apply startsWithBrand_spec in H. now rewrite H.
  - destruct (startsWithBrand items) eqn:E; [| reflexivity].
    exfalso. apply H, startsWithBrand_spec, E.
Qed.

Lemma findBrandsInObject_array_witness :
  3 <= 4
  /\ findBrandsInObject (VArr [VObj [("brand_name", VStr "Nike")]; VNull]) 3
     = Ok (Some [VObj [("brand_name", VStr "Nike")]; VNull])
  /\ findBrandsInObject (VArr [VStr "brand_name"]) 3 = Ok None.
Proof.
  split; [lia |]. split.
  - apply (findBrandsInObject_array [VObj [("brand_name", VStr "Nike")]; VNull] 3); [lia |].
    exists [("brand_name", VStr "Nike")], [VNull]. split; [reflexivity |].
    left. reflexivity.
  - apply (findBrandsInObject_array [VStr "brand_name"] 3); [lia |].
    intros (fields & rest & H & _). discriminate.
Defined.

(** ** The orchestrator *)

Lemma startsWithBrand_nonEmpty (items : list value) :
  startsWithBrand items = true -> nonEmptyList (Some items) = true.
Proof. destruct items; [discriminate | reflexivity]. Qed.

(** The examples of the specification: a stringified envelope, and a
    fenced block found by the fourth strategy. *)
Example parseAgentResponse_stringified :
  parseAgentResponse stringified = [VObj [("brand_name", VStr "Tesla")]].
Proof. vm_compute. reflexivity. Qed.

Example parseAgentResponse_fenced :
  strategies fencedRaw
  = [Ok None; Ok None; Ok None;
     Ok (Some [VObj [("brand_name", VStr "Spotify")]]); Ok None].
Proof. vm_compute. reflexivity. Qed.

(** The orchestrator is the search through the five strategies in their
    order, given up at the first one that raises. *)
Lemma parseAgentResponse_search (result : value) :
  parseAgentResponse result = firstNonEmptyOrRaise (strategies result).
Proof.
  unfold parseAgentResponse, parseAgentResponse_try, strategies,
    strategy1, strategy2, strategy3, strategy4, strategy5.
  set (resultData := resolveValue (get (get result "response") "result") 0).
  destruct (findBrandsInObject resultData 0) as [[[| b1 l1] |] | e1];
    cbn; try reflexivity.
  all: destruct (findBrandsInObject (get result "response") 0) as [[[| b2 l2] |] | e2];
    cbn; try reflexivity.
  all: destruct (findBrandsInObject result 0) as [[[| b3 l3] |] | e3];
    cbn; try reflexivity.
  all: destruct (truthy (get result "raw_response")); cbn.
  all: try (destruct (findBrandsInObject (resolveValue (get result "raw_response") 0) 0)
              as [[[| b4 l4] |] | e4]; cbn; try reflexivity).
  all: destruct resultData as [| | | | | items |]; cbn; try reflexivity.
  all: destruct items as [| first rest]; cbn; try reflexivity.
  all: destruct (isObject first && has "brand_name" first); reflexivity.
Qed.

(** The fifth strategy cannot find what the first one missed. *)
Lemma strategy5_covered (result : value) (found : option (list value)) :
  strategy1 result = Ok found -> nonEmptyList found = false ->
  strategy5 result = Ok None.
Proof.
  unfold strategy1, strategy5.
  destruct (resolveValue (get (get result "response") "result") 0)
    as [| | | | | items |]; try reflexivity.
  rewrite findBrandsInObject_list by lia.
  destruct (startsWithBrand items) eqn:E; [| reflexivity].
  intros H. injection H as <-. rewrite (startsWithBrand_nonEmpty items E). discriminate.
Qed.

Lemma search_skips_emptyHanded
  (before more : list (completion (option (list value)))) :
  Forall emptyHanded before ->
  firstNonEmptyOrRaise (before ++ more) = firstNonEmptyOrRaise more.
Proof.
  induction 1 as [| o before [-> | ->] _ IH]; cbn; auto.
Qed.

Lemma search_agrees (outcomes : list (completion (option (list value)))) :
  Forall completes outcomes ->
  firstNonEmptyOrRaise outcomes = firstNonEmpty outcomes.
Proof.
  induction 1 as [| o outcomes [found ->] _ IH]; cbn; [reflexivity |].
  destruct found as [[| b bs] |]; auto.
Qed.

(** C3 fails as the specification states it: when a strategy raises, the
    [catch] around all five returns the empty list, although a later
    strategy would have found one. *)
Lemma parseAgentResponse_gives_up_on_raise :
  strategy1 raisingFirst = Throw TypeError
  /\ strategy4 raisingFirst = Ok (Some [VObj [("brand_name", VStr "x")]])
  /\ parseAgentResponse raisingFirst = []
  /\ parseAgentResponse raisingFirst <> firstNonEmpty (strategies raisingFirst).
Proof.
  repeat split; try (vm_compute; reflexivity).
  vm_compute. discriminate.
Qed.

(** C3, amended: the orchestrator runs the five strategies in the stated
    order and returns the first list found that is not empty, provided every
    strategy before it completes empty-handed, that is, without raising;
    when all five complete empty-handed it returns the empty list; and it
    agrees with the search of the specification whenever no strategy raises.
    No exception escapes it: its outcome is a list on every response. *)
Theorem parseAgentResponse_first_found (result : value) :
  (forall before found more,
      strategies result = (before ++ Ok (Some found) :: more)%list ->
      found <> [] -> Forall emptyHanded before ->
      parseAgentResponse result = found)
  /\ (Forall emptyHanded (strategies result) -> parseAgentResponse result = [])
  /\ (Forall completes (strategies result) ->
      parseAgentResponse result = firstNonEmpty (strategies result)).
Proof.
  rewrite parseAgentResponse_search. repeat split.
  - intros before found more -> Hfound Hbefore.
    rewrite (search_skips_emptyHanded before _ Hbefore).
    destruct found; [contradiction | reflexivity].
  - intros Hall.
    rewrite <- (app_nil_r (strategies result)).
    now rewrite (search_skips_emptyHanded _ [] Hall).
  - apply search_agrees.
Qed.

Lemma parseAgentResponse_first_found_witness :
  parseAgentResponse fencedRaw = [VObj [("brand_name", VStr "Spotify")]]
  /\ parseAgentResponse (VObj []) = []
  /\ parseAgentResponse fencedRaw = firstNonEmpty (strategies fencedRaw).
Proof.
  split; [| split].
  - apply (proj1 (parseAgentResponse_first_found fencedRaw)
             [Ok None; Ok None; Ok None]
             [VObj [("brand_name", VStr "Spotify")]]
             [Ok None]).
    + vm_compute. reflexivity.
    + discriminate.
    + repeat constructor.
  - apply (proj1 (proj2 (parseAgentResponse_first_found (VObj [])))).
    vm_compute. repeat constructor.
  - apply (proj2 (proj2 (parseAgentResponse_first_found fencedRaw))).
    vm_compute. repeat (constructor; [eexists; reflexivity |]). constructor.
Defined.

(** C9: the fifth strategy is redundant. On every response the orchestrator
    returns what it returns with that strategy taken out: a resolved
    [response.result] that is a list starting with a brand has already been
    returned by the first strategy. *)
Theorem parseAgentResponse_strategy5_redundant (result : value) :
  parseAgentResponse result = parseAgentResponse_no5 result.
Proof.
  unfold parseAgentResponse, parseAgentResponse_no5,
    parseAgentResponse_try, parseAgentResponse_no5_try.
  pose proof (strategy5_covered result) as H5.
  unfold strategy1, strategy5 in H5.
  set (resultData := resolveValue (get (get result "response") "result") 0) in *.
  destruct (findBrandsInObject resultData 0) as [fromResult | e1];
    cbn [bind]; [| reflexivity].
  destruct (nonEmptyList fromResult) eqn:E1; [reflexivity |].
  specialize (H5 fromResult eq_refl E1).
  destruct (findBrandsInObject (get result "response") 0) as [fromResponse | e2];
    cbn [bind]; [| reflexivity].
  destruct (nonEmptyList fromResponse); [reflexivity |].
  destruct (findBrandsInObject result 0) as [fromTopLevel | e3];
    cbn [bind]; [| reflexivity].
  destruct (nonEmptyList fromTopLevel); [reflexivity |].
  destruct (if truthy (get result "raw_response")
            then findBrandsInObject (resolveValue (get result "raw_response") 0) 0
            else Ok None) as [fromRaw | e4]; cbn [bind]; [| reflexivity].
  destruct (nonEmptyList fromRaw); [reflexivity |].
  destruct resultData as [| | | | | items |]; try reflexivity.
  destruct (startsWithBrand items); [discriminate | reflexivity].
Qed.

(** ** The schema mapper *)

Lemma status_of_completes (confidence : value) (status : value) :
  status_of confidence = Ok status ->
  status = VStr (if isVerified confidence then "Complete" else "Partial").
Proof.
  destruct confidence; cbn; intros H; try discriminate; now injection H as <-.
Qed.

Lemma status_of_raises (confidence : value) :
  otherThanString confidence = true -> status_of confidence = Throw TypeError.
Proof. destruct confidence; cbn; intros H; try discriminate; reflexivity. Qed.

(** Where the mapper completes, the status is as the specification says. *)
Lemma mapChatGPTResult_status (r b : value) :
  mapChatGPTResult r = Ok b ->
  get b "status" = VStr (if isVerified (get r "confidence") then "Complete" else "Partial").
Proof.
  unfold mapChatGPTResult.
  destruct (match get (get r "website_details") "product_categories" with
            | VArr _ => _
            | _ => _
            end) as [category | e]; cbn [bind]; [| discriminate].
  destruct (status_of (get r "confidence")) as [status | e] eqn:E;
    cbn [bind]; [| discriminate].
  intros H. injection H as <-. cbn. exact (status_of_completes _ _ E).
Qed.

(** It raises on every record whose confidence is present and not a string. *)
Lemma mapChatGPTResult_raises (r : value) :
  otherThanString (get r "confidence") = true ->
  mapChatGPTResult r = Throw TypeError.
Proof.
  intros H. unfold mapChatGPTResult.
  destruct (match get (get r "website_details") "product_categories" with
            | VArr _ => _
            | _ => _
            end) as [category | []]; cbn [bind]; [| reflexivity].
  now rewrite (status_of_raises _ H).
Qed.

(** C7, the failing input: on a record whose confidence is the number 5 the
    mapper raises a [TypeError] where the specification has it return a
    record of status Partial. *)
Theorem mapChatGPTResult_numeric_confidence :
  mapChatGPTResult numericConfidence = Throw TypeError.
Proof. vm_compute. reflexivity. Qed.

(** ** The metadata extractor *)

Lemma metaFrom_total (p : value) (meta : ResponseMeta) :
  metaFrom p = Some meta ->
  isNumber (total meta) = true
  /\ complete meta = nullish_or (get p "complete_count") zero
  /\ partial meta = nullish_or (get p "partial_count") zero.
Proof.
  unfold metaFrom. destruct (isNumber (get p "total_brands")) eqn:E; [| discriminate].
  intros H. injection H as <-. cbn. auto.
Qed.

Lemma orElse_Some {A : Type} (a b : option A) (x : A) :
  orElse a b = Some x -> a = Some x \/ b = Some x.
Proof. destruct a; cbn; auto. Qed.

(** A candidate answers with the counts of itself, of the JSON in its text
    field or of its resolved result field. *)
Lemma probeCandidate_source (candidate : value) (meta : ResponseMeta) :
  probeCandidate candidate = Some meta ->
  exists p, metaFrom p = Some meta.
Proof.
  unfold probeCandidate.
  destruct (isRecord candidate); cbn [negb]; [| discriminate].
  intros H. apply orElse_Some in H. destruct H as [H | H].
  - destruct (get candidate "text"); try discriminate.
    destruct (isRecord (tryParseString s)); [eauto | discriminate].
  - apply orElse_Some in H. destruct H as [H | H]; [eauto |].
    destruct (has "result" candidate); [| discriminate].
    cbv zeta in H.
    destruct (isRecord (resolveValue (get candidate "result") 0)); [eauto | discriminate].
Qed.

Lemma parseResponseMeta_source (result : value) :
  parseResponseMeta result = noMeta
  \/ exists p, metaFrom p = Some (parseResponseMeta result).
Proof.
  unfold parseResponseMeta. induction (metaCandidates result) as [| c cs IH]; cbn.
  - now left.
  - destruct (probeCandidate c) as [meta |] eqn:E; [| exact IH].
    right. exact (probeCandidate_source _ _ E).
Qed.

(** The total the extractor returns is a number on every response. *)
Lemma parseResponseMeta_total (result : value) :
  isNumber (total (parseResponseMeta result)) = true.
Proof.
  destruct (parseResponseMeta_source result) as [-> | [p Hp]]; [reflexivity |].
  exact (proj1 (metaFrom_total _ _ Hp)).
Qed.

(** C1, the failing input: a [complete_count] that is text, not a number,
    is passed through as it is where the specification has a 0. *)
Theorem parseResponseMeta_text_count :
  parseResponseMeta textCount
  = mkMeta (VNum (mkNumber 3 0)) (VStr "2") (VNum (mkNumber 1 0)).
Proof. vm_compute. reflexivity. Qed.

(** ** The CSV export *)

Lemma unquote_body_doubled (s : string) :
  unquote_body (Str.double_dquotes s ++ String Str.dquote EmptyString) = Some s.
Proof.
  induction s as [| c s IH]; [reflexivity |].
  cbn [Str.double_dquotes].
  destruct (Ascii.eqb c Str.dquote) eqn:E.
  - apply Ascii.eqb_eq in E. subst c.
    cbn [append unquote_body]. rewrite Ascii.eqb_refl, IH. reflexivity.
  - cbn [append unquote_body]. rewrite E, IH. reflexivity.
Qed.

Lemma unquote_quoted (s : string) : unquote (quoted s) = Some s.
Proof.
  unfold quoted, unquote. rewrite Ascii.eqb_refl. apply unquote_body_doubled.
Qed.

Lemma csvCell_text (v : value) :
  stringOrMissing v -> csvCell v = Ok (quoted (textOf v)).
Proof.
  destruct v; cbn; try contradiction; intros _; try reflexivity.
  unfold csvCell, or_else. cbn. destruct s; reflexivity.
Qed.

Lemma map_result_Ok {A B : Type} (f : A -> completion B) (g : A -> B) (xs : list A) :
  Forall (fun x => f x = Ok (g x)) xs ->
  Conv.map_result f xs = Ok (map g xs).
Proof.
  induction 1 as [| x xs Hx _ IH]; cbn; [reflexivity |].
  now rewrite Hx, IH.
Qed.

Lemma csvRow_text (b : value) :
  isBrandRecord b ->
  csvRow b = Ok (Str.join "," (map (fun v => quoted (textOf v)) (csvFields b))).
Proof.
  intros Hb. unfold csvRow.
  rewrite (map_result_Ok csvCell (fun v => quoted (textOf v))); [reflexivity |].
  eapply Forall_impl; [| exact Hb]. exact csvCell_text.
Qed.

(** C4 fails as the specification states it: a field the page itself takes
    for absent, the sentinel text Not Found, is exported as that text and
    not as the empty string. *)
Lemma exportCSV_keeps_sentinel :
  isNotFound (get sampleBrand "logo_url") = Ok true
  /\ csvCell (get sampleBrand "logo_url") = Ok (quoted "Not Found")
  /\ exportCSV [sampleBrand] <> Ok (specCSV [sampleBrand]).
Proof.
  split; [vm_compute; reflexivity |].
  split; [vm_compute; reflexivity |].
  vm_compute. discriminate.
Qed.

(** C4, amended: for every list of Brand records the export is the header
    line followed by one line per brand, each of the 21 fields between double
    quotes with the double quotes inside it doubled, so that reading the cell
    back gives the field; a field that is undefined, null or the empty string
    is exported as the empty string, and every other text, the sentinel Not
    Found included, as it is. *)
Theorem exportCSV_quotes_fields (brands : list value) :
  Forall isBrandRecord brands ->
  exportCSV brands
  = Ok (Str.join (String Str.LF EmptyString)
          (Str.join "," headers
             :: map (fun b => Str.join "," (map (fun v => quoted (textOf v)) (csvFields b)))
                  brands))
  /\ (forall b v, In b brands -> In v (csvFields b) ->
        unquote (quoted (textOf v)) = Some (textOf v)
        /\ (truthy v = false -> textOf v = EmptyString)
        /\ (v = VStr "Not Found" -> textOf v = "Not Found")).
Proof.
  intros Hall. split.
  - unfold exportCSV.
    rewrite (map_result_Ok csvRow
               (fun b => Str.join "," (map (fun v => quoted (textOf v)) (csvFields b))));
      [reflexivity |].
    eapply Forall_impl; [| exact Hall]. exact csvRow_text.
  - intros b v Hb Hv. split; [apply unquote_quoted |]. split.
    + rewrite Forall_forall in Hall. specialize (Hall b Hb).
      unfold isBrandRecord in Hall. rewrite Forall_forall in Hall.
      specialize (Hall v Hv).
      destruct v; cbn in *; try contradiction; try reflexivity.
      destruct s; [reflexivity | discriminate].
    + intros ->. reflexivity.
Qed.

Lemma exportCSV_quotes_fields_witness :
  Forall isBrandRecord [sampleBrand]
  /\ exportCSV [sampleBrand]
     = Ok (Str.join (String Str.LF EmptyString)
             [Str.join "," headers;
              Str.join "," (map (fun v => quoted (textOf v)) (csvFields sampleBrand))]).
Proof.
  assert (Hrecord : Forall isBrandRecord [sampleBrand]) by (repeat constructor).
  split; [exact Hrecord |].
  apply (proj1 (exportCSV_quotes_fields [sampleBrand] Hrecord)).
Defined.

(** ** The brand-name input *)

Lemma split_not_nil (p : ascii -> bool) (s : string) : Str.split p s <> [].
Proof.
  induction s as [| c s IH]; cbn; [discriminate |].
  destruct (p c); [discriminate |].
  destruct (Str.split p s); discriminate.
Qed.

Lemma split_app (p : ascii -> bool) (a b : string) (c : ascii) :
  p c = true ->
  Str.split p (a ++ String c b) = (Str.split p a ++ Str.split p b)%list.
Proof.
  intros Hc. induction a as [| x a IH]; cbn.
  - now rewrite Hc.
  - destruct (p x); [now rewrite IH |].
    rewrite IH. pose proof (split_not_nil p a) as Hne.
    destruct (Str.split p a); [contradiction | reflexivity].
Qed.

Lemma split_whole (s : string) :
  noSeparator s = true -> Str.split is_separator s = [s].
Proof.
  induction s as [| c s IH]; cbn; [reflexivity |].
  destruct (is_separator c); cbn; [discriminate |].
  intros H. now rewrite (IH H).
Qed.

Lemma entries_of_pieces (pieces : list string) :
  filter Str.nonEmpty
    (map (fun l => Str.trim (Str.strip_quote_ends l))
       (filter (fun line => negb (is_header line))
          (filter Str.nonEmpty (map Str.trim pieces))))
  = flat_map entryOf pieces.
Proof.
  induction pieces as [| piece pieces IH]; [reflexivity |].
  cbn [map filter flat_map]. unfold entryOf at 1.
  destruct (Str.nonEmpty (Str.trim piece)); cbn [negb filter]; [| exact IH].
  destruct (is_header (Str.trim piece)); cbn [negb filter map]; [exact IH |].
  destruct (Str.nonEmpty (Str.trim (Str.strip_quote_ends (Str.trim piece))));
    cbn [app]; now rewrite IH.
Qed.

Lemma parseBrandText_pieces (text : string) :
  parseBrandText text = flat_map entryOf (Str.split is_separator text).
Proof. unfold parseBrandText. apply entries_of_pieces. Qed.

Lemma is_quote_mark (c : ascii) : Str.is_quote c = isQuoteMark c.
Proof. destruct c as [[] [] [] [] [] [] [] []]; reflexivity. Qed.

Lemma is_separator_break (c : ascii) : is_separator c = isBreak c.
Proof. destruct c as [[] [] [] [] [] [] [] []]; reflexivity. Qed.

Lemma oneLine_noSeparator (s : string) : oneLine s = true -> noSeparator s = true.
Proof.
  unfold oneLine. induction s as [| c s IH]; cbn; [reflexivity |].
  rewrite is_separator_break. intros H. apply andb_true_iff in H.
  destruct H as [-> H]. exact (IH H).
Qed.

Lemma lower_char_quote (c : ascii) : isQuoteMark (Str.lower_char c) = isQuoteMark c.
Proof. destruct c as [[] [] [] [] [] [] [] []]; reflexivity. Qed.

(** Removing the quotes of the lower-cased line, as the header test does,
    and lower-casing the line without its quotes give the same text. *)
Lemma remove_quotes_lower (s : string) :
  Str.remove_chars Str.is_quote (Str.toLowerCase s)
  = Str.toLowerCase (withoutQuoteMarks s).
Proof.
  unfold withoutQuoteMarks.
  induction s as [| c s IH]; [reflexivity |].
  cbn [Str.toLowerCase Str.remove_chars list_ascii_of_string filter].
  rewrite is_quote_mark, lower_char_quote.
  destruct (isQuoteMark c); cbn [negb string_of_list_ascii Str.toLowerCase];
    now rewrite IH.
Qed.

Lemma is_header_existsb (line : string) :
  is_header line
  = existsb (String.eqb (Str.toLowerCase (withoutQuoteMarks line))) headerTokens.
Proof.
  unfold is_header. cbv zeta. rewrite remove_quotes_lower.
  set (lower := Str.toLowerCase (withoutQuoteMarks line)).
  cbn [existsb headerTokens].
  destruct (lower =? "brand"), (lower =? "name"), (lower =? "brand_name"),
    (lower =? "brand name"), (lower =? "company"), (lower =? "company name");
    reflexivity.
Qed.

Lemma dropTrailingQuote_snoc (s : string) (c : ascii) :
  dropTrailingQuote (s ++ String c EmptyString)
  = if isQuoteMark c then s else s ++ String c EmptyString.
Proof.
  induction s as [| x s IH]; [cbn; destruct (isQuoteMark c); reflexivity |].
  cbn [append dropTrailingQuote].
  destruct (s ++ String c EmptyString) eqn:E.
  - destruct s; discriminate.
  - rewrite IH. now destruct (isQuoteMark c).
Qed.

Lemma rev_drop_rev (s : string) :
  Str.rev (Str.drop_first_if Str.is_quote (Str.rev s)) = dropTrailingQuote s.
Proof.
  rewrite <- (rev_involutive_string s) at 2.
  destruct (Str.rev s) as [| c r]; [reflexivity |].
  rewrite rev_cons, dropTrailingQuote_snoc. cbn [Str.drop_first_if].
  rewrite is_quote_mark. destruct (isQuoteMark c); [reflexivity | now rewrite rev_cons].
Qed.

(** The replacement of the last [map] removes one quote character at the
    start and one at the end. *)
Lemma strip_quote_ends_outer (s : string) :
  Str.strip_quote_ends s = dropTrailingQuote (dropLeadingQuote s).
Proof.
  unfold Str.strip_quote_ends. rewrite rev_drop_rev. f_equal.
  destruct s as [| c s]; [reflexivity |]. cbn. now rewrite is_quote_mark.
Qed.

Lemma nonEmpty_eqb (s : string) : Str.nonEmpty s = negb (String.eqb s "").
Proof. destruct s; reflexivity. Qed.

Lemma entryOf_nameOf (piece : string) : entryOf piece = namesOf (Str.trim piece).
Proof.
  unfold entryOf, namesOf, nameOf. cbv zeta.
  rewrite !nonEmpty_eqb, is_header_existsb, strip_quote_ends_outer.
  destruct (Str.trim piece =? ""); cbn [negb]; [reflexivity |].
  destruct (existsb _ headerTokens); [reflexivity |].
  destruct (Str.trim _ =? ""); reflexivity.
Qed.

(** C8, where the wording fails. The blank and header tests come before
    the quotes are stripped, the header test ignores quote characters
    wherever they stand, and one quote character at most is stripped at
    either end. So the word brand with blanks around it, in double quotes,
    comes out as the name brand, which is a header token; B, double quote,
    rand, which is trimmed, has no quote at either end and is no header
    token, is dropped; and Nike between two double quotes on either side
    comes out with a double quote on either side. *)
Theorem parseBrandText_header_returned :
  (parseBrandText quotedHeader = ["brand"] /\ In "brand" headerTokens)
  /\ (parseBrandText innerQuote = []
      /\ Str.trim innerQuote = innerQuote
      /\ dropTrailingQuote (dropLeadingQuote innerQuote) = innerQuote
      /\ ~ In (Str.toLowerCase innerQuote) headerTokens)
  /\ parseBrandText doublyQuoted
     = [String Str.dquote ("Nike" ++ String Str.dquote "")].
Proof.
  split; [split; [vm_compute; reflexivity | cbn; auto] |].
  split; [| vm_compute; reflexivity].
  split; [vm_compute; reflexivity |].
  split; [vm_compute; reflexivity |].
  split; [vm_compute; reflexivity |].
  cbn. intros H. repeat destruct H as [H | H]; try discriminate H. exact H.
Qed.

(** C8, as the parser has it. The input is cut at every line feed and at
    every comma: the names of a text are those of what stands before the
    cut followed by those of what stands after it. A text with neither in
    it is trimmed and gives at most one name: none when it is then empty;
    none when, without any single or double quote character and in lower
    case, it is one of the six header tokens; else what is left of it
    without one quote character at its start and one at its end, trimmed
    again, unless that is empty. No name returned is empty, and the example
    of the specification gives Nike and Apple. *)
Theorem parseBrandText_by_line :
  (forall a b, parseBrandText (a ++ String "010"%char b)
               = (parseBrandText a ++ parseBrandText b)%list)
  /\ (forall a b, parseBrandText (a ++ String ","%char b)
                  = (parseBrandText a ++ parseBrandText b)%list)
  /\ (forall piece, oneLine piece = true ->
        parseBrandText piece = namesOf (Str.trim piece))
  /\ (forall text name, In name (parseBrandText text) -> name <> EmptyString)
  /\ parseBrandText sampleInput = ["Nike"; "Apple"].
Proof.
  assert (Hcut : forall c a b, is_separator c = true ->
            parseBrandText (a ++ String c b)
            = (parseBrandText a ++ parseBrandText b)%list).
  { intros c a b Hc.
    rewrite !parseBrandText_pieces, (split_app is_separator a b c Hc).
    apply flat_map_app. }
  split; [intros a b; now apply Hcut |].
  split; [intros a b; now apply Hcut |].
  split.
  { intros piece Hp. apply oneLine_noSeparator in Hp.
    rewrite parseBrandText_pieces, (split_whole piece Hp). cbn [flat_map].
    rewrite app_nil_r. apply entryOf_nameOf. }
  split; [| vm_compute; reflexivity].
  intros text name Hin ->. unfold parseBrandText in Hin.
  apply filter_In in Hin. destruct Hin as [_ Hin]. discriminate.
Qed.

Lemma parseBrandText_by_line_witness :
  oneLine quotedNike = true
  /\ parseBrandText quotedNike = ["Nike"]
  /\ parseBrandText " 'H&M' " = ["H&M"]
  /\ parseBrandText quotedHeaderLine = []
  /\ parseBrandText "Marks; Spencer - UK" = ["Marks; Spencer - UK"].
Proof.
  pose proof (proj1 (proj2 (proj2 parseBrandText_by_line))) as Hline.
  split; [reflexivity |].
  split; [rewrite (Hline quotedNike eq_refl); reflexivity |].
  split; [rewrite (Hline " 'H&M' " eq_refl); reflexivity |].
  split; [rewrite (Hline quotedHeaderLine eq_refl); reflexivity |].
  rewrite (Hline "Marks; Spencer - UK" eq_refl). reflexivity.
Defined.

(* ================================================================== *)
(** * Further properties of the engine *)

Arguments resolveValue : simpl never.
Arguments findBrandsInObject : simpl never.

(** ** What the extractor returns *)

Lemma resolveValue_other (v : value) (depth : nat) :
  isString v = false -> resolveValue v depth = v.
Proof.
  intros Hv. rewrite resolveValue_peel. apply peel_fixed.
  destruct v; try reflexivity. discriminate.
Qed.

(** The body of [findBrandsInObject] on an object, within the guard. *)
Lemma findBrandsInObject_record (fields : list (string * value)) (depth : nat) :
  depth <= 4 ->
  findBrandsInObject (VObj fields) depth
  = let record := VObj fields in
    let* standard := checkStandardKeys record ["brands"; "results"] in
    match standard with
    | Some brands => Ok (Some brands)
    | None =>
        let* fromText :=
          match get record "text" with
          | VStr text =>
              if truthy (tryParseString text)
              then findBrandsInObject (tryParseString text) (depth + 1)
              else Ok None
          | _ => Ok None
          end in
        match fromText with
        | Some found => Ok (Some found)
        | None =>
            let* fromResult :=
              if has "result" record
              then findBrandsInObject (resolveValue (get record "result") 0) (depth + 1)
              else Ok None in
            match fromResult with
            | Some found => Ok (Some found)
            | None =>
                let* fromResponse :=
                  if has "response" record
                  then findBrandsInObject (resolveValue (get record "response") 0) (depth + 1)
                  else Ok None in
                match fromResponse with
                | Some found => Ok (Some found)
                | None =>
                    if has "data" record
                    then findBrandsInObject (resolveValue (get record "data") 0) (depth + 1)
                    else Ok None
                end
            end
        end
    end.
Proof.
  intros Hd. simp findBrandsInObject.
  destruct (lt_dec 4 depth) as [Hlt | Hge]; [lia | reflexivity].
Qed.

Lemma findBrandsInObject_scalar (obj : value) (depth : nat) :
  isObject obj = false -> findBrandsInObject obj depth = Ok None.
Proof.
  intros Ho. simp findBrandsInObject.
  destruct (lt_dec 4 depth) as [Hlt | Hge]; [reflexivity |].
  destruct obj; try reflexivity; discriminate.
Qed.

Lemma map_result_cons {A B : Type} (f : A -> completion B) (x : A) (xs : list A)
  (ys : list B) :
  Conv.map_result f (x :: xs) = Ok ys ->
  exists y ys', ys = y :: ys' /\ f x = Ok y /\ Conv.map_result f xs = Ok ys'.
Proof.
  cbn. destruct (f x) as [y | e]; cbn; [| discriminate].
  destruct (Conv.map_result f xs) as [ys' | e]; cbn; [| discriminate].
  intros H. injection H as <-. eauto.
Qed.

Lemma map_result_length {A B : Type} (f : A -> completion B) (xs : list A) :
  forall ys, Conv.map_result f xs = Ok ys -> length ys = length xs.
Proof.
  induction xs as [| x xs IH]; intros ys H.
  - cbn in H. now injection H as <-.
  - apply map_result_cons in H. destruct H as (y & ys' & -> & _ & H).
    cbn. now rewrite (IH ys' H).
Qed.

Lemma mapChatGPTResult_named (r b : value) :
  mapChatGPTResult r = Ok b -> isObject b && has "brand_name" b = true.
Proof.
  unfold mapChatGPTResult.
  destruct (match get (get r "website_details") "product_categories" with
            | VArr _ => _
            | _ => _
            end) as [category | e]; cbn [bind]; [| discriminate].
  destruct (status_of (get r "confidence")) as [status | e]; cbn [bind]; [| discriminate].
  intros H. injection H as <-. reflexivity.
Qed.

Lemma checkStandardKey_brand (record : value) (key : string) (found : list value) :
  checkStandardKey record key = Ok (Some found) -> startsWithBrand found = true.
Proof.
  unfold checkStandardKey.
  destruct (resolveValue (get record key) 0) as [| | | | | [| first rest] |];
    try discriminate.
  destruct (isObject first) eqn:Eo; [| discriminate].
  destruct (has "brand_name" first) eqn:Eb.
  - intros H. injection H as <-. cbn. now rewrite Eo, Eb.
  - destruct (has "website_details" first || has "selected_official_website" first);
      [| discriminate].
    destruct (Conv.map_result mapChatGPTResult (first :: rest)) as [mapped | e] eqn:Em;
      cbn [bind]; [| discriminate].
    intros H. injection H as <-.
    apply map_result_cons in Em. destruct Em as (b & bs & -> & Hb & _).
    cbn. exact (mapChatGPTResult_named _ _ Hb).
Qed.

Lemma checkStandardKeys_brand (record : value) (keys : list string) (found : list value) :
  checkStandardKeys record keys = Ok (Some found) -> startsWithBrand found = true.
Proof.
  induction keys as [| key more IH]; cbn; [discriminate |].
  destruct (checkStandardKey record key) as [[hit |] | e] eqn:E; cbn [bind];
    try discriminate.
  - intros H. injection H as <-. exact (checkStandardKey_brand _ _ _ E).
  - exact IH.
Qed.

Lemma findBrandsInObject_brand_at (n : nat) :
  forall obj depth found,
    5 - depth <= n ->
    findBrandsInObject obj depth = Ok (Some found) ->
    startsWithBrand found = true.
Proof.
  induction n as [| n IH]; intros obj depth found Hn H.
  - rewrite findBrandsInObject_guard in H by lia. discriminate.
  - destruct (le_gt_dec depth 4) as [Hd | Hd];
      [| rewrite findBrandsInObject_guard in H by lia; discriminate].
    assert (Hrec : forall inner out,
               findBrandsInObject inner (depth + 1) = Ok (Some out) ->
               startsWithBrand out = true).
    { intros inner out. apply IH. lia. }
    destruct obj as [| | b | x | s | items | fields];
      try (rewrite findBrandsInObject_scalar in H by reflexivity; discriminate).
    + rewrite findBrandsInObject_list in H by exact Hd.
      destruct (startsWithBrand items) eqn:E; [| discriminate].
      now injection H as <-.
    + rewrite findBrandsInObject_record in H by exact Hd. cbv zeta in H.
      destruct (checkStandardKeys (VObj fields) ["brands"; "results"])
        as [[hit |] | e] eqn:Es; cbn [bind] in H; try discriminate.
      { injection H as <-. exact (checkStandardKeys_brand _ _ _ Es). }
      destruct (match get (VObj fields) "text" with
                | VStr text => _
                | _ => _
                end) as [[out |] | e] eqn:Et; cbn [bind] in H; try discriminate.
      { injection H as <-.
        destruct (get (VObj fields) "text"); try discriminate.
        destruct (truthy (tryParseString s)); [| discriminate].
        exact (Hrec _ _ Et). }
      destruct (if has "result" (VObj fields) then _ else _)
        as [[out |] | e] eqn:Er; cbn [bind] in H; try discriminate.
      { injection H as <-.
        destruct (has "result" (VObj fields)); [| discriminate]. exact (Hrec _ _ Er). }
      destruct (if has "response" (VObj fields) then _ else _)
        as [[out |] | e] eqn:Ep; cbn [bind] in H; try discriminate.
      { injection H as <-.
        destruct (has "response" (VObj fields)); [| discriminate]. exact (Hrec _ _ Ep). }
      destruct (has "data" (VObj fields)); [| discriminate].
      exact (Hrec _ _ H).
Qed.

(** X1: whatever list the extractor returns, from whatever value and depth,
    is not empty and starts with an object that has a key brand_name (found
    as it is, or made by the schema mapper). *)
Theorem findBrandsInObject_starts_with_brand (obj : value) (depth : nat)
  (found : list value) :
  findBrandsInObject obj depth = Ok (Some found) ->
  found <> [] /\ firstIsBrand found.
Proof.
  intros H.
  pose proof (findBrandsInObject_brand_at (5 - depth) obj depth found (le_n _) H) as Hb.
  split.
  - intros ->. discriminate.
  - now apply startsWithBrand_spec.
Qed.

Lemma findBrandsInObject_starts_with_brand_witness :
  exists found,
    findBrandsInObject alternateResults 0 = Ok (Some found)
    /\ found <> [] /\ firstIsBrand found.
Proof.
  eexists. split.
  - vm_compute. reflexivity.
  - apply (findBrandsInObject_starts_with_brand alternateResults 0).
    vm_compute. reflexivity.
Defined.

(** ** The standard keys *)

(** X3: an object whose brands entry resolves (directly, or from JSON text,
    fenced or not) to a list starting with a brand has that list returned as
    it is, whatever else the object holds. *)
Theorem findBrandsInObject_brands_key (fields : list (string * value))
  (items : list value) (depth : nat) :
  depth <= 4 ->
  resolveValue (get (VObj fields) "brands") 0 = VArr items ->
  startsWithBrand items = true ->
  findBrandsInObject (VObj fields) depth = Ok (Some items).
Proof.
  intros Hd Hr Hitems. rewrite findBrandsInObject_record by exact Hd.
  cbv zeta. cbn [checkStandardKeys]. unfold checkStandardKey at 1. rewrite Hr.
  destruct items as [| first rest]; [discriminate |].
  cbn in Hitems. apply andb_true_iff in Hitems. destruct Hitems as [-> ->].
  reflexivity.
Qed.

Lemma findBrandsInObject_brands_key_witness :
  findBrandsInObject
    (VObj [ ("results", VArr [VObj [("website_details", VNull)]]);
            ("brands", VStr ("[{" ++ Json_text.quote "brand_name" ++ ":"
                             ++ Json_text.quote "Nike" ++ "}]")) ]) 2
  = Ok (Some nikeList).
Proof.
  apply findBrandsInObject_brands_key.
  - lia.
  - vm_compute. reflexivity.
  - reflexivity.
Defined.

(** ** The schema mapper on the records it is written for *)

Lemma nullish_or_default (a b : value) : present b -> present (nullish_or a b).
Proof. destruct a; cbn; auto; intros; exact I. Qed.

Lemma toString_scalar (v : value) :
  isScalar v = true -> exists s, Conv.toString v = Ok s.
Proof. destruct v; cbn; intros H; try discriminate; eauto. Qed.

Lemma Array_join_scalars (sep : string) (items : list value) :
  forallb isScalar items = true -> exists s, Conv.Array_join sep items = Ok s.
Proof.
  intros H. unfold Conv.Array_join.
  assert (Hparts : exists parts,
             Conv.map_result
               (fun x => match x with
                         | VUndefined | VNull => Ok EmptyString
                         | _ => Conv.toString x
                         end) items = Ok parts).
  { induction items as [| x items IH]; cbn; [eauto |].
    cbn in H. apply andb_true_iff in H. destruct H as [Hx Hitems].
    destruct (IH Hitems) as [parts ->].
    destruct x; cbn in Hx |- *; try discriminate; eauto. }
  destruct Hparts as [parts ->]. cbn. eauto.
Qed.

Lemma mapChatGPTResult_mappable (r : value) :
  mappable r -> exists b, mapChatGPTResult r = Ok b.
Proof.
  intros [Hc Hp]. unfold mapChatGPTResult.
  assert (Hcat : exists category,
             match get (get r "website_details") "product_categories" with
             | VArr items =>
                 let* joined := Conv.Array_join ", " items in Ok (VStr joined)
             | other => Ok (nullish_or other empty)
             end = Ok category).
  { destruct (get (get r "website_details") "product_categories") eqn:E; eauto.
    destruct (Array_join_scalars ", " items (Hp items eq_refl)) as [s ->].
    cbn. eauto. }
  destruct Hcat as [category ->]. cbn [bind].
  destruct (get r "confidence"); try discriminate; cbn; eauto.
Qed.

Lemma mapChatGPTResult_fields (r b : value) :
  mapChatGPTResult r = Ok b -> Forall present (csvFields b).
Proof.
  unfold mapChatGPTResult.
  destruct (match get (get r "website_details") "product_categories" with
            | VArr _ => _
            | _ => _
            end) as [category | e] eqn:Ec; cbn [bind]; [| discriminate].
  destruct (status_of (get r "confidence")) as [status | e] eqn:Es;
    cbn [bind]; [| discriminate].
  intros H. injection H as <-.
  assert (Hcat : present category).
  { destruct (get (get r "website_details") "product_categories");
      try (injection Ec as <-; exact I).
    destruct (Conv.Array_join ", " items); [| discriminate].
    cbn in Ec. injection Ec as <-. exact I. }
  assert (Hst : present status).
  { apply status_of_completes in Es. subst status. exact I. }
  unfold csvFields. cbn.
  repeat (constructor;
          [first [exact Hcat | exact Hst | exact I
                 | repeat apply nullish_or_default; exact I] |]).
  constructor.
Qed.

(** X4: on a record whose confidence is a string or missing, and whose
    product categories, when a list, hold strings, numbers, booleans or
    nulls, the mapper completes; and wherever it completes, every field the
    page reads from the record is there (none is undefined or null) and the
    status is Complete when the confidence reads verified in any letter
    case, Partial otherwise. *)
Theorem mapChatGPTResult_record (r : value) :
  (mappable r -> exists b, mapChatGPTResult r = Ok b)
  /\ (forall b,
         mapChatGPTResult r = Ok b ->
         Forall present (csvFields b)
         /\ get b "status"
            = VStr (if isVerified (get r "confidence") then "Complete" else "Partial")).
Proof.
  split; [exact (mapChatGPTResult_mappable r) |].
  intros b Hb. split.
  - exact (mapChatGPTResult_fields r b Hb).
  - exact (mapChatGPTResult_status r b Hb).
Qed.

Lemma mapChatGPTResult_record_witness :
  mappable lcw
  /\ exists b,
       mapChatGPTResult lcw = Ok b
       /\ Forall present (csvFields b)
       /\ get b "status" = VStr "Complete"
       /\ get b "product_category" = VStr "Women, Men, ".
Proof.
  assert (Hm : mappable lcw).
  { split; [reflexivity |]. intros items H. injection H as <-. reflexivity. }
  split; [exact Hm |].
  destruct (proj1 (mapChatGPTResult_record lcw) Hm) as [b Hb].
  exists b. split; [exact Hb |].
  destruct (proj2 (mapChatGPTResult_record lcw) b Hb) as [Hf Hs].
  split; [exact Hf |]. split; [exact Hs |].
  assert (Hv : mapChatGPTResult lcw
               = Ok (match mapChatGPTResult lcw with Ok x => x | Throw _ => VNull end))
    by (vm_compute; reflexivity).
  rewrite Hv in Hb. injection Hb as <-. vm_compute. reflexivity.
Defined.

Lemma map_result_Forall2 {A B : Type} (f : A -> completion B) (xs : list A) :
  Forall (fun x => exists y, f x = Ok y) xs ->
  exists ys, Conv.map_result f xs = Ok ys /\ Forall2 (fun x y => f x = Ok y) xs ys.
Proof.
  induction 1 as [| x xs [y Hy] _ (ys & Hys & Hall)]; cbn.
  - exists []. split; [reflexivity | constructor].
  - rewrite Hy, Hys. cbn. exists (y :: ys). split; [reflexivity |].
    constructor; assumption.
Qed.

(** X5: when the list under brands starts with an object that has no
    brand_name but carries website_details or selected_official_website, and
    every element is a record the mapper is written for, the extractor
    returns the list mapped element by element: same length, same order. *)
Theorem findBrandsInObject_alternate (fields : list (string * value))
  (first : value) (rest : list value) (depth : nat) :
  depth <= 4 ->
  resolveValue (get (VObj fields) "brands") 0 = VArr (first :: rest) ->
  isObject first = true ->
  has "brand_name" first = false ->
  has "website_details" first || has "selected_official_website" first = true ->
  Forall mappable (first :: rest) ->
  exists mapped,
    findBrandsInObject (VObj fields) depth = Ok (Some mapped)
    /\ Forall2 (fun r b => mapChatGPTResult r = Ok b) (first :: rest) mapped.
Proof.
  intros Hd Hr Ho Hb Ha Hall.
  destruct (map_result_Forall2 mapChatGPTResult (first :: rest)) as (mapped & Hm & H2).
  { eapply Forall_impl; [| exact Hall]. exact mapChatGPTResult_mappable. }
  exists mapped. split; [| exact H2].
  rewrite findBrandsInObject_record by exact Hd.
  cbv zeta. cbn [checkStandardKeys]. unfold checkStandardKey at 1.
  rewrite Hr, Ho, Hb, Ha, Hm. reflexivity.
Qed.

Lemma findBrandsInObject_alternate_witness :
  exists mapped,
    findBrandsInObject (VObj [("brands", VArr [lcw; VObj []])]) 0 = Ok (Some mapped)
    /\ Forall2 (fun r b => mapChatGPTResult r = Ok b) [lcw; VObj []] mapped.
Proof.
  apply (findBrandsInObject_alternate [("brands", VArr [lcw; VObj []])] lcw [VObj []] 0).
  - lia.
  - vm_compute. reflexivity.
  - reflexivity.
  - reflexivity.
  - reflexivity.
  - repeat constructor; intros items H; try discriminate.
    injection H as <-. reflexivity.
Defined.

(** ** What the orchestrator returns *)

Lemma strategy_brand (result : value) (o : completion (option (list value)))
  (found : list value) :
  In o (strategies result) -> o = Ok (Some found) -> startsWithBrand found = true.
Proof.
  unfold strategies. cbn [In]. intros Hin ->.
  assert (Hfind : forall obj,
             findBrandsInObject obj 0 = Ok (Some found) -> startsWithBrand found = true).
  { intros obj. apply (findBrandsInObject_brand_at 5). lia. }
  repeat destruct Hin as [Hin | Hin]; try contradiction.
  - exact (Hfind _ Hin).
  - exact (Hfind _ Hin).
  - exact (Hfind _ Hin).
  - unfold strategy4 in Hin.
    destruct (truthy (get result "raw_response")); [exact (Hfind _ Hin) | discriminate].
  - unfold strategy5 in Hin.
    destruct (resolveValue (get (get result "response") "result") 0); try discriminate.
    destruct (startsWithBrand items) eqn:E; [| discriminate].
    now injection Hin as <-.
Qed.

Lemma search_brand (outcomes : list (completion (option (list value)))) :
  (forall o found, In o outcomes -> o = Ok (Some found) -> startsWithBrand found = true) ->
  firstNonEmptyOrRaise outcomes = []
  \/ startsWithBrand (firstNonEmptyOrRaise outcomes) = true.
Proof.
  induction outcomes as [| o outcomes IH]; intros Hall; [now left |].
  destruct o as [[[| b bs] |] | e]; cbn [firstNonEmptyOrRaise].
  - apply IH. intros o found Hin. apply Hall. now right.
  - right. apply (Hall (Ok (Some (b :: bs)))); [now left | reflexivity].
  - apply IH. intros o found Hin. apply Hall. now right.
  - now left.
Qed.

(** X6: on every response, the list the orchestrator hands to the page is
    empty or starts with an object that has a key brand_name. *)
Theorem parseAgentResponse_brands (result : value) :
  parseAgentResponse result = [] \/ firstIsBrand (parseAgentResponse result).
Proof.
  rewrite parseAgentResponse_search.
  destruct (search_brand (strategies result) (strategy_brand result)) as [H | H].
  - now left.
  - right. now apply startsWithBrand_spec.
Qed.

Lemma lacks_get (keys : list string) (v : value) (key : string) :
  lacks keys v = true -> In key keys -> has key v = false /\ get v key = VUndefined.
Proof.
  unfold lacks. rewrite forallb_forall. intros Hall Hin.
  specialize (Hall key Hin). apply negb_true_iff in Hall.
  split; [exact Hall |].
  destruct v; try reflexivity. cbn in *.
  destruct (lookup key fields); [discriminate | reflexivity].
Qed.

Lemma checkStandardKeys_lacking (v : value) :
  has "brands" v = false -> has "results" v = false ->
  checkStandardKeys v ["brands"; "results"] = Ok None.
Proof.
  intros Hb Hr.
  assert (Hget : forall key, has key v = false -> checkStandardKey v key = Ok None).
  { intros key Hk. unfold checkStandardKey.
    replace (get v key) with VUndefined.
    - now rewrite (resolveValue_other VUndefined 0 eq_refl).
    - destruct v; try reflexivity. cbn in *.
      destruct (lookup key fields); [discriminate | reflexivity]. }
  cbn. now rewrite (Hget "brands" Hb), (Hget "results" Hr).
Qed.

(** The extractor on an object that holds nothing but a [result] that is
    no container: nothing is found. *)
Lemma findBrandsInObject_barren (fields : list (string * value)) (depth : nat) :
  lacks ["brands"; "results"; "text"; "response"; "data"] (VObj fields) = true ->
  isObject (resolveValue (get (VObj fields) "result") 0) = false ->
  findBrandsInObject (VObj fields) depth = Ok None.
Proof.
  intros Hl Hres.
  destruct (le_gt_dec depth 4) as [Hd | Hd]; [| now apply findBrandsInObject_guard].
  rewrite findBrandsInObject_record by exact Hd. cbv zeta.
  destruct (lacks_get _ _ "brands" Hl ltac:(cbn; tauto)) as [Hb _].
  destruct (lacks_get _ _ "results" Hl ltac:(cbn; tauto)) as [Hr _].
  destruct (lacks_get _ _ "text" Hl ltac:(cbn; tauto)) as [_ Ht].
  destruct (lacks_get _ _ "response" Hl ltac:(cbn; tauto)) as [Hp _].
  destruct (lacks_get _ _ "data" Hl ltac:(cbn; tauto)) as [Hdt _].
  rewrite (checkStandardKeys_lacking _ Hb Hr), Ht, Hp, Hdt. cbn [bind].
  destruct (has "result" (VObj fields)); [| reflexivity].
  now rewrite (findBrandsInObject_scalar _ _ Hres).
Qed.

(** ** How deep the extractor looks *)

Lemma has_get_undefined (key : string) (v : value) :
  has key v = false -> get v key = VUndefined.
Proof.
  destruct v; try reflexivity. cbn.
  destruct (lookup key fields); [discriminate | reflexivity].
Qed.

Lemma inside_other (n : nat) (v : value) (items : list value) :
  inside n v = Some (VArr items) -> isString v = false.
Proof.
  destruct n as [| n]; cbn [inside].
  - intros H. injection H as ->. reflexivity.
  - destruct v; try reflexivity. cbn. discriminate.
Qed.

(** Through an envelope the extractor goes one level down, to what lies
    under the one key. *)
Lemma findBrandsInObject_envelope (v : value) (key : string) (depth : nat) :
  filter (fun key => has key v) probedKeys = [key] ->
  isContainerKey key = true ->
  isString (get v key) = false ->
  depth <= 4 ->
  findBrandsInObject v depth = findBrandsInObject (get v key) (depth + 1).
Proof.
  intros Hkeys Hk Hs Hd.
  destruct v as [| | | | | | fields]; try discriminate Hkeys.
  rewrite findBrandsInObject_record by exact Hd. cbv zeta.
  unfold probedKeys in Hkeys. cbn [filter] in Hkeys.
  destruct (has "brands" (VObj fields)) eqn:Hbrands,
           (has "results" (VObj fields)) eqn:Hresults,
           (has "text" (VObj fields)) eqn:Htext,
           (has "result" (VObj fields)) eqn:Hresult,
           (has "response" (VObj fields)) eqn:Hresponse,
           (has "data" (VObj fields)) eqn:Hdata;
    try discriminate Hkeys;
    injection Hkeys as <-; try discriminate Hk;
    rewrite (checkStandardKeys_lacking _ Hbrands Hresults),
            (has_get_undefined _ _ Htext);
    cbn [bind];
    rewrite (resolveValue_other _ 0 Hs);
    destruct (findBrandsInObject _ (depth + 1)) as [[found |] | e]; reflexivity.
Qed.

(** X2: a brand list that lies [n] envelopes inside a value (each envelope
    an object holding the next one under result, response or data, holding
    none of the other keys the extractor reads, and any other keys) is
    found by a call at [depth] when [depth + n] is at most 4, and is not
    found (null, no exception) when [depth + n] is more than 4. *)
Theorem findBrandsInObject_reach (v : value) (items : list value) (n depth : nat) :
  inside n v = Some (VArr items) ->
  startsWithBrand items = true ->
  (depth + n <= 4 -> findBrandsInObject v depth = Ok (Some items))
  /\ (depth + n > 4 -> findBrandsInObject v depth = Ok None).
Proof.
  intros Hin Hitems. revert v depth Hin.
  induction n as [| n IH]; intros v depth Hin; cbn [inside] in Hin.
  - injection Hin as ->. split; intros Hd.
    + rewrite findBrandsInObject_list by lia. now rewrite Hitems.
    + apply findBrandsInObject_guard. lia.
  - destruct (filter (fun key => has key v) probedKeys) as [| key [| ? ?]] eqn:Hkeys;
      try discriminate Hin.
    destruct (isContainerKey key) eqn:Hk; [| discriminate Hin].
    destruct (le_gt_dec depth 4) as [Hd | Hd].
    + rewrite (findBrandsInObject_envelope v key depth Hkeys Hk (inside_other _ _ _ Hin) Hd).
      destruct (IH _ (depth + 1) Hin) as [Hfound Hnot].
      split; intros Hlen; [apply Hfound | apply Hnot]; lia.
    + split; intros Hlen; [lia |]. apply findBrandsInObject_guard. exact Hd.
Qed.

Lemma findBrandsInObject_reach_witness :
  findBrandsInObject envelopedNike 0 = Ok (Some nikeList)
  /\ findBrandsInObject envelopedNike 1 = Ok None.
Proof.
  split.
  - apply (proj1 (findBrandsInObject_reach envelopedNike nikeList 4 0 eq_refl eq_refl)).
    cbn. lia.
  - apply (proj2 (findBrandsInObject_reach envelopedNike nikeList 4 1 eq_refl eq_refl)).
    cbn. lia.
Defined.

(** ** An answer without data *)

(** X7: an answer that holds no data gives no brands and no counts. When
    [response.result] resolves to anything but an object or a list (prose,
    a number, nothing at all), and neither the envelope nor its [response]
    holds one of the other keys the engine probes, the orchestrator returns
    the empty list and the metadata extractor returns all zeros. *)
Theorem parse_nothing_found (top response : list (string * value)) :
  get (VObj top) "response" = VObj response ->
  isObject (resolveValue (get (VObj response) "result") 0) = false ->
  lacks ["brands"; "results"; "text"; "result"; "data"; "raw_response"; "total_brands"]
    (VObj top) = true ->
  lacks ["brands"; "results"; "text"; "response"; "data"; "total_brands"]
    (VObj response) = true ->
  parseAgentResponse (VObj top) = []
  /\ parseResponseMeta (VObj top) = noMeta.
Proof.
  intros Hresp Hres Htop Hin.
  destruct (lacks_get _ _ "raw_response" Htop ltac:(cbn; tauto)) as [_ Hraw].
  assert (Hin' : lacks ["brands"; "results"; "text"; "response"; "data"]
                   (VObj response) = true).
  { unfold lacks in *. cbn [forallb] in *.
    repeat (apply andb_true_iff in Hin; destruct Hin as [? Hin]).
    repeat (apply andb_true_iff; split); assumption. }
  pose proof (findBrandsInObject_barren response) as Hbarren.
  split.
  - rewrite parseAgentResponse_search.
    unfold strategies, strategy1, strategy2, strategy3, strategy4, strategy5.
    rewrite Hresp, Hraw.
    rewrite (findBrandsInObject_scalar _ 0 Hres), (Hbarren 0 Hin' Hres).
    assert (H3 : findBrandsInObject (VObj top) 0 = Ok None).
    { rewrite findBrandsInObject_record by lia. cbv zeta.
      destruct (lacks_get _ _ "brands" Htop ltac:(cbn; tauto)) as [Hb _].
      destruct (lacks_get _ _ "results" Htop ltac:(cbn; tauto)) as [Hr _].
      destruct (lacks_get _ _ "text" Htop ltac:(cbn; tauto)) as [_ Ht].
      destruct (lacks_get _ _ "result" Htop ltac:(cbn; tauto)) as [Hrs _].
      destruct (lacks_get _ _ "data" Htop ltac:(cbn; tauto)) as [Hdt _].
      rewrite (checkStandardKeys_lacking _ Hb Hr), Ht, Hrs, Hdt, Hresp. cbn [bind].
      destruct (has "response" (VObj top)); [| reflexivity].
      rewrite (resolveValue_other (VObj response) 0 eq_refl).
      now rewrite (Hbarren (0 + 1) Hin' Hres). }
    rewrite H3. cbn [truthy firstNonEmptyOrRaise].
    destruct (resolveValue (get (VObj response) "result") 0);
      try reflexivity; discriminate.
  - unfold parseResponseMeta, metaCandidates. rewrite Hresp, Hraw. cbn [truthy app firstMeta].
    assert (H1 : probeCandidate (resolveValue (get (VObj response) "result") 0) = None).
    { unfold probeCandidate.
      destruct (resolveValue (get (VObj response) "result") 0);
        try reflexivity; discriminate. }
    assert (H2 : probeCandidate (VObj response) = None).
    { unfold probeCandidate, metaFrom. cbn [isRecord negb].
      destruct (lacks_get _ _ "text" Hin ltac:(cbn; tauto)) as [_ ->].
      destruct (lacks_get _ _ "total_brands" Hin ltac:(cbn; tauto)) as [_ ->].
      cbn [isNumber orElse].
      destruct (has "result" (VObj response)); [| reflexivity].
      cbv zeta.
      destruct (resolveValue (get (VObj response) "result") 0);
        try reflexivity; discriminate. }
    assert (H3 : probeCandidate (VObj top) = None).
    { unfold probeCandidate, metaFrom. cbn [isRecord negb].
      destruct (lacks_get _ _ "text" Htop ltac:(cbn; tauto)) as [_ ->].
      destruct (lacks_get _ _ "total_brands" Htop ltac:(cbn; tauto)) as [_ ->].
      destruct (lacks_get _ _ "result" Htop ltac:(cbn; tauto)) as [-> _].
      reflexivity. }
    now rewrite H1, H2, H3.
Qed.

Lemma parse_nothing_found_witness :
  parseAgentResponse proseAnswer = [] /\ parseResponseMeta proseAnswer = noMeta.
Proof.
  apply (parse_nothing_found
           [ ("success", VBool true);
             ("response",
              VObj [ ("result", VStr "I could not verify any of these brands.");
                     ("message", VStr "done") ]) ]
           [ ("result", VStr "I could not verify any of these brands.");
             ("message", VStr "done") ]).
  - reflexivity.
  - vm_compute. reflexivity.
  - reflexivity.
  - reflexivity.
Defined.

(** ** The counts *)

Lemma hasTotal_record (p : value) : hasTotal p = true -> isRecord p = true.
Proof. destruct p; try discriminate. reflexivity. Qed.

Lemma metaFrom_counts (p : value) :
  metaFrom p = if hasTotal p then Some (countsOf p) else None.
Proof. reflexivity. Qed.

(** What a candidate answers is read from the first of the objects it puts
    to the test that has a numeric total. *)
Lemma probeCandidate_first (candidate : value) :
  probeCandidate candidate = option_map countsOf (find hasTotal (probed candidate)).
Proof.
  unfold probeCandidate, probed.
  destruct (isRecord candidate) eqn:Hc; cbn [negb]; [| reflexivity].
  rewrite !metaFrom_counts.
  assert (Hone : forall p more,
            find hasTotal (filter isRecord (p :: more))
            = if hasTotal p then Some p else find hasTotal (filter isRecord more)).
  { intros p more. cbn [filter].
    destruct (hasTotal p) eqn:Hp.
    - rewrite (hasTotal_record p Hp). cbn [find]. now rewrite Hp.
    - destruct (isRecord p); [cbn [find]; now rewrite Hp | reflexivity]. }
  assert (Hrest : option_map countsOf
                    (find hasTotal
                       (filter isRecord
                          (candidate ::
                             (if has "result" candidate
                              then [resolveValue (get candidate "result") 0]
                              else []))))
                  = orElse (if hasTotal candidate then Some (countsOf candidate) else None)
                      (if has "result" candidate
                       then let inner := resolveValue (get candidate "result") 0 in
                            if isRecord inner then metaFrom inner else None
                       else None)).
  { rewrite Hone. destruct (hasTotal candidate); [reflexivity |]. cbn [orElse].
    destruct (has "result" candidate); [| reflexivity]. cbv zeta.
    rewrite Hone, metaFrom_counts. cbn [filter find].
    destruct (hasTotal (resolveValue _ 0)) eqn:Hp.
    - rewrite (hasTotal_record _ Hp). reflexivity.
    - destruct (isRecord (resolveValue _ 0)); reflexivity. }
  destruct (get candidate "text") as [| | | | text | |]; cbn [app];
    try (cbn [orElse]; now rewrite Hrest).
  rewrite Hone, metaFrom_counts.
  destruct (hasTotal (tryParseString text)) eqn:Hp.
  - now rewrite (hasTotal_record _ Hp).
  - rewrite Hrest. now destruct (isRecord (tryParseString text)).
Qed.

Lemma find_app_first {A : Type} (f : A -> bool) (xs ys : list A) :
  find f (xs ++ ys)
  = match find f xs with Some x => Some x | None => find f ys end.
Proof.
  induction xs as [| x xs IH]; [reflexivity |].
  cbn. destruct (f x); [reflexivity | exact IH].
Qed.

Lemma parseResponseMeta_first (result : value) :
  parseResponseMeta result
  = match find hasTotal (flat_map probed (metaCandidates result)) with
    | Some p => countsOf p
    | None => noMeta
    end.
Proof.
  unfold parseResponseMeta.
  induction (metaCandidates result) as [| c cs IH]; [reflexivity |].
  cbn [firstMeta flat_map]. rewrite probeCandidate_first, find_app_first.
  destruct (find hasTotal (probed c)); [reflexivity | exact IH].
Qed.

(** X8: on every response the metadata extractor returns the counts of
    the first object with a numeric total_brands among the objects it
    puts to the test (for each candidate in turn: the JSON of its text
    field, the candidate, its resolved result field), a complete_count or
    partial_count that is missing or null being replaced by 0, and all
    zeros when there is no such object. So the total returned is a number
    and neither of the other two counts is undefined or null. *)
Theorem parseResponseMeta_counts (result : value) :
  parseResponseMeta result
  = match find hasTotal (flat_map probed (metaCandidates result)) with
    | Some p => countsOf p
    | None => noMeta
    end
  /\ isNumber (total (parseResponseMeta result)) = true
  /\ present (complete (parseResponseMeta result))
  /\ present (partial (parseResponseMeta result)).
Proof.
  split; [apply parseResponseMeta_first |].
  split; [apply parseResponseMeta_total |].
  rewrite parseResponseMeta_first.
  destruct (find hasTotal _) as [p |]; cbn [complete partial countsOf noMeta].
  - split; apply nullish_or_default; exact I.
  - split; exact I.
Qed.

(** X9: the counts of [response.result] come first. When it resolves to an
    object whose total_brands is a number and whose text entry is not a
    string, its counts are returned whatever [response], the envelope and
    [raw_response] hold. *)
Theorem parseResponseMeta_result_first (result : value)
  (counts : list (string * value)) :
  resolveValue (get (get result "response") "result") 0 = VObj counts ->
  isString (get (VObj counts) "text") = false ->
  isNumber (get (VObj counts) "total_brands") = true ->
  parseResponseMeta result
  = mkMeta (get (VObj counts) "total_brands")
           (nullish_or (get (VObj counts) "complete_count") zero)
           (nullish_or (get (VObj counts) "partial_count") zero).
Proof.
  intros Hr Ht Hn. unfold parseResponseMeta, metaCandidates. rewrite Hr.
  cbn [app firstMeta]. unfold probeCandidate, metaFrom. cbn [isRecord negb].
  rewrite Hn.
  destruct (get (VObj counts) "text"); try reflexivity. discriminate.
Qed.

Lemma parseResponseMeta_result_first_witness :
  parseResponseMeta
    (VObj [ ("total_brands", five);
            ("response",
             VObj [ ("total_brands", VNum (mkNumber 9 0));
                    ("result",
                     VStr ("{" ++ Json_text.quote "total_brands" ++ ":2,"
                           ++ Json_text.quote "partial_count" ++ ":null}")) ]) ])
  = mkMeta (VNum (mkNumber 2 0)) zero zero.
Proof.
  apply (parseResponseMeta_result_first _
           [("total_brands", VNum (mkNumber 2 0)); ("partial_count", VNull)]).
  - vm_compute. reflexivity.
  - reflexivity.
  - reflexivity.
Defined.

(** ** When the export raises *)

Lemma csvCell_exportable (v : value) :
  (exportable v = true -> exists cell, csvCell v = Ok cell)
  /\ (exportable v = false -> csvCell v = Throw TypeError).
Proof.
  unfold exportable, csvCell, or_else.
  destruct v as [| | [|] | [negative | negative | | negative m e] | [| c s] | items | fields];
    cbn; split; intros H; try discriminate; try reflexivity; eauto.
Qed.

Lemma map_result_outcome {A B : Type} (f : A -> completion B) (ok : A -> bool)
  (xs : list A) :
  (forall x, (ok x = true -> exists y, f x = Ok y)
             /\ (ok x = false -> f x = Throw TypeError)) ->
  (forallb ok xs = true -> exists ys, Conv.map_result f xs = Ok ys)
  /\ (forallb ok xs = false -> Conv.map_result f xs = Throw TypeError).
Proof.
  intros Hf. induction xs as [| x xs [IHok IHbad]]; cbn.
  - split; [eauto | discriminate].
  - destruct (Hf x) as [Hok Hbad]. destruct (ok x); cbn.
    + destruct (Hok eq_refl) as [y ->]. cbn. split; intros H.
      * destruct (IHok H) as [ys ->]. cbn. eauto.
      * now rewrite (IHbad H).
    + rewrite (Hbad eq_refl). cbn. split; [discriminate | reflexivity].
Qed.

Lemma csvRow_outcome (b : value) :
  (forallb exportable (csvFields b) = true -> exists line, csvRow b = Ok line)
  /\ (forallb exportable (csvFields b) = false -> csvRow b = Throw TypeError).
Proof.
  unfold csvRow.
  destruct (map_result_outcome csvCell exportable (csvFields b) csvCell_exportable)
    as [Hok Hbad].
  split; intros H.
  - destruct (Hok H) as [cells ->]. cbn. eauto.
  - now rewrite (Hbad H).
Qed.

(** X10: the export completes exactly when every field it reads, of every
    brand, is a string or a falsy value (undefined, null, false, 0, the empty
    string); one field that is anything else, a year sent as a number for
    instance, makes the whole export raise a [TypeError]. *)
Theorem exportCSV_outcome (brands : list value) :
  (forallb (fun b => forallb exportable (csvFields b)) brands = true ->
   exists csv, exportCSV brands = Ok csv)
  /\ (forallb (fun b => forallb exportable (csvFields b)) brands = false ->
      exportCSV brands = Throw TypeError).
Proof.
  unfold exportCSV.
  destruct (map_result_outcome csvRow (fun b => forallb exportable (csvFields b))
              brands csvRow_outcome) as [Hok Hbad].
  split; intros H.
  - destruct (Hok H) as [rows ->]. cbn. eauto.
  - now rewrite (Hbad H).
Qed.

Lemma exportCSV_outcome_witness :
  (exists csv, exportCSV [sampleBrand; awkwardBrand] = Ok csv)
  /\ exportCSV [sampleBrand; numericYear] = Throw TypeError.
Proof.
  split.
  - apply (proj1 (exportCSV_outcome [sampleBrand; awkwardBrand])). reflexivity.
  - apply (proj2 (exportCSV_outcome [sampleBrand; numericYear])). reflexivity.
Defined.

(** ** Reading the export back *)

Lemma read_body (s t field : string) (row : list string) (rows : list (list string)) :
  readCSV_from (Str.double_dquotes s ++ t) InQuotes field row rows
  = readCSV_from t InQuotes (Str.rev_append s field) row rows.
Proof.
  revert field. induction s as [| c s IH]; intros field; [reflexivity |].
  cbn [Str.double_dquotes Str.rev_append].
  destruct (Ascii.eqb c Str.dquote) eqn:E.
  - apply Ascii.eqb_eq in E. subst c.
    cbn [append readCSV_from]. rewrite !Ascii.eqb_refl. apply IH.
  - cbn [append readCSV_from]. rewrite E. apply IH.
Qed.

Lemma read_cell (s t : string) (row : list string) (rows : list (list string)) :
  readCSV_from (quoted s ++ t) AtStart EmptyString row rows
  = readCSV_from t AfterQuote (Str.rev s) row rows.
Proof.
  unfold quoted. cbn [append readCSV_from]. rewrite Ascii.eqb_refl.
  rewrite append_assoc, read_body. cbn [append readCSV_from].
  rewrite Ascii.eqb_refl. reflexivity.
Qed.

Lemma read_comma (t field : string) (row : list string) (rows : list (list string)) :
  readCSV_from (String ","%char t) AfterQuote field row rows
  = readCSV_from t AtStart EmptyString (Str.rev field :: row) rows.
Proof. reflexivity. Qed.

Lemma read_LF (t field : string) (row : list string) (rows : list (list string)) :
  readCSV_from (String Str.LF t) AfterQuote field row rows
  = readCSV_from t AtStart EmptyString [] (endRow field row rows).
Proof. reflexivity. Qed.

Lemma last_cons {A : Type} (l : list A) (a d : A) : last (a :: l) d = last l a.
Proof.
  revert a d. induction l as [| b l IH]; intros a d; [reflexivity |].
  change (last (a :: b :: l) d) with (last (b :: l) d).
  rewrite (IH b d). symmetry. apply IH.
Qed.

(** A line of quoted cells, read up to what follows it. *)
Lemma read_cells (texts : list string) :
  forall (first t : string) (row : list string) (rows : list (list string)),
    readCSV_from (Str.join "," (map quoted (first :: texts)) ++ t) AtStart EmptyString
      row rows
    = readCSV_from t AfterQuote (Str.rev (last texts first))
        (List.rev (removelast (first :: texts)) ++ row)%list rows.
Proof.
  induction texts as [| second texts IH]; intros first t row rows.
  - cbn [map Str.join last removelast List.rev app]. apply read_cell.
  - change (Str.join "," (map quoted (first :: second :: texts)))
      with (quoted first ++ "," ++ Str.join "," (map quoted (second :: texts))).
    rewrite !append_assoc, read_cell.
    change ("," ++ Str.join "," (map quoted (second :: texts)) ++ t)
      with (String ","%char (Str.join "," (map quoted (second :: texts)) ++ t)).
    rewrite read_comma, rev_involutive_string, IH.
    rewrite (last_cons texts second first).
    change (removelast (first :: second :: texts))
      with (first :: removelast (second :: texts)).
    cbn [List.rev]. now rewrite <- app_assoc.
Qed.

Lemma endRow_cells (first : string) (texts : list string) (rows : list (list string)) :
  endRow (Str.rev (last texts first))
    (List.rev (removelast (first :: texts)) ++ [])%list rows
  = (first :: texts) :: rows.
Proof.
  unfold endRow. rewrite rev_involutive_string, app_nil_r.
  cbn [List.rev]. rewrite rev_involutive.
  rewrite <- (last_cons texts first first).
  rewrite <- app_removelast_last by discriminate. reflexivity.
Qed.

Lemma read_line (first : string) (texts : list string) (t : string)
  (rows : list (list string)) :
  readCSV_from (Str.join "," (map quoted (first :: texts)) ++ String Str.LF t)
    AtStart EmptyString [] rows
  = readCSV_from t AtStart EmptyString [] ((first :: texts) :: rows).
Proof. now rewrite read_cells, read_LF, endRow_cells. Qed.

Lemma read_last_line (first : string) (texts : list string)
  (rows : list (list string)) :
  readCSV_from (Str.join "," (map quoted (first :: texts))) AtStart EmptyString [] rows
  = Some (List.rev ((first :: texts) :: rows)).
Proof.
  rewrite <- (append_nil_r (Str.join "," (map quoted (first :: texts)))).
  rewrite read_cells. cbn [readCSV_from]. now rewrite endRow_cells.
Qed.

Lemma read_lines (records : list (list string)) :
  Forall (fun cells => cells <> []) records ->
  forall (cells : list string) (rows : list (list string)),
    cells <> [] ->
    readCSV_from
      (Str.join (String Str.LF EmptyString)
         (map (fun r => Str.join "," (map quoted r)) (cells :: records)))
      AtStart EmptyString [] rows
    = Some (List.rev rows ++ cells :: records)%list.
Proof.
  induction 1 as [| next records Hnext _ IH]; intros cells rows Hcells.
  - destruct cells as [| first texts]; [contradiction |].
    change (readCSV_from (Str.join "," (map quoted (first :: texts)))
              AtStart EmptyString [] rows
            = Some (List.rev rows ++ [first :: texts])%list).
    rewrite read_last_line. reflexivity.
  - destruct cells as [| first texts]; [contradiction |].
    change (Str.join (String Str.LF EmptyString)
              (map (fun r => Str.join "," (map quoted r))
                 ((first :: texts) :: next :: records)))
      with (Str.join "," (map quoted (first :: texts))
            ++ String Str.LF
                 (Str.join (String Str.LF EmptyString)
                    (map (fun r => Str.join "," (map quoted r)) (next :: records)))).
    rewrite read_line, (IH next _ Hnext). cbn [List.rev].
    now rewrite <- app_assoc.
Qed.

Lemma read_headers (t : string) :
  readCSV_from (Str.join "," headers ++ String Str.LF t) AtStart EmptyString [] []
  = readCSV_from t AtStart EmptyString [] [headers].
Proof. reflexivity. Qed.

(** X11: what the export writes can be read back. For every list of Brand
    records, a reader of CSV after RFC 4180 gets from the exported text the
    header row followed by one row per brand holding the 21 field texts as
    they were, commas, double quotes and line feeds inside them included. *)
Theorem exportCSV_read_back (brands : list value) (csv : string) :
  Forall isBrandRecord brands ->
  exportCSV brands = Ok csv ->
  readCSV csv = Some (headers :: map (fun b => map textOf (csvFields b)) brands).
Proof.
  intros Hall. unfold exportCSV.
  rewrite (map_result_Ok csvRow
             (fun b => Str.join "," (map quoted (map textOf (csvFields b))))).
  2:{ eapply Forall_impl; [| exact Hall].
      intros b Hb. rewrite (csvRow_text b Hb), map_map. reflexivity. }
  cbn [bind].
  match goal with
  | |- Ok ?text = Ok _ -> _ =>
      intros H; assert (E : csv = text) by congruence; rewrite E; clear E H
  end.
  unfold readCSV.
  destruct brands as [| b brands]; [reflexivity |].
  change (Str.join (String Str.LF EmptyString)
            (Str.join "," headers
               :: map (fun b0 => Str.join "," (map quoted (map textOf (csvFields b0))))
                    (b :: brands)))
    with (Str.join "," headers
          ++ String Str.LF
               (Str.join (String Str.LF EmptyString)
                  (map (fun b0 => Str.join "," (map quoted (map textOf (csvFields b0))))
                     (b :: brands)))).
  rewrite read_headers.
  rewrite <- (map_map (fun b0 => map textOf (csvFields b0))
                (fun r => Str.join "," (map quoted r))).
  change (map (fun b0 => map textOf (csvFields b0)) (b :: brands))
    with (map textOf (csvFields b) :: map (fun b0 => map textOf (csvFields b0)) brands).
  rewrite read_lines; [reflexivity | | discriminate].
  apply Forall_forall. intros cells Hin. apply in_map_iff in Hin.
  destruct Hin as (b0 & <- & _). discriminate.
Qed.

Lemma exportCSV_read_back_witness :
  Forall isBrandRecord [sampleBrand; awkwardBrand]
  /\ exists csv,
       exportCSV [sampleBrand; awkwardBrand] = Ok csv
       /\ readCSV csv
          = Some (headers
                    :: map (fun b => map textOf (csvFields b)) [sampleBrand; awkwardBrand]).
Proof.
  assert (Hrecords : Forall isBrandRecord [sampleBrand; awkwardBrand])
    by (repeat constructor).
  split; [exact Hrecords |].
  eexists. split.
  - vm_compute. reflexivity.
  - apply (exportCSV_read_back [sampleBrand; awkwardBrand]); [exact Hrecords |].
    vm_compute. reflexivity.
Defined.

(** ** Trimming *)

Lemma trimStart_fixed (s : string) : startsBlank s = false -> Str.trimStart s = s.
Proof.
  destruct s as [| c1 [| c2 [| c3 r3]]]; cbn; try reflexivity.
  - destruct (Str.ws1 c1); [discriminate | reflexivity].
  - destruct (Str.ws1 c1); [discriminate |].
    destruct (Str.ws2 c1 c2); [discriminate | reflexivity].
  - destruct (Str.ws1 c1); [discriminate |].
    destruct (Str.ws2 c1 c2); [discriminate |].
    destruct (Str.ws3 c1 c2 c3); [discriminate | reflexivity].
Qed.

Lemma trimStart_rev_fixed (s : string) :
  startsBlank_rev s = false -> Str.trimStart_rev s = s.
Proof.
  destruct s as [| c1 [| c2 [| c3 r3]]]; cbn; try reflexivity.
  - destruct (Str.ws1 c1); [discriminate | reflexivity].
  - destruct (Str.ws1 c1); [discriminate |].
    destruct (Str.ws2 c2 c1); [discriminate | reflexivity].
  - destruct (Str.ws1 c1); [discriminate |].
    destruct (Str.ws2 c2 c1); [discriminate |].
    destruct (Str.ws3 c3 c2 c1); [discriminate | reflexivity].
Qed.

(** What is trimmed off the start is a prefix, and what is left does not
    begin with white space. *)
Lemma trimStart_cut (n : nat) :
  forall s, String.length s <= n ->
            startsBlank (Str.trimStart s) = false
            /\ exists a, s = a ++ Str.trimStart s.
Proof.
  induction n as [| n IH]; intros s Hn.
  { destruct s; [| cbn in Hn; lia]. split; [reflexivity | now exists EmptyString]. }
  destruct s as [| c1 r1]; [split; [reflexivity | now exists EmptyString] |].
  cbn [String.length] in Hn. cbn [Str.trimStart].
  destruct (Str.ws1 c1) eqn:E1.
  { destruct (IH r1 ltac:(lia)) as [Hc [a Ha]]. split; [exact Hc |].
    exists (String c1 a). cbn. now rewrite <- Ha. }
  destruct r1 as [| c2 r2].
  { split; [cbn; now rewrite E1 | now exists EmptyString]. }
  cbn [String.length] in Hn.
  destruct (Str.ws2 c1 c2) eqn:E2.
  { destruct (IH r2 ltac:(lia)) as [Hc [a Ha]]. split; [exact Hc |].
    exists (String c1 (String c2 a)). cbn. now rewrite <- Ha. }
  destruct r2 as [| c3 r3].
  { split; [cbn; now rewrite E1, E2 | now exists EmptyString]. }
  cbn [String.length] in Hn.
  destruct (Str.ws3 c1 c2 c3) eqn:E3.
  { destruct (IH r3 ltac:(lia)) as [Hc [a Ha]]. split; [exact Hc |].
    exists (String c1 (String c2 (String c3 a))). cbn. now rewrite <- Ha. }
  split; [cbn; now rewrite E1, E2, E3 | now exists EmptyString].
Qed.

Lemma trimStart_rev_cut (n : nat) :
  forall s, String.length s <= n ->
            startsBlank_rev (Str.trimStart_rev s) = false
            /\ exists a, s = a ++ Str.trimStart_rev s.
Proof.
  induction n as [| n IH]; intros s Hn.
  { destruct s; [| cbn in Hn; lia]. split; [reflexivity | now exists EmptyString]. }
  destruct s as [| c1 r1]; [split; [reflexivity | now exists EmptyString] |].
  cbn [String.length] in Hn. cbn [Str.trimStart_rev].
  destruct (Str.ws1 c1) eqn:E1.
  { destruct (IH r1 ltac:(lia)) as [Hc [a Ha]]. split; [exact Hc |].
    exists (String c1 a). cbn. now rewrite <- Ha. }
  destruct r1 as [| c2 r2].
  { split; [cbn; now rewrite E1 | now exists EmptyString]. }
  cbn [String.length] in Hn.
  destruct (Str.ws2 c2 c1) eqn:E2.
  { destruct (IH r2 ltac:(lia)) as [Hc [a Ha]]. split; [exact Hc |].
    exists (String c1 (String c2 a)). cbn. now rewrite <- Ha. }
  destruct r2 as [| c3 r3].
  { split; [cbn; now rewrite E1, E2 | now exists EmptyString]. }
  cbn [String.length] in Hn.
  destruct (Str.ws3 c3 c2 c1) eqn:E3.
  { destruct (IH r3 ltac:(lia)) as [Hc [a Ha]]. split; [exact Hc |].
    exists (String c1 (String c2 (String c3 a))). cbn. now rewrite <- Ha. }
  split; [cbn; now rewrite E1, E2, E3 | now exists EmptyString].
Qed.

Lemma startsBlank_prefix (z b : string) :
  startsBlank (z ++ b) = false -> startsBlank z = false.
Proof.
  destruct z as [| c1 [| c2 [| c3 r3]]]; cbn; try reflexivity.
  - intros H. apply orb_false_iff in H. destruct H as [-> _]. reflexivity.
  - intros H. apply orb_false_iff in H. destruct H as [-> H].
    destruct b; [exact H |].
    apply orb_false_iff in H. destruct H as [-> _]. reflexivity.
  - auto.
Qed.

Lemma trimEnd_prefix (s : string) : exists b, s = Str.trimEnd s ++ b.
Proof.
  unfold Str.trimEnd.
  destruct (proj2 (trimStart_rev_cut _ (Str.rev s) (le_n _))) as [a Ha].
  exists (Str.rev a).
  rewrite <- rev_app, <- Ha. symmetry. apply rev_involutive_string.
Qed.

Lemma trimEnd_idempotent (s : string) : Str.trimEnd (Str.trimEnd s) = Str.trimEnd s.
Proof.
  unfold Str.trimEnd. rewrite rev_involutive_string. f_equal.
  apply trimStart_rev_fixed.
  exact (proj1 (trimStart_rev_cut _ (Str.rev s) (le_n _))).
Qed.

Lemma trim_idempotent (s : string) : Str.trim (Str.trim s) = Str.trim s.
Proof.
  unfold Str.trim.
  pose proof (proj1 (trimStart_cut _ s (le_n _))) as Hclean.
  destruct (trimEnd_prefix (Str.trimStart s)) as [b Hb].
  rewrite Hb in Hclean. apply startsBlank_prefix in Hclean.
  rewrite (trimStart_fixed _ Hclean). apply trimEnd_idempotent.
Qed.

Lemma every_app (p : ascii -> bool) (a b : string) :
  every p (a ++ b) = every p a && every p b.
Proof.
  induction a as [| c a IH]; cbn; [reflexivity |].
  now rewrite IH, andb_assoc.
Qed.

Lemma every_rev (p : ascii -> bool) (s : string) : every p (Str.rev s) = every p s.
Proof.
  induction s as [| c s IH]; [reflexivity |].
  rewrite rev_cons, every_app, IH. cbn. rewrite andb_true_r. apply andb_comm.
Qed.

Lemma every_trim (p : ascii -> bool) (s : string) :
  every p s = true -> every p (Str.trim s) = true.
Proof.
  intros Hs. unfold Str.trim.
  destruct (proj2 (trimStart_cut _ s (le_n _))) as [a Ha].
  destruct (trimEnd_prefix (Str.trimStart s)) as [b Hb].
  rewrite Ha, every_app in Hs. apply andb_true_iff in Hs. destruct Hs as [_ Hs].
  rewrite Hb, every_app in Hs. apply andb_true_iff in Hs. now destruct Hs.
Qed.

Lemma every_drop_first (p q : ascii -> bool) (s : string) :
  every p s = true -> every p (Str.drop_first_if q s) = true.
Proof.
  destruct s as [| c s]; cbn; [reflexivity |].
  intros H. destruct (q c); [| exact H].
  apply andb_true_iff in H. now destruct H.
Qed.

Lemma every_strip_quote_ends (p : ascii -> bool) (s : string) :
  every p s = true -> every p (Str.strip_quote_ends s) = true.
Proof.
  intros H. unfold Str.strip_quote_ends.
  rewrite every_rev. apply every_drop_first.
  rewrite every_rev. now apply every_drop_first.
Qed.

Lemma split_pieces (p : ascii -> bool) (s : string) :
  Forall (fun piece => every (fun c => negb (p c)) piece = true) (Str.split p s).
Proof.
  induction s as [| c s IH]; cbn; [repeat constructor |].
  destruct (p c) eqn:E; [constructor; [reflexivity | exact IH] |].
  destruct (Str.split p s) as [| piece rest]; [repeat constructor; cbn; now rewrite E |].
  inversion IH as [| ? ? Hpiece Hrest]; subst.
  constructor; [cbn; now rewrite E, Hpiece | exact Hrest].
Qed.

(** X12: every name the brand-name parser returns is trimmed (trimming it
    again changes nothing) and holds no comma and no line feed. *)
Theorem parseBrandText_names (text name : string) :
  In name (parseBrandText text) ->
  Str.trim name = name /\ every (fun c => negb (is_separator c)) name = true.
Proof.
  unfold parseBrandText. intros Hin.
  apply filter_In in Hin. destruct Hin as [Hin _].
  apply in_map_iff in Hin. destruct Hin as (line & <- & Hin).
  apply filter_In in Hin. destruct Hin as [Hin _].
  apply filter_In in Hin. destruct Hin as [Hin _].
  apply in_map_iff in Hin. destruct Hin as (piece & <- & Hin).
  split; [apply trim_idempotent |].
  apply every_trim, every_strip_quote_ends, every_trim.
  pose proof (split_pieces is_separator text) as Hall.
  rewrite Forall_forall in Hall. exact (Hall piece Hin).
Qed.

Lemma parseBrandText_names_witness :
  In "H&M" (parseBrandText sampleCsv)
  /\ Str.trim "H&M" = "H&M"
  /\ every (fun c => negb (is_separator c)) "H&M" = true.
Proof.
  assert (Hin : In "H&M" (parseBrandText sampleCsv)) by (vm_compute; auto).
  split; [exact Hin |].
  exact (parseBrandText_names sampleCsv "H&M" Hin).
Defined.

(** ** Absence *)

Lemma trim_empty_nonEmpty (s : string) :
  Str.nonEmpty s = false -> Str.trim s = EmptyString.
Proof. destruct s; [reflexivity | discriminate]. Qed.

Lemma isNotFound_string (s : string) :
  isNotFound (VStr s)
  = Ok (String.eqb (Str.toLowerCase (Str.trim s)) "not found"
        || String.eqb (Str.trim s) "").
Proof.
  unfold isNotFound. cbn [truthy].
  destruct (Str.nonEmpty s) eqn:E; cbn [negb]; [reflexivity |].
  rewrite (trim_empty_nonEmpty s E). reflexivity.
Qed.

Lemma code_lower_char (c : ascii) :
  (isLetterCode (Str.code c) /\ isLetterCode (Str.code (Str.lower_char c)))
  \/ Str.lower_char c = c.
Proof.
  unfold Str.lower_char. cbv zeta.
  destruct ((65 <=? Str.code c) && (Str.code c <=? 90))%nat eqn:E; [| now right].
  left. apply andb_true_iff in E. destruct E as [H1 H2].
  apply Nat.leb_le in H1, H2. unfold isLetterCode, Str.code in *.
  rewrite nat_ascii_embedding by lia. lia.
Qed.

Lemma ws1_letter (c : ascii) : isLetterCode (Str.code c) -> Str.ws1 c = false.
Proof.
  unfold isLetterCode, Str.ws1. cbv zeta. intros H.
  destruct (Nat.leb_spec (Str.code c) 13); [lia |].
  destruct (Nat.eqb_spec (Str.code c) 32); [lia |].
  now rewrite andb_false_r.
Qed.

Lemma ws2_letter (c1 c2 : ascii) :
  isLetterCode (Str.code c1) \/ isLetterCode (Str.code c2) -> Str.ws2 c1 c2 = false.
Proof.
  unfold isLetterCode, Str.ws2. intros [H | H].
  - destruct (Nat.eqb_spec (Str.code c1) 194); [lia | reflexivity].
  - destruct (Nat.eqb_spec (Str.code c2) 160); [lia | apply andb_false_r].
Qed.

Lemma ws3_letter (c1 c2 c3 : ascii) :
  isLetterCode (Str.code c1) \/ isLetterCode (Str.code c2) \/ isLetterCode (Str.code c3) ->
  Str.ws3 c1 c2 c3 = false.
Proof.
  unfold isLetterCode, Str.ws3. cbv zeta. intros H.
  destruct (Nat.eqb_spec (Str.code c1) 225), (Nat.eqb_spec (Str.code c1) 226),
    (Nat.eqb_spec (Str.code c1) 227), (Nat.eqb_spec (Str.code c1) 239);
    try lia; cbn [andb orb]; try reflexivity;
    destruct (Nat.eqb_spec (Str.code c2) 154), (Nat.eqb_spec (Str.code c2) 128),
      (Nat.eqb_spec (Str.code c2) 129), (Nat.eqb_spec (Str.code c2) 187);
    try lia; cbn [andb orb]; try reflexivity;
    destruct (Nat.eqb_spec (Str.code c3) 128), (Nat.eqb_spec (Str.code c3) 168),
      (Nat.eqb_spec (Str.code c3) 169), (Nat.eqb_spec (Str.code c3) 175),
      (Nat.eqb_spec (Str.code c3) 159), (Nat.eqb_spec (Str.code c3) 191),
      (Nat.leb_spec 128 (Str.code c3)), (Nat.leb_spec (Str.code c3) 138);
    try lia; reflexivity.
Qed.

Lemma ws1_lower (c : ascii) : Str.ws1 (Str.lower_char c) = Str.ws1 c.
Proof.
  destruct (code_lower_char c) as [[H H'] | ->]; [| reflexivity].
  now rewrite !ws1_letter.
Qed.

Lemma ws2_lower (c1 c2 : ascii) :
  Str.ws2 (Str.lower_char c1) (Str.lower_char c2) = Str.ws2 c1 c2.
Proof.
  destruct (code_lower_char c1) as [[H H'] | ->]; [now rewrite !ws2_letter by auto |].
  destruct (code_lower_char c2) as [[H H'] | ->]; [now rewrite !ws2_letter by auto |].
  reflexivity.
Qed.

Lemma ws3_lower (c1 c2 c3 : ascii) :
  Str.ws3 (Str.lower_char c1) (Str.lower_char c2) (Str.lower_char c3) = Str.ws3 c1 c2 c3.
Proof.
  destruct (code_lower_char c1) as [[H H'] | ->]; [now rewrite !ws3_letter by auto |].
  destruct (code_lower_char c2) as [[H H'] | ->]; [now rewrite !ws3_letter by auto |].
  destruct (code_lower_char c3) as [[H H'] | ->]; [now rewrite !ws3_letter by auto |].
  reflexivity.
Qed.

Lemma trimStart_lower (n : nat) :
  forall s, String.length s <= n ->
            Str.trimStart (Str.toLowerCase s) = Str.toLowerCase (Str.trimStart s).
Proof.
  induction n as [| n IH]; intros s Hn.
  { destruct s; [reflexivity | cbn in Hn; lia]. }
  destruct s as [| c1 r1]; [reflexivity |].
  cbn [String.length] in Hn. cbn [Str.toLowerCase Str.trimStart]. rewrite ws1_lower.
  destruct (Str.ws1 c1); [apply IH; lia |].
  destruct r1 as [| c2 r2]; [reflexivity |].
  cbn [String.length] in Hn. cbn [Str.toLowerCase]. rewrite ws2_lower.
  destruct (Str.ws2 c1 c2); [apply IH; lia |].
  destruct r2 as [| c3 r3]; [reflexivity |].
  cbn [String.length] in Hn. cbn [Str.toLowerCase]. rewrite ws3_lower.
  destruct (Str.ws3 c1 c2 c3); [apply IH; lia | reflexivity].
Qed.

Lemma trimStart_rev_lower (n : nat) :
  forall s, String.length s <= n ->
            Str.trimStart_rev (Str.toLowerCase s) = Str.toLowerCase (Str.trimStart_rev s).
Proof.
  induction n as [| n IH]; intros s Hn.
  { destruct s; [reflexivity | cbn in Hn; lia]. }
  destruct s as [| c1 r1]; [reflexivity |].
  cbn [String.length] in Hn. cbn [Str.toLowerCase Str.trimStart_rev]. rewrite ws1_lower.
  destruct (Str.ws1 c1); [apply IH; lia |].
  destruct r1 as [| c2 r2]; [reflexivity |].
  cbn [String.length] in Hn. cbn [Str.toLowerCase]. rewrite ws2_lower.
  destruct (Str.ws2 c2 c1); [apply IH; lia |].
  destruct r2 as [| c3 r3]; [reflexivity |].
  cbn [String.length] in Hn. cbn [Str.toLowerCase]. rewrite ws3_lower.
  destruct (Str.ws3 c3 c2 c1); [apply IH; lia | reflexivity].
Qed.

Lemma toLowerCase_app (a b : string) :
  Str.toLowerCase (a ++ b) = Str.toLowerCase a ++ Str.toLowerCase b.
Proof. induction a as [| c a IH]; cbn; [reflexivity | now rewrite IH]. Qed.

Lemma toLowerCase_rev (s : string) :
  Str.toLowerCase (Str.rev s) = Str.rev (Str.toLowerCase s).
Proof.
  induction s as [| c s IH]; [reflexivity |].
  cbn [Str.toLowerCase]. now rewrite !rev_cons, toLowerCase_app, IH.
Qed.

Lemma trim_lower (s : string) :
  Str.trim (Str.toLowerCase s) = Str.toLowerCase (Str.trim s).
Proof.
  unfold Str.trim, Str.trimEnd.
  rewrite (trimStart_lower _ s (le_n _)), <- toLowerCase_rev.
  rewrite (trimStart_rev_lower _ _ (le_n _)). apply eq_sym, toLowerCase_rev.
Qed.

Lemma lower_char_idempotent (c : ascii) :
  Str.lower_char (Str.lower_char c) = Str.lower_char c.
Proof.
  unfold Str.lower_char at 2 3. cbv zeta.
  destruct ((65 <=? Str.code c) && (Str.code c <=? 90))%nat eqn:E.
  - apply andb_true_iff in E. destruct E as [H1 H2]. apply Nat.leb_le in H1, H2.
    unfold Str.lower_char. cbv zeta. unfold Str.code in *.
    rewrite nat_ascii_embedding by lia.
    destruct (Nat.leb_spec (nat_of_ascii c + 32) 90); [lia |].
    now rewrite andb_false_r.
  - unfold Str.lower_char. cbv zeta. now rewrite E.
Qed.

Lemma toLowerCase_idempotent (s : string) :
  Str.toLowerCase (Str.toLowerCase s) = Str.toLowerCase s.
Proof.
  induction s as [| c s IH]; cbn; [reflexivity |].
  now rewrite lower_char_idempotent, IH.
Qed.

Lemma toLowerCase_empty (s : string) :
  String.eqb (Str.toLowerCase s) "" = String.eqb s "".
Proof. destruct s; reflexivity. Qed.

(** X13: [isNotFound] never raises on a string, [undefined] or [null], and
    on a string its answer depends neither on the white space around the
    text nor on the case of its letters: the string, the string trimmed and
    the string in lower case get the same answer. *)
Theorem isNotFound_normalises (s : string) :
  (exists absent, isNotFound (VStr s) = Ok absent)
  /\ isNotFound VUndefined = Ok true
  /\ isNotFound VNull = Ok true
  /\ isNotFound (VStr (Str.trim s)) = isNotFound (VStr s)
  /\ isNotFound (VStr (Str.toLowerCase s)) = isNotFound (VStr s).
Proof.
  rewrite !isNotFound_string. split; [eauto |].
  split; [reflexivity |]. split; [reflexivity |]. split.
  - now rewrite trim_idempotent.
  - now rewrite trim_lower, toLowerCase_idempotent, toLowerCase_empty.
Qed.

(** ** Fenced JSON *)

Lemma cut_clean (a b : string) :
  every notBackquote a = true -> Str.cut "```" (a ++ "```" ++ b) = Some (a, b).
Proof.
  induction a as [| c a IH]; intros Ha; [reflexivity |].
  cbn [every] in Ha. apply andb_true_iff in Ha. destruct Ha as [Hc Ha].
  unfold notBackquote in Hc. apply negb_true_iff in Hc.
  rewrite Ascii.eqb_sym in Hc.
  change ((String c a) ++ "```" ++ b) with (String c (a ++ "```" ++ b)).
  cbn [Str.cut Str.strip_prefix]. rewrite Hc. now rewrite (IH Ha).
Qed.

Lemma startsBlank_before_LF (p t : string) :
  startsBlank p = false -> Str.nonEmpty p = true ->
  startsBlank (p ++ String Str.LF t) = false.
Proof.
  destruct p as [| c1 [| c2 [| c3 r3]]]; cbn [append startsBlank]; try discriminate.
  - intros H _. rewrite orb_false_r in H. rewrite H. cbn [orb].
    assert (H2 : Str.ws2 c1 Str.LF = false) by (unfold Str.ws2; apply andb_false_r).
    rewrite H2. cbn [orb]. destruct t as [| c3 t]; [reflexivity |].
    unfold Str.ws3. cbn. now rewrite !andb_false_r.
  - intros H _. apply orb_false_iff in H. destruct H as [-> H].
    rewrite orb_false_r in H. rewrite H. cbn [orb].
    unfold Str.ws3. cbn. now rewrite !andb_false_r.
  - auto.
Qed.

Lemma drop_last_LF_added (p : string) : drop_last_LF (p ++ String Str.LF "") = p.
Proof.
  unfold drop_last_LF. rewrite rev_app. cbn. apply rev_involutive_string.
Qed.

Lemma fenced_trimmed (tagged : bool) (payload : string) :
  Str.trim (fenced tagged payload) = fenced tagged payload.
Proof.
  unfold Str.trim. rewrite trimStart_fixed by (destruct tagged; reflexivity).
  unfold Str.trimEnd. rewrite trimStart_rev_fixed; [apply rev_involutive_string |].
  unfold fenced. rewrite !rev_app, rev_cons, rev_app, !append_assoc. reflexivity.
Qed.

Lemma JSON_parse_backquote (r : string) : JSON_parse (String "`"%char r) = None.
Proof.
  unfold JSON_parse, Json.parse_text, Json.fuel_for.
  rewrite Nat.add_1_r. reflexivity.
Qed.

Lemma codeBlockMatch_fenced (tagged : bool) (payload : string) :
  every notBackquote payload = true ->
  startsBlank payload = false ->
  Str.nonEmpty payload = true ->
  codeBlockMatch (fenced tagged payload) = Some payload.
Proof.
  intros Hq Hs Hn. unfold codeBlockMatch, fenced.
  assert (Hbody : Str.cut "```" (Str.trimStart (String Str.LF (payload ++ String Str.LF "```")))
                  = Some (payload ++ String Str.LF "", EmptyString)).
  { change (Str.trimStart (String Str.LF (payload ++ String Str.LF "```")))
      with (Str.trimStart (payload ++ String Str.LF "```")).
    rewrite trimStart_fixed by (now apply startsBlank_before_LF).
    replace (payload ++ String Str.LF "```")
      with ((payload ++ String Str.LF "") ++ "```" ++ "")
      by (now rewrite append_assoc).
    apply cut_clean. rewrite every_app, Hq. reflexivity. }
  destruct tagged.
  - change (Str.cut "```" ("```" ++ "json" ++ String Str.LF (payload ++ String Str.LF "```")))
      with (Some (EmptyString, "json" ++ String Str.LF (payload ++ String Str.LF "```"))).
    cbv iota beta.
    change (Str.strip_prefix "json" ("json" ++ String Str.LF (payload ++ String Str.LF "```")))
      with (Some (String Str.LF (payload ++ String Str.LF "```"))).
    cbv iota beta zeta. rewrite Hbody. now rewrite drop_last_LF_added.
  - change (Str.cut "```" ("```" ++ "" ++ String Str.LF (payload ++ String Str.LF "```")))
      with (Some (EmptyString, String Str.LF (payload ++ String Str.LF "```"))).
    cbv iota beta.
    change (Str.strip_prefix "json" (String Str.LF (payload ++ String Str.LF "```")))
      with (@None string).
    cbv iota beta zeta. rewrite Hbody. now rewrite drop_last_LF_added.
Qed.

(** X14: JSON inside a markdown fence is found. For a payload without
    backquotes that does not begin with white space, fenced with or without
    the tag json, [tryParseString] returns what [JSON.parse] reads from the
    trimmed payload. *)
Theorem tryParseString_fenced (tagged : bool) (payload : string) (v : value) :
  every notBackquote payload = true ->
  startsBlank payload = false ->
  JSON_parse (Str.trim payload) = Some v ->
  tryParseString (fenced tagged payload) = v.
Proof.
  intros Hq Hs Hv.
  assert (Hn : Str.nonEmpty payload = true).
  { destruct payload; [| reflexivity]. discriminate. }
  unfold tryParseString.
  replace (Str.nonEmpty (fenced tagged payload)) with true by (now destruct tagged).
  cbn [negb]. cbv zeta. rewrite fenced_trimmed.
  replace (JSON_parse (fenced tagged payload)) with (@None value)
    by (symmetry; apply JSON_parse_backquote).
  rewrite (codeBlockMatch_fenced tagged payload Hq Hs Hn), Hn, Hv. reflexivity.
Qed.

Lemma tryParseString_fenced_witness :
  tryParseString (fenced true "{}  ") = VObj []
  /\ tryParseString (fenced false "[1]") = VArr [VNum (mkNumber 1 0)].
Proof.
  split.
  - apply tryParseString_fenced; reflexivity.
  - apply tryParseString_fenced; reflexivity.
Defined.

(** ** Sorting and expanding rows *)

Lemma SortField_eqb_spec (a b : SortField) : SortField_eqb a b = true <-> a = b.
Proof. destruct a, b; cbn; split; intros H; try discriminate; reflexivity. Qed.

Lemma SortField_eqb_refl (a : SortField) : SortField_eqb a a = true.
Proof. now apply SortField_eqb_spec. Qed.

Lemma handleSort_again (field : SortField) (d : SortDirection) (n : nat) :
  Nat.iter n (handleSort field) (mkSort field d)
  = mkSort field (if Nat.even n then d
                  else match d with asc => desc | desc => asc end).
Proof.
  induction n as [| n IH]; [reflexivity |].
  rewrite Nat.iter_succ, IH. unfold handleSort. cbn [sortField sortDirection].
  rewrite SortField_eqb_refl. rewrite Nat.even_succ, <- Nat.negb_even.
  destruct (Nat.even n), d; reflexivity.
Qed.

(** X15: clicks on one column header. After any number of clicks (at least
    one) on the header of a field the table is sorted by that field; coming
    from another field the direction is ascending after an odd number of
    clicks and descending after an even number; on the field already sorted
    by, every second click brings the direction back. *)
Theorem handleSort_clicks (field : SortField) (st : TableSort) (n : nat) :
  sortField (Nat.iter (S n) (handleSort field) st) = field
  /\ (sortField st <> field ->
      sortDirection (Nat.iter (S n) (handleSort field) st)
      = if Nat.even n then asc else desc)
  /\ (sortField st = field ->
      Nat.iter (2 * n) (handleSort field) st = st).
Proof.
  assert (Hfirst : sortField st <> field ->
                   Nat.iter (S n) (handleSort field) st
                   = mkSort field (if Nat.even n then asc else desc)).
  { intros Hne. rewrite Nat.iter_succ_r. unfold handleSort at 2.
    destruct (SortField_eqb (sortField st) field) eqn:E;
      [apply SortField_eqb_spec in E; contradiction |].
    apply handleSort_again. }
  assert (Hsame : sortField st = field ->
                  forall m, Nat.iter m (handleSort field) st
                            = mkSort field (if Nat.even m then sortDirection st
                                            else match sortDirection st with
                                                 | asc => desc
                                                 | desc => asc
                                                 end)).
  { intros He m. destruct st as [f d]. cbn in He. subst f. apply handleSort_again. }
  split; [| split].
  - destruct (SortField_eqb (sortField st) field) eqn:E.
    + apply SortField_eqb_spec in E. now rewrite (Hsame E).
    + rewrite Hfirst; [reflexivity |]. intros He. apply SortField_eqb_spec in He. congruence.
  - intros Hne. now rewrite (Hfirst Hne).
  - intros He. rewrite (Hsame He).
    replace (Nat.even (2 * n)) with true.
    + destruct st as [f d]. cbn in *. now subst f.
    + symmetry. apply Nat.even_spec. now exists n.
Qed.

Lemma handleSort_clicks_witness :
  sortDirection (Nat.iter 3 (handleSort by_status) (mkSort by_brand_name desc)) = asc
  /\ Nat.iter 4 (handleSort by_status) (mkSort by_status desc) = mkSort by_status desc.
Proof.
  split.
  - apply (proj1 (proj2 (handleSort_clicks by_status (mkSort by_brand_name desc) 2))).
    discriminate.
  - apply (proj2 (proj2 (handleSort_clicks by_status (mkSort by_status desc) 2))).
    reflexivity.
Defined.

Lemma Set_has_app (x : nat) (s t : list nat) :
  Set_has x (s ++ t) = Set_has x s || Set_has x t.
Proof. unfold Set_has. apply existsb_app. Qed.

Lemma Set_has_delete (x y : nat) (s : list nat) :
  Set_has x (Set_delete y s) = Set_has x s && negb (Nat.eqb x y).
Proof.
  unfold Set_has, Set_delete. induction s as [| z s IH]; [reflexivity |].
  cbn [filter existsb].
  destruct (Nat.eqb_spec z y) as [-> | Hzy]; cbn [negb].
  - rewrite IH. destruct (Nat.eqb_spec x y); cbn; [now rewrite andb_false_r |].
    now destruct (existsb (Nat.eqb x) s).
  - cbn [existsb]. rewrite IH.
    destruct (Nat.eqb_spec x z) as [-> | Hxz]; cbn; [| reflexivity].
    destruct (Nat.eqb_spec z y); [contradiction | reflexivity].
Qed.

Lemma Set_has_toggle (x idx : nat) (s : list nat) :
  Set_has x (toggleRow idx s)
  = if Nat.eqb x idx then negb (Set_has idx s) else Set_has x s.
Proof.
  unfold toggleRow, Set_add. cbv zeta.
  destruct (Set_has idx s) eqn:E.
  - rewrite Set_has_delete.
    destruct (Nat.eqb_spec x idx) as [-> | Hne]; cbn; [now rewrite andb_false_r |].
    apply andb_true_r.
  - rewrite Set_has_app. cbn.
    destruct (Nat.eqb_spec x idx) as [-> | Hne]; cbn.
    + now rewrite E.
    + now rewrite !orb_false_r.
Qed.

Lemma Set_delete_NoDup (x : nat) (s : list nat) : NoDup s -> NoDup (Set_delete x s).
Proof. apply NoDup_filter. Qed.

Lemma Set_has_In (x : nat) (s : list nat) : Set_has x s = true <-> In x s.
Proof.
  unfold Set_has. rewrite existsb_exists. split.
  - intros (y & Hy & E). apply Nat.eqb_eq in E. now subst.
  - intros H. exists x. split; [exact H | apply Nat.eqb_refl].
Qed.

(** X16: a click on a row expands it when it is collapsed and collapses it
    when it is expanded, and leaves every other row as it was; a second
    click undoes the first; and the set never holds a row twice. *)
Theorem toggleRow_one_row (idx : nat) (rows : list nat) :
  Set_has idx (toggleRow idx rows) = negb (Set_has idx rows)
  /\ (forall other, other <> idx ->
                    Set_has other (toggleRow idx rows) = Set_has other rows)
  /\ (forall any, Set_has any (toggleRow idx (toggleRow idx rows)) = Set_has any rows)
  /\ (NoDup rows -> NoDup (toggleRow idx rows)).
Proof.
  split; [| split; [| split]].
  - rewrite Set_has_toggle. now rewrite Nat.eqb_refl.
  - intros other Hne. rewrite Set_has_toggle.
    destruct (Nat.eqb_spec other idx); [contradiction | reflexivity].
  - intros any. rewrite !Set_has_toggle.
    destruct (Nat.eqb_spec any idx) as [-> | Hne]; [| reflexivity].
    rewrite Nat.eqb_refl. apply negb_involutive.
  - intros Hnd. unfold toggleRow, Set_add. cbv zeta.
    destruct (Set_has idx rows) eqn:E; [now apply Set_delete_NoDup |].
    apply NoDup_app; [exact Hnd | repeat constructor; intros [] |].
    intros x Hin [<- | []]. apply Set_has_In in Hin. congruence.
Qed.

Lemma toggleRow_one_row_witness :
  Set_has 1 (toggleRow 2 [0; 1]) = Set_has 1 [0; 1]
  /\ NoDup (toggleRow 2 [0; 1]).
Proof.
  split.
  - apply (proj1 (proj2 (toggleRow_one_row 2 [0; 1])) 1). discriminate.
  - apply (proj2 (proj2 (proj2 (toggleRow_one_row 2 [0; 1])))).
    repeat constructor; cbn; intuition discriminate.
Defined.

(** ** Badges of a mapped record *)

(** X17: the badges agree with the mapper. For every record the schema
    mapper returns, the status badge completes and shows the status itself,
    and the confidence badge completes and is the green one exactly when the
    status is Complete. *)
Theorem badges_of_mapped (r b : value) :
  mapChatGPTResult r = Ok b ->
  (exists badge,
      StatusBadge (get b "status") = Ok badge /\ label badge = get b "status")
  /\ (exists badge,
         ConfidenceBadge (get b "confidence") = Ok badge
         /\ (className badge
             = "inline-flex items-center gap-1 px-2 py-0.5 rounded-full text-xs font-medium bg-emerald-100 text-emerald-700"
             <-> get b "status" = VStr "Complete")).
Proof.
  intros Hb. pose proof (mapChatGPTResult_status r b Hb) as Hs.
  assert (Hc : get b "confidence" = nullish_or (get r "confidence") empty
               /\ otherThanString (get r "confidence") = false).
  { revert Hb. unfold mapChatGPTResult.
    destruct (match get (get r "website_details") "product_categories" with
              | VArr _ => _
              | _ => _
              end) as [category | e]; cbn [bind]; [| discriminate].
    destruct (status_of (get r "confidence")) as [status | e] eqn:E;
      cbn [bind]; [| discriminate].
    intros H. injection H as <-. split; [reflexivity |].
    destruct (get r "confidence"); try discriminate; reflexivity. }
  destruct Hc as [Hc Hstr]. rewrite Hs, Hc. split.
  - destruct (isVerified (get r "confidence")); eexists; split; reflexivity.
  - destruct (get r "confidence") as [| | | | c | |]; try discriminate; cbn.
    + eexists. split; [reflexivity |]. cbn. split; discriminate.
    + eexists. split; [reflexivity |]. cbn. split; discriminate.
    + eexists. split; [reflexivity |]. cbn [className].
      destruct (String.eqb (Str.toLowerCase c) "verified"); [split; reflexivity |].
      split; [| discriminate].
      destruct (String.eqb (Str.toLowerCase c) "partially verified");
        [discriminate |].
      destruct (String.eqb (Str.toLowerCase c) "not found"); discriminate.
Qed.

Lemma badges_of_mapped_witness :
  exists b,
    mapChatGPTResult lcw = Ok b
    /\ (exists badge,
           StatusBadge (get b "status") = Ok badge /\ label badge = get b "status").
Proof.
  eexists. split; [vm_compute; reflexivity |].
  apply (proj1 (badges_of_mapped lcw _ ltac:(vm_compute; reflexivity))).
Defined.

(** ** Blank input *)

Lemma rev_empty (s : string) : Str.rev s = EmptyString -> s = EmptyString.
Proof.
  destruct s as [| c s]; [reflexivity |]. rewrite rev_cons.
  destruct (Str.rev s); discriminate.
Qed.

Lemma trimStart_rev_all (n : nat) :
  forall x, String.length x <= n ->
            Str.trimStart_rev x = EmptyString ->
            startsBlank (Str.rev x) = false ->
            x = EmptyString.
Proof.
  induction n as [| n IH]; intros x Hn Ht Hs.
  { destruct x; [reflexivity | cbn in Hn; lia]. }
  destruct x as [| c1 r1]; [reflexivity |]. exfalso.
  cbn [String.length] in Hn. cbn [Str.trimStart_rev] in Ht.
  rewrite rev_cons in Hs.
  destruct (Str.ws1 c1) eqn:E1.
  { pose proof (IH r1 ltac:(lia) Ht (startsBlank_prefix _ _ Hs)) as ->.
    cbn in Hs. rewrite E1 in Hs. discriminate. }
  destruct r1 as [| c2 r2]; [discriminate |].
  cbn [String.length] in Hn. rewrite rev_cons, append_assoc in Hs.
  destruct (Str.ws2 c2 c1) eqn:E2.
  { pose proof (IH r2 ltac:(lia) Ht (startsBlank_prefix _ _ Hs)) as ->.
    cbn in Hs. rewrite E2, orb_true_r in Hs. discriminate. }
  destruct r2 as [| c3 r3]; [discriminate |].
  cbn [String.length] in Hn. rewrite rev_cons, append_assoc in Hs.
  destruct (Str.ws3 c3 c2 c1) eqn:E3; [| discriminate].
  pose proof (IH r3 ltac:(lia) Ht (startsBlank_prefix _ _ Hs)) as ->.
  cbn in Hs. rewrite E3, !orb_true_r in Hs. discriminate.
Qed.

Lemma trim_blank (s : string) :
  Str.trim s = EmptyString -> Str.trimStart s = EmptyString.
Proof.
  unfold Str.trim, Str.trimEnd. intros H. apply rev_empty in H.
  apply rev_empty.
  apply (trimStart_rev_all _ _ (le_n _) H).
  rewrite rev_involutive_string.
  exact (proj1 (trimStart_cut _ s (le_n _))).
Qed.

Lemma is_separator_code (c : ascii) :
  is_separator c = true -> Str.code c = 10 \/ Str.code c = 44.
Proof.
  unfold is_separator. intros H. apply orb_true_iff in H.
  destruct H as [H | H]; apply Ascii.eqb_eq in H; subst c; auto.
Qed.

Lemma ws1_separator (c : ascii) :
  Str.ws1 c = true -> is_separator c = true -> c = Str.LF.
Proof.
  intros Hw Hs. unfold is_separator in Hs. apply orb_true_iff in Hs.
  destruct Hs as [Hs | Hs]; apply Ascii.eqb_eq in Hs; subst c;
    [reflexivity | discriminate].
Qed.

Lemma ws2_high (c1 c2 : ascii) :
  Str.ws2 c1 c2 = true -> is_separator c1 = false /\ is_separator c2 = false.
Proof.
  unfold Str.ws2. intros H. apply andb_true_iff in H. destruct H as [H1 H2].
  apply Nat.eqb_eq in H1, H2.
  split.
  - destruct (is_separator c1) eqn:E; [| reflexivity].
    apply is_separator_code in E. lia.
  - destruct (is_separator c2) eqn:E; [| reflexivity].
    apply is_separator_code in E. lia.
Qed.

Lemma ws3_high (c1 c2 c3 : ascii) :
  Str.ws3 c1 c2 c3 = true ->
  is_separator c1 = false /\ is_separator c2 = false /\ is_separator c3 = false.
Proof.
  intros H.
  assert (Hlow : forall c, is_separator c = true ->
                           Str.code c <> 225 /\ Str.code c <> 226 /\ Str.code c <> 227
                           /\ Str.code c <> 239 /\ Str.code c <> 154
                           /\ Str.code c <> 128 /\ Str.code c <> 129
                           /\ Str.code c <> 187 /\ Str.code c < 128).
  { intros c Hc. apply is_separator_code in Hc. lia. }
  unfold Str.ws3 in H. cbv zeta in H.
  repeat split.
  - destruct (is_separator c1) eqn:E; [| reflexivity]. exfalso.
    destruct (Hlow c1 E) as (H1 & H2 & H3 & H4 & _).
    apply Nat.eqb_neq in H1, H2, H3, H4. rewrite H1, H2, H3, H4 in H. discriminate.
  - destruct (is_separator c2) eqn:E; [| reflexivity]. exfalso.
    destruct (Hlow c2 E) as (_ & _ & _ & _ & H1 & H2 & H3 & H4 & _).
    apply Nat.eqb_neq in H1, H2, H3, H4. rewrite H1, H2, H3, H4 in H.
    rewrite !andb_false_r in H. discriminate.
  - destruct (is_separator c3) eqn:E; [| reflexivity]. exfalso.
    destruct (Hlow c3 E) as (_ & _ & _ & _ & _ & _ & _ & _ & Hlt).
    destruct (Nat.leb_spec 128 (Str.code c3)); [lia |].
    destruct (Nat.eqb_spec (Str.code c3) 128); [lia |].
    destruct (Nat.eqb_spec (Str.code c3) 168); [lia |].
    destruct (Nat.eqb_spec (Str.code c3) 169); [lia |].
    destruct (Nat.eqb_spec (Str.code c3) 175); [lia |].
    destruct (Nat.eqb_spec (Str.code c3) 159); [lia |].
    destruct (Nat.eqb_spec (Str.code c3) 191); [lia |].
    rewrite !andb_false_r in H. discriminate.
Qed.

Lemma split_cons_plain (c : ascii) (s : string) :
  is_separator c = false ->
  exists piece rest,
    Str.split is_separator s = piece :: rest
    /\ Str.split is_separator (String c s) = String c piece :: rest.
Proof.
  intros Hc. cbn [Str.split]. rewrite Hc.
  pose proof (split_not_nil is_separator s) as Hne.
  destruct (Str.split is_separator s) as [| piece rest]; [contradiction |].
  eauto.
Qed.

Lemma split_blank (n : nat) :
  forall s, String.length s <= n ->
            Str.trimStart s = EmptyString ->
            Forall (fun piece => Str.trimStart piece = EmptyString)
              (Str.split is_separator s).
Proof.
  induction n as [| n IH]; intros s Hn Ht.
  { destruct s; [repeat constructor | cbn in Hn; lia]. }
  destruct s as [| c1 r1]; [repeat constructor |].
  cbn [String.length] in Hn. cbn [Str.trimStart] in Ht.
  destruct (Str.ws1 c1) eqn:E1.
  { pose proof (IH r1 ltac:(lia) Ht) as Hr1.
    destruct (is_separator c1) eqn:Es.
    - cbn [Str.split]. rewrite Es. constructor; [reflexivity | exact Hr1].
    - destruct (split_cons_plain c1 r1 Es) as (piece & rest & Hs & ->).
      rewrite Hs in Hr1. inversion Hr1 as [| ? ? Hp Hrest]; subst.
      constructor; [| exact Hrest]. cbn [Str.trimStart]. now rewrite E1. }
  destruct r1 as [| c2 r2]; [discriminate |].
  cbn [String.length] in Hn.
  destruct (Str.ws2 c1 c2) eqn:E2.
  { pose proof (IH r2 ltac:(lia) Ht) as Hr2.
    destruct (ws2_high c1 c2 E2) as [Hs1 Hs2].
    destruct (split_cons_plain c2 r2 Hs2) as (piece & rest & Hs & Hs').
    destruct (split_cons_plain c1 (String c2 r2) Hs1) as (piece' & rest' & Hq & ->).
    rewrite Hs' in Hq. injection Hq as <- <-.
    rewrite Hs in Hr2. inversion Hr2 as [| ? ? Hp Hrest]; subst.
    constructor; [| exact Hrest]. cbn [Str.trimStart]. now rewrite E1, E2. }
  destruct r2 as [| c3 r3]; [discriminate |].
  cbn [String.length] in Hn.
  destruct (Str.ws3 c1 c2 c3) eqn:E3; [| discriminate].
  pose proof (IH r3 ltac:(lia) Ht) as Hr3.
  destruct (ws3_high c1 c2 c3 E3) as (Hs1 & Hs2 & Hs3).
  destruct (split_cons_plain c3 r3 Hs3) as (piece & rest & Hs & Hs').
  destruct (split_cons_plain c2 (String c3 r3) Hs2) as (piece2 & rest2 & Hq & Hq').
  rewrite Hs' in Hq. injection Hq as <- <-.
  destruct (split_cons_plain c1 (String c2 (String c3 r3)) Hs1)
    as (piece1 & rest1 & Hp1 & ->).
  rewrite Hq' in Hp1. injection Hp1 as <- <-.
  rewrite Hs in Hr3. inversion Hr3 as [| ? ? Hp Hrest]; subst.
  constructor; [| exact Hrest]. cbn [Str.trimStart]. now rewrite E1, E2, E3.
Qed.

(** X18: a text box that holds only white space gives no names. When the
    text trims to the empty string (the case the page's effect does not
    even hand to the parser), [parseBrandText] returns the empty list. *)
Theorem parseBrandText_blank (text : string) :
  Str.trim text = EmptyString -> parseBrandText text = [].
Proof.
  intros Ht. rewrite parseBrandText_pieces.
  pose proof (split_blank _ text (le_n _) (trim_blank text Ht)) as Hall.
  induction Hall as [| piece pieces Hp _ IH]; [reflexivity |].
  cbn [flat_map]. rewrite IH, app_nil_r.
  unfold entryOf, Str.trim. now rewrite Hp.
Qed.

Lemma parseBrandText_blank_witness :
  parseBrandText blankText = [].
Proof.
  apply (parseBrandText_blank blankText). vm_compute. reflexivity.
Defined.

(** ** The usual answer *)

(** X19: the brands of [response.result] are passed through. When
    [response.result] resolves to an object (given as such, or as JSON text)
    whose brands entry resolves to a list starting with a brand, the
    orchestrator returns that list as it is, whatever else the response
    holds. *)
Theorem parseAgentResponse_result_brands (result : value)
  (fields : list (string * value)) (items : list value) :
  resolveValue (get (get result "response") "result") 0 = VObj fields ->
  resolveValue (get (VObj fields) "brands") 0 = VArr items ->
  startsWithBrand items = true ->
  parseAgentResponse result = items.
Proof.
  intros Hr Hb Hitems.
  unfold parseAgentResponse, parseAgentResponse_try. rewrite Hr.
  assert (Hfind : findBrandsInObject (VObj fields) 0 = Ok (Some items)).
  { rewrite findBrandsInObject_record by lia.
    cbv zeta. cbn [checkStandardKeys]. unfold checkStandardKey at 1. rewrite Hb.
    destruct items as [| first rest]; [discriminate |].
    cbn in Hitems. apply andb_true_iff in Hitems. destruct Hitems as [-> ->].
    reflexivity. }
  rewrite Hfind. cbn [bind].
  rewrite (startsWithBrand_nonEmpty items Hitems). reflexivity.
Qed.

Lemma parseAgentResponse_result_brands_witness :
  parseAgentResponse stringified = [VObj [("brand_name", VStr "Tesla")]].
Proof.
  apply (parseAgentResponse_result_brands stringified
           [("brands", VArr [VObj [("brand_name", VStr "Tesla")]])]).
  - vm_compute. reflexivity.
  - vm_compute. reflexivity.
  - reflexivity.
Defined.

(** ** Numbers *)

(** A number literal is read to the nearest binary64: what is too small
    reads as a zero of its sign, what is too large as an infinity, and
    literals that round to one Number read as the same value. *)
Lemma JSON_parse_rounds :
  JSON_parse "1e-400" = Some (VNum (S754_zero false))
  /\ JSON_parse "-1e-400" = Some (VNum (S754_zero true))
  /\ JSON_parse "-0" = Some (VNum (S754_zero true))
  /\ JSON_parse "1e400" = Some (VNum (S754_infinity false))
  /\ JSON_parse "5e-324" = Some (VNum (S754_finite false 1 (-1074)))
  /\ JSON_parse "3.0" = JSON_parse "3"
  /\ JSON_parse "300e-2" = JSON_parse "3"
  /\ JSON_parse "9007199254740993" = JSON_parse "9007199254740992"
  /\ JSON_parse "0.1000000000000000055" = JSON_parse "0.1"
  /\ truthy (tryParseString "1e-400") = false
  /\ truthy (tryParseString "1e400") = true.
Proof. vm_compute. repeat split. Qed.

(** Numbers are written with the fewest digits that read back. *)
Lemma Number_toString_shortest :
  map Conv.Number_toString
    [ mkNumber 1 (-1); mkNumber 3 (-1); mkNumber 1 21; mkNumber 1 23;
      mkNumber 123456789012345678901 0; mkNumber 1 (-6); mkNumber 1 (-7);
      mkNumber 9007199254740993 0; mkNumber 5 (-324); mkNumber (-15) (-1);
      mkNumber 30 (-1); mkNumber 1964 0; mkNumber 0 0; mkNumber 1 400;
      mkNumber (-1) 400; mkNumber 17976931348623157 292 ]
  = [ "0.1"; "0.3"; "1e+21"; "1e+23";
      "123456789012345680000"; "0.000001"; "1e-7";
      "9007199254740992"; "5e-324"; "-1.5";
      "3"; "1964"; "0"; "Infinity";
      "-Infinity"; "1.7976931348623157e+308" ].
Proof. vm_compute. reflexivity. Qed.
